(** * QoLib: a shallow embedding of [qolib.py] and its layout properties

    The development follows the source file top down: the Python
    primitives the library relies on ([str] methods, [int(s, 16)],
    [re.sub], true division), then [ANSIColor], [Color],
    [MessageService], [ProgressBar], [TablePrinter] and [ArtService].
    Definitions come first; the statements about them follow. *)

From Stdlib Require Import String Ascii DecimalString.
From Stdlib Require Import ZArith NArith List Lia Bool Floats.
From Equations Require Import Equations.
From Equations.Prop Require Import Logic.
From stdpp Require Import base option list gmap.
Import ListNotations.

Open Scope Z_scope.

(** ** Python values *)

(** A Python [str] is a sequence of Unicode code points; [len] counts code
    points, so a code point is a number and a string a list. *)
Abbreviation str := (list N).

(** ASCII literals of the source. *)
Definition lit (s : String.string) : str :=
  map Ascii.N_of_ascii (String.list_ascii_of_string s).
Arguments lit s%_string.

(** [len(s)] *)
Definition len {A} (l : list A) : Z := Z.of_nat (length l).

(** [s * n]: repetition; a count below one gives the empty string.  This
    is the string the interpreter returns when it returns one; [str_times]
    below is the operation with its failure. *)
Definition str_mul (s : str) (n : Z) : str :=
  concat (repeat s (Z.to_nat n)).

(** [str(n)] for an [int]. *)
Definition str_of_int (z : Z) : str :=
  lit (DecimalString.NilZero.string_of_int (Z.to_int z)).

(** [sep.join(parts)] *)
Fixpoint join (sep : str) (parts : list str) : str :=
  match parts with
  | [] => []
  | [p] => p
  | p :: ps => p ++ sep ++ join sep ps
  end.

(** Truth value of a string: non-empty. *)
Definition truthy (s : str) : bool :=
  match s with [] => false | _ => true end.

(** The exceptions the modelled code can raise. *)
Inductive exn : Set :=
| ValueError
| IndexError
| KeyError
| ZeroDivisionError
| OverflowError.

(** A computation either raises or returns. *)
Definition result (A : Type) : Type := exn + A.

Definition ret {A} (a : A) : result A := inr a.
Definition raise {A} (e : exn) : result A := inl e.
Definition bind {A B} (m : result A) (k : A -> result B) : result B :=
  match m with
  | inl e => inl e
  | inr a => k a
  end.

Notation "'let*' x ':=' m 'in' k" := (bind m (fun x => k))
  (at level 10, x pattern, m at level 100, k at level 200).

Definition raises {A} (m : result A) (e : exn) : Prop := m = inl e.
Definition returns {A} (m : result A) : Prop := exists a, m = inr a.

(** The largest index, [sys.maxsize], of a 64-bit build. *)
Definition PY_SSIZE_T_MAX : Z := 2 ^ 63 - 1.

(** [s * n] as the interpreter evaluates it: [OverflowError] when the
    count does not fit the index size, or when the result would be longer
    than the largest index.  [MemoryError], which depends on the machine
    and not on the program, is left out: memory is taken as sufficient,
    here and wherever a string is built. *)
Definition str_times (s : str) (n : Z) : result str :=
  if (n <? - PY_SSIZE_T_MAX - 1) || (PY_SSIZE_T_MAX <? n)
     || (PY_SSIZE_T_MAX <? len s * Z.max 0 n)
  then raise OverflowError
  else ret (str_mul s n).

(** [l[i]] for a non-negative index: [IndexError] out of range. *)
Definition index {A} (l : list A) (i : nat) : result A :=
  match l !! i with
  | Some a => ret a
  | None => raise IndexError
  end.

(** [l[i]] for any index: a negative one counts from the end. *)
Definition item {A} (l : list A) (i : Z) : result A :=
  let n := len l in
  if (0 <=? i) && (i <? n) then index l (Z.to_nat i)
  else if (- n <=? i) && (i <? 0) then index l (Z.to_nat (n + i))
  else raise IndexError.

(** ** [int(s, 16)]

    CPython first rewrites the string to ASCII: a code point below 127 is
    kept, any other white space becomes a blank, any other decimal digit
    its ASCII digit, and everything else is not a numeral.  Which code
    points above ASCII are white space or decimal digits is the
    interpreter's Unicode table, taken here as given. *)
Class UnicodeData : Type := {
  unicode_isspace : N -> bool;
  unicode_todecimal : N -> option N
}.

(** A table that knows no white space or digit outside ASCII. *)
Definition ascii_table : UnicodeData :=
  {| unicode_isspace := fun _ => false;
     unicode_todecimal := fun _ => None |}.

Module PyInt.

Definition to_ascii `{UnicodeData} (c : N) : N :=
  if (c <? 127)%N then c
  else if unicode_isspace c then 32%N
  else match unicode_todecimal c with
       | Some d => (48 + d)%N
       | None => 63%N
       end.

(** [Py_ISSPACE]: tab, line feed, vertical tab, form feed, carriage
    return, blank. *)
Definition isspace (c : N) : bool :=
  ((9 <=? c) && (c <=? 13) || (c =? 32))%N.

Fixpoint skip_space (s : str) : str :=
  match s with
  | c :: r => if isspace c then skip_space r else s
  | [] => []
  end.

(** Value of a digit in base 16. *)
Definition digit (c : N) : option Z :=
  if ((48 <=? c) && (c <=? 57))%N then Some (Z.of_N c - 48)
  else if ((97 <=? c) && (c <=? 102))%N then Some (Z.of_N c - 87)
  else if ((65 <=? c) && (c <=? 70))%N then Some (Z.of_N c - 55)
  else None.

Definition underscore : N := 95%N.

(** The digit loop: digits with single underscores between them.  It
    stops at the first other character and returns the number of digits
    read, their value and the unread rest; a doubled or trailing
    underscore is an error. *)
Fixpoint scan (prev : N) (ndigits : nat) (acc : Z) (s : str)
  : option (nat * Z * str) :=
  let stop := if (prev =? underscore)%N then None
              else Some (ndigits, acc, s) in
  match s with
  | [] => stop
  | c :: r =>
      if (c =? underscore)%N then
        if (prev =? underscore)%N then None else scan c ndigits acc r
      else match digit c with
           | Some d => scan c (S ndigits) (acc * 16 + d) r
           | None => stop
           end
  end.

Definition split_sign (s : str) : bool * str :=
  match s with
  | c :: r =>
      if (c =? 43)%N then (false, r)
      else if (c =? 45)%N then (true, r)
      else (false, s)
  | [] => (false, s)
  end.

(** An optional [0x] or [0X], after which one underscore is allowed. *)
Definition skip_prefix (s : str) : str :=
  match s with
  | c :: x :: r =>
      if ((c =? 48) && ((x =? 120) || (x =? 88)))%N then
        match r with
        | u :: r' => if (u =? underscore)%N then r' else r
        | [] => r
        end
      else s
  | _ => s
  end.

(** A numeral may not start with an underscore. *)
Definition starts_with_underscore (s : str) : bool :=
  match s with
  | c :: _ => (c =? underscore)%N
  | [] => false
  end.

(** [PyLong_FromString] in base 16, on the ASCII form. *)
Definition from_ascii (s : str) : result Z :=
  let '(neg, s1) := split_sign (skip_space s) in
  let s2 := skip_prefix s1 in
  if starts_with_underscore s2 then raise ValueError
  else
    match scan 0%N 0%nat 0 s2 with
    | None => raise ValueError
    | Some (O, _, _) => raise ValueError
    | Some (_, v, rest) =>
        match skip_space rest with
        | [] => ret (if neg then - v else v)
        | _ => raise ValueError
        end
    end.

Definition int16 `{UnicodeData} (s : str) : result Z :=
  from_ascii (map to_ascii s).

End PyInt.

(** ** [class ANSIColor] *)

Module ANSIColor.

Definition ESC : N := 27%N.

(** [ESC [ <code> m] *)
Definition sgr (code : String.string) : str :=
  ESC :: lit "[" ++ lit code ++ lit "m".
Arguments sgr code%_string.

Definition RESET := sgr "0".
Definition BOLD := sgr "1".
Definition DIM := sgr "2".
Definition ITALIC := sgr "3".
Definition UNDERLINE := sgr "4".
Definition BLINK := sgr "5".

Definition BLACK := sgr "30".
Definition RED := sgr "31".
Definition GREEN := sgr "32".
Definition YELLOW := sgr "33".
Definition BLUE := sgr "34".
Definition MAGENTA := sgr "35".
Definition CYAN := sgr "36".
Definition WHITE := sgr "37".

Definition BRIGHT_BLACK := sgr "90".
Definition BRIGHT_RED := sgr "91".
Definition BRIGHT_GREEN := sgr "92".
Definition BRIGHT_YELLOW := sgr "93".
Definition BRIGHT_BLUE := sgr "94".
Definition BRIGHT_MAGENTA := sgr "95".
Definition BRIGHT_CYAN := sgr "96".
Definition BRIGHT_WHITE := sgr "97".

Definition fg_256 (color_code : Z) : str :=
  ESC :: lit "[38;5;" ++ str_of_int color_code ++ lit "m".

Definition bg_256 (color_code : Z) : str :=
  ESC :: lit "[48;5;" ++ str_of_int color_code ++ lit "m".

Definition fg_rgb (r g b : Z) : str :=
  ESC :: lit "[38;2;" ++ str_of_int r ++ lit ";" ++ str_of_int g
      ++ lit ";" ++ str_of_int b ++ lit "m".

Definition bg_rgb (r g b : Z) : str :=
  ESC :: lit "[48;2;" ++ str_of_int r ++ lit ";" ++ str_of_int g
      ++ lit ";" ++ str_of_int b ++ lit "m".

End ANSIColor.

(** ** Floating point

    A Python [float] is an IEEE 754 binary64 number. *)
Module PyFloat.

(** An [int] as an unrounded binary number. *)
Definition exact (z : Z) : spec_float :=
  match z with
  | Z0 => S754_zero false
  | Zpos p => S754_finite false p 0
  | Zneg p => S754_finite true p 0
  end.

Definition is_infinite (x : float) : bool :=
  match Prim2SF x with
  | S754_infinity _ => true
  | _ => false
  end.

(** [float(n)] for an [int]: rounded to nearest even, [OverflowError]
    beyond the range. *)
Definition of_int (z : Z) : result float :=
  let x := SF2Prim (binary_normalize 53 1024 z 0 false) in
  if is_infinite x then raise OverflowError else ret x.

(** [int(x)]: truncation toward zero; an infinity or a NaN raises. *)
Definition to_int (x : float) : result Z :=
  match Prim2SF x with
  | S754_zero _ => ret 0
  | S754_finite s m e =>
      let v := if 0 <=? e then Z.pos m * 2 ^ e else Z.pos m / 2 ^ (- e) in
      ret (if s then - v else v)
  | S754_infinity _ => raise OverflowError
  | S754_nan => raise ValueError
  end.

(** [a / b] on two [int]s: the quotient rounded once. *)
Definition truediv (a b : Z) : result float :=
  if b =? 0 then raise ZeroDivisionError
  else
    let q := SF2Prim (SFdiv 53 1024 (exact a) (exact b)) in
    if is_infinite q then raise OverflowError else ret q.

(** [x / y] on floats. *)
Definition fdiv (x y : float) : result float :=
  if PrimFloat.eqb y 0%float then raise ZeroDivisionError
  else ret (PrimFloat.div x y).

(** [n * x] and [x * n] with an [int] [n]. *)
Definition mul_int (n : Z) (x : float) : result float :=
  let* f := of_int n in ret (PrimFloat.mul f x).

End PyFloat.

(** [format(x, ".1f")] and [format(x, ".0f")], as the interpreter prints
    them. *)
Class FloatFormat : Type := {
  format_1f : float -> str;
  format_0f : float -> str
}.

(** ** [class Color] *)

Module Color.

Definition RESET := ANSIColor.RESET.
Definition BOLD := ANSIColor.BOLD.
Definition DIM := ANSIColor.DIM.
Definition WHITE := ANSIColor.WHITE.
Definition CYAN := ANSIColor.CYAN.
Definition GRAY := ANSIColor.BRIGHT_BLACK.
Definition LIGHT_RED := ANSIColor.BRIGHT_RED.
Definition LIGHT_GREEN := ANSIColor.BRIGHT_GREEN.
Definition LIGHT_YELLOW := ANSIColor.BRIGHT_YELLOW.
Definition LIGHT_BLUE := ANSIColor.BRIGHT_BLUE.
Definition LIGHT_MAGENTA := ANSIColor.BRIGHT_MAGENTA.
Definition LIGHT_CYAN := ANSIColor.BRIGHT_CYAN.

(** [hex_color.lstrip('#')]: every leading [#] goes. *)
Fixpoint lstrip_hash (s : str) : str :=
  match s with
  | c :: r => if (c =? 35)%N then lstrip_hash r else s
  | [] => []
  end.

(** [''.join(c*2 for c in hex_color)] *)
Definition double_chars (s : str) : str :=
  flat_map (fun c => [c; c]) s.

(** [s[i:i+2]] *)
Definition slice2 (s : str) (i : nat) : str := firstn 2 (skipn i s).

Definition hex_to_rgb `{UnicodeData} (hex_color : str) : result (Z * Z * Z) :=
  let hex_color := lstrip_hash hex_color in
  let hex_color :=
    if len hex_color =? 3 then double_chars hex_color else hex_color in
  let* r := PyInt.int16 (slice2 hex_color 0) in
  let* g := PyInt.int16 (slice2 hex_color 2) in
  let* b := PyInt.int16 (slice2 hex_color 4) in
  ret (r, g, b).

Definition fg_hex `{UnicodeData} (hex_color : str) : result str :=
  let* (r, g, b) := hex_to_rgb hex_color in
  ret (ANSIColor.fg_rgb r g b).

Definition bg_hex `{UnicodeData} (hex_color : str) : result str :=
  let* (r, g, b) := hex_to_rgb hex_color in
  ret (ANSIColor.bg_rgb r g b).

(** *** [strip_colors]: [re.sub(r'\033\[[0-9;]*m', '', text)] *)

(** The class [[0-9;]]. *)
Definition is_param (c : N) : bool :=
  ((48 <=? c) && (c <=? 57) || (c =? 59))%N.

(** [[0-9;]*m] at the head of [text]: what follows the match.  The
    letter [m] is not in the class, so the greedy star never has to give
    a character back. *)
Fixpoint match_params (text : str) : option str :=
  match text with
  | [] => None
  | c :: rest =>
      if is_param c then match_params rest
      else if (c =? 109)%N then Some rest
      else None
  end.

(** The whole pattern at the head of [text]. *)
Definition match_sgr (text : str) : option str :=
  match text with
  | e :: b :: rest =>
      if ((e =? ANSIColor.ESC) && (b =? 91))%N then match_params rest
      else None
  | _ => None
  end.

(** [re.sub] with an empty replacement: scanning from the left, a match
    is dropped and the scan resumes after it; where the pattern does not
    match, the character is kept. *)
Equations? strip_colors (text : str) : str by wf (length text) lt :=
  strip_colors [] := [];
  strip_colors (c :: rest) with inspect (match_sgr (c :: rest)) := {
    | exist _ (Some after) _ := strip_colors after;
    | exist _ None _ := c :: strip_colors rest }.
Proof.
  - assert (Hp : forall t r, match_params t = Some r -> (length r < length t)%nat).
    { induction t as [|x t IH]; intros r Hr; [discriminate|].
      cbn in Hr. destruct (is_param x).
      - apply IH in Hr. cbn. lia.
      - destruct (x =? 109)%N; [|discriminate].
        injection Hr as <-. cbn. lia. }
    destruct rest as [|b rest]; [discriminate|].
    cbn in e. destruct ((c =? ANSIColor.ESC) && (b =? 91))%N; [|discriminate].
    apply Hp in e. cbn. lia.
  - cbn. lia.
Qed.

(** Visible length: [len(Color.strip_colors(s))]. *)
Definition visible_len (s : str) : Z := len (strip_colors s).

(** *** [gradient] *)

(** [step]: the int [1] for a palette of one colour ([None] here), else
    the float [len(text) / (len(colors) - 1)]. *)
Definition gradient_step (text : str) (colors : list str) : result (option float) :=
  if 1 <? len colors then
    let* s := PyFloat.truediv (len text) (len colors - 1) in ret (Some s)
  else ret None.

(** [int(i / step)]; with the int step [1] the quotient is the float of
    [i], which [int] turns back into [i]. *)
Definition gradient_pos (i : Z) (step : option float) : result Z :=
  match step with
  | None => ret i
  | Some s =>
      let* x := PyFloat.of_int i in
      let* q := PyFloat.fdiv x s in
      PyFloat.to_int q
  end.

(** The loop over [enumerate(text)], from index [i] on.  Both branches
    of the source's [if color_idx == next_idx] append the same string
    ([pos] is computed and dropped), so one append stands for both. *)
Fixpoint gradient_loop (colors : list str) (step : option float)
         (i : Z) (text : str) : result (list str) :=
  match text with
  | [] => ret []
  | char :: rest =>
      if (char =? 32)%N then
        let* tail := gradient_loop colors step (i + 1) rest in
        ret ([char] :: tail)
      else
        let* p := gradient_pos i step in
        let color_idx := Z.min p (len colors - 1) in
        let* color := item colors color_idx in
        let* tail := gradient_loop colors step (i + 1) rest in
        ret ((color ++ [char]) :: tail)
  end.

Definition gradient (text : str) (colors : list str) : result str :=
  match colors with
  | [] => ret text
  | _ =>
      let* step := gradient_step text colors in
      let* result := gradient_loop colors step 0 text in
      ret (concat result ++ RESET)
  end.

(** The other names the quick functions and the palettes use. *)
Definition RED := ANSIColor.RED.
Definition GREEN := ANSIColor.GREEN.
Definition YELLOW := ANSIColor.YELLOW.
Definition BLUE := ANSIColor.BLUE.
Definition MAGENTA := ANSIColor.MAGENTA.
Definition UNDERLINE := ANSIColor.UNDERLINE.

Definition RAINBOW : list str := [RED; YELLOW; GREEN; CYAN; BLUE; MAGENTA].

End Color.

(** ** [class MessageService] *)

Module MessageService.

Record MessageStyle : Type := {
  prefix : str;
  color : str;
  style : str;
  icon : str;
  timestamp : bool;
  indent : Z
}.

(** The dataclass constructor with its defaults. *)
Definition mk_style (prefix color style icon : str) : MessageStyle :=
  {| prefix := prefix; color := color; style := style; icon := icon;
     timestamp := false; indent := 0 |}.

Inductive MessageType : Set :=
| INFO | INFO2 | PENDING | SUCCESS | SUCCESS2
| ERROR | WARNING | QUESTION | DEBUG | CUSTOM.

(** The class dictionary [_STYLES]; [CUSTOM] has no entry.  The icon and
    tick literals are the code points the source file holds. *)
Definition _STYLES (t : MessageType) : option MessageStyle :=
  match t with
  | INFO => Some (mk_style (lit "[+]") Color.WHITE [] [8218; 209; 960]%N)
  | INFO2 => Some (mk_style (lit "[#]") Color.LIGHT_BLUE [] [63743; 252; 245; 224]%N)
  | PENDING => Some (mk_style (lit "[...]") Color.GRAY [] [8218; 229; 245]%N)
  | SUCCESS => Some (mk_style [91; 8218; 250; 236; 93]%N Color.LIGHT_GREEN Color.BOLD
                              [8218; 250; 214]%N)
  | SUCCESS2 => Some (mk_style [91; 8218; 250; 236; 93]%N Color.LIGHT_BLUE []
                               [8218; 250; 214]%N)
  | ERROR => Some (mk_style (lit "[-]") Color.LIGHT_RED Color.BOLD [8218; 249; 229]%N)
  | WARNING => Some (mk_style (lit "[!]") Color.LIGHT_YELLOW Color.BOLD
                              [8218; 246; 8224]%N)
  | QUESTION => Some (mk_style (lit "[?]") Color.LIGHT_MAGENTA [] [8218; 249; 236]%N)
  | DEBUG => Some (mk_style (lit "[DEBUG]") Color.LIGHT_CYAN [] [63743; 252; 234; 245]%N)
  | CUSTOM => None
  end.

(** The mutable class attributes. *)
Record state : Type := {
  _custom_styles : gmap str MessageStyle;
  _show_icons : bool;
  _show_timestamps : bool;
  _timestamp_format : str
}.

Definition initial : state :=
  {| _custom_styles := ∅; _show_icons := true; _show_timestamps := false;
     _timestamp_format := lit "%H:%M:%S" |}.

Definition configure (cls : state) (show_icons show_timestamps : option bool)
           (timestamp_format : option str) : state :=
  {| _custom_styles := _custom_styles cls;
     _show_icons := default (_show_icons cls) show_icons;
     _show_timestamps := default (_show_timestamps cls) show_timestamps;
     _timestamp_format := default (_timestamp_format cls) timestamp_format |}.

Definition register_style (cls : state) (name prefix color style icon : str) : state :=
  {| _custom_styles := <[name := mk_style prefix color style icon]> (_custom_styles cls);
     _show_icons := _show_icons cls;
     _show_timestamps := _show_timestamps cls;
     _timestamp_format := _timestamp_format cls |}.

(** The first argument of [print]: a [MessageType] member or a string. *)
Inductive kind : Type :=
| of_type (t : MessageType)
| of_name (name : str).

(** [d[k]] on [_STYLES]. *)
Definition styles_item (t : MessageType) : result MessageStyle :=
  match _STYLES t with
  | Some s => ret s
  | None => raise KeyError
  end.

(** "Get style": the lookup and the fall-back of [print]. *)
Definition resolve (cls : state) (message_type : kind) : result MessageStyle :=
  let style :=
    match message_type with
    | of_type t => _STYLES t
    | of_name name => _custom_styles cls !! name
    end in
  match style with
  | Some s => ret s
  | None => styles_item INFO
  end.

(** [print]: the text handed to the built-in [print], terminator
    included.  [strftime] stands for [datetime.now().strftime]. *)
Definition print (strftime : str -> str) (cls : state) (message_type : kind)
           (text end_ : str) (indent_ : Z) : result str :=
  let* style_ := resolve cls message_type in
  let prefix_parts :=
    (if _show_timestamps cls
     then [Color.DIM ++ strftime (_timestamp_format cls) ++ Color.RESET] else [])
    ++ (if _show_icons cls && truthy (icon style_)
        then [color style_ ++ style style_ ++ icon style_ ++ Color.RESET] else [])
    ++ [color style_ ++ style style_ ++ prefix style_ ++ Color.RESET] in
  let prefix_ := join (lit " ") prefix_parts in
  let* indent_str := str_times (lit " ") (indent style_ + indent_) in
  let full_text :=
    indent_str ++ prefix_ ++ lit " " ++ color style_ ++ text ++ Color.RESET in
  ret (full_text ++ end_).

(** The quick methods: [print] with a fixed kind; [custom] passes the name. *)
Definition info strftime cls text end_ indent_ :=
  print strftime cls (of_type INFO) text end_ indent_.
Definition info2 strftime cls text end_ indent_ :=
  print strftime cls (of_type INFO2) text end_ indent_.
Definition pending strftime cls text end_ indent_ :=
  print strftime cls (of_type PENDING) text end_ indent_.
Definition success strftime cls text end_ indent_ :=
  print strftime cls (of_type SUCCESS) text end_ indent_.
Definition success2 strftime cls text end_ indent_ :=
  print strftime cls (of_type SUCCESS2) text end_ indent_.
Definition error strftime cls text end_ indent_ :=
  print strftime cls (of_type ERROR) text end_ indent_.
Definition warning strftime cls text end_ indent_ :=
  print strftime cls (of_type WARNING) text end_ indent_.
Definition question strftime cls text end_ indent_ :=
  print strftime cls (of_type QUESTION) text end_ indent_.
Definition debug strftime cls text end_ indent_ :=
  print strftime cls (of_type DEBUG) text end_ indent_.

End MessageService.

(** ** [class ProgressBar] *)

Module ProgressBar.

Record t : Type := {
  total : Z;
  current : Z;
  description : str;
  bar_length : Z;
  complete_char : str;
  incomplete_char : str;
  show_percentage : bool;
  show_counter : bool;
  start_time : float
}.

(** The constructor; [now] is the reading of [time.time()]. *)
Definition __init__ (now : float) (total : Z) (description : str) (bar_length : Z)
           (complete_char incomplete_char : str)
           (show_percentage show_counter : bool) : result t :=
  ret {| total := total; current := 0; description := description;
         bar_length := bar_length; complete_char := complete_char;
         incomplete_char := incomplete_char;
         show_percentage := show_percentage; show_counter := show_counter;
         start_time := now |}.

(** The ratio of [_render]: [self.current / self.total]. *)
Definition ratio (self : t) : result float :=
  PyFloat.truediv (current self) (total self).

(** [_render]: the text written to the terminal. *)
Definition _render `{FloatFormat} (now : float) (self : t) : result str :=
  let* progress := ratio self in
  let* scaled := PyFloat.mul_int (bar_length self) progress in
  let* filled_length := PyFloat.to_int scaled in
  let* done := str_times (complete_char self) filled_length in
  let* todo := str_times (incomplete_char self) (bar_length self - filled_length) in
  let bar := done ++ todo in
  let percentage :=
    if show_percentage self
    then format_1f (PrimFloat.mul progress 100%float) ++ lit "%" else [] in
  let counter :=
    if show_counter self
    then str_of_int (current self) ++ lit "/" ++ str_of_int (total self) else [] in
  let elapsed := PrimFloat.sub now (start_time self) in
  let* time_str :=
    if (0 <? current self) && PrimFloat.ltb progress 1%float then
      let* per_unit := PyFloat.fdiv elapsed progress in
      let remaining := PrimFloat.mul per_unit (PrimFloat.sub 1%float progress) in
      ret (lit " [" ++ format_0f elapsed ++ lit "<" ++ format_0f remaining ++ lit "s]")
    else if PrimFloat.leb 1%float progress then
      ret (lit " [" ++ format_1f elapsed ++ lit "s]")
    else ret [] in
  let parts :=
    (if truthy (description self) then [description self] else [])
    ++ [lit "[" ++ bar ++ lit "]"]
    ++ (if truthy percentage then [percentage] else [])
    ++ (if truthy counter then [counter] else [])
    ++ [time_str] in
  ret (13%N :: join (lit " ") parts).

(** [self.current = c] *)
Definition set_current (self : t) (c : Z) : t :=
  {| total := total self; current := c; description := description self;
     bar_length := bar_length self; complete_char := complete_char self;
     incomplete_char := incomplete_char self;
     show_percentage := show_percentage self; show_counter := show_counter self;
     start_time := start_time self |}.

(** The assignment of [update(value=None, increment=1)]. *)
Definition advance (self : t) (value : option Z) (increment : Z) : t :=
  match value with
  | Some v => set_current self (Z.min v (total self))
  | None => set_current self (Z.min (current self + increment) (total self))
  end.

(** [update]: the object after the call and the outcome of the
    rendering.  The assignment comes first, so it stays when the rendering
    raises. *)
Definition update `{FloatFormat} (now : float) (self : t)
           (value : option Z) (increment : Z) : t * result str :=
  let self' := advance self value increment in
  (self', _render now self').

(** [finish]: [update(self.total)] and a line feed. *)
Definition finish `{FloatFormat} (now : float) (self : t) : t * result str :=
  let '(self', out) := update now self (Some (total self)) 1 in
  (self', let* line := out in ret (line ++ [10%N])).

(** [__enter__]: [update(0)]. *)
Definition __enter__ `{FloatFormat} (now : float) (self : t) : t * result str :=
  update now self (Some 0) 1.

End ProgressBar.

(** ** Printing

    A routine that prints line by line leaves, when it raises, the lines
    printed before the failure on the terminal: its outcome is the printed
    lines together with a result. *)
Definition printing (A : Type) : Type := list str * result A.

Definition pure {A} (a : A) : printing A := ([], ret a).
Definition lift {A} (m : result A) : printing A := ([], m).
Definition echo (line : str) : printing unit := ([line], ret tt).
Definition then_ {A B} (m : printing A) (k : A -> printing B) : printing B :=
  match m with
  | (out, inl e) => (out, inl e)
  | (out, inr a) => let '(out', r) := k a in (out ++ out', r)
  end.

Notation "'do' x '<-' m ';' k" := (then_ m (fun x => k))
  (at level 10, x pattern, m at level 100, k at level 200).
Notation "m ';;' k" := (then_ m (fun _ => k))
  (at level 100, k at level 200, right associativity).

(** [when c: m] *)
Definition when (c : bool) (m : printing unit) : printing unit :=
  if c then m else pure tt.

(** [sys.stdout.write(chunk)]: for a routine that writes, the outcome
    lists the chunks written in place of the lines. *)
Definition write (chunk : str) : printing unit := ([chunk], ret tt).

(** [time.sleep(d)] writes nothing; it returns, or it raises for a
    duration the interpreter refuses (negative, not a number, too large).
    Which durations it refuses is taken as given. *)
Class Sleeping : Type := {
  sleep : float -> result unit
}.

(** ** [class AnimationService] *)

Module AnimationService.

(** [range(seconds, 0, -1)] *)
Definition countdown_range (seconds : Z) : list Z :=
  map (fun k => seconds - Z.of_nat k) (seq 0 (Z.to_nat seconds)).

(** [countdown]: the chunks written.  The pause of one second between
    two of them writes nothing and cannot fail. *)
Definition countdown (seconds : Z) (message end_message : str) : list str :=
  map (fun i => [13%N] ++ message ++ lit ": " ++ Color.YELLOW ++ str_of_int i
                ++ Color.RESET ++ lit " sec.   ")
      (countdown_range seconds)
  ++ [[13%N] ++ end_message ++ str_mul (lit " ") 20 ++ [10%N]].

(** [char in pause_chars] *)
Definition is_pause_char (pause_chars : str) (char : N) : bool :=
  existsb (N.eqb char) pause_chars.

(** The loop of [typing_effect] over the characters of [text]. *)
Fixpoint typing_loop `{Sleeping} (speed : float) (color pause_chars : str)
         (pause_duration : float) (text : str) : printing unit :=
  match text with
  | [] => pure tt
  | char :: rest =>
      write (color ++ [char] ++ Color.RESET);;
      lift (if is_pause_char pause_chars char
            then sleep pause_duration else sleep speed);;
      typing_loop speed color pause_chars pause_duration rest
  end.

Definition typing_effect `{Sleeping} (text : str) (speed : float)
           (color pause_chars : str) (pause_duration : float) : printing unit :=
  typing_loop speed color pause_chars pause_duration text;;
  write [10%N].

End AnimationService.

(** ** [class Spinner] *)

Module Spinner.

(** The frame literals are the code points the source file holds. *)
Definition DEFAULT_FRAMES : list str :=
  [[8218; 8224; 227]; [8218; 8224; 244]; [8218; 8224; 960]; [8218; 8224; 8719];
   [8218; 8224; 186]; [8218; 8224; 165]; [8218; 8224; 182]; [8218; 8224; 223];
   [8218; 8224; 225]; [8218; 8224; 232]]%N.

Record t : Type := {
  message : str;
  delay : float;
  frames : list str;
  _running : bool;
  _current_frame : Z
}.

(** The constructor: [frames or self.DEFAULT_FRAMES]. *)
Definition __init__ (message : str) (delay : float) (frames : list str) : t :=
  {| message := message; delay := delay;
     frames := match frames with
               | [] => DEFAULT_FRAMES
               | _ => frames
               end;
     _running := false; _current_frame := 0 |}.

(** The assignments of [start]; the thread it launches runs [spin]. *)
Definition start (self : t) : t :=
  {| message := message self; delay := delay self; frames := frames self;
     _running := true; _current_frame := 0 |}.

Definition update_message (self : t) (new_message : str) : t :=
  {| message := new_message; delay := delay self; frames := frames self;
     _running := _running self; _current_frame := _current_frame self |}.

(** [a % b] on [int]s. *)
Definition py_mod (a b : Z) : result Z :=
  if b =? 0 then raise ZeroDivisionError else ret (a mod b).

(** One turn of the loop of [spin], entered when [_running] holds: the
    frame is written and the counter moves on before the thread sleeps;
    the result is the object as the turn leaves it. *)
Definition turn `{Sleeping} (self : t) : printing t :=
  do k <- lift (py_mod (_current_frame self) (len (frames self)));
  do frame <- lift (item (frames self) k);
  write ([13%N] ++ frame ++ lit " " ++ message self);;
  let self' :=
    {| message := message self; delay := delay self; frames := frames self;
       _running := _running self; _current_frame := _current_frame self + 1 |} in
  lift (sleep (delay self));;
  pure self'.

(** [n] turns in a row, with no other call in between. *)
Fixpoint turns `{Sleeping} (n : nat) (self : t) : printing t :=
  match n with
  | O => pure self
  | S n' => do self' <- turn self; turns n' self'
  end.

(** [stop]: the object and the chunks written to clear the line; a
    [final_message] that is not empty is printed after them. *)
Definition stop (self : t) (final_message : str) : t * list str :=
  ({| message := message self; delay := delay self; frames := frames self;
      _running := false; _current_frame := _current_frame self |},
   [[13%N] ++ str_mul (lit " ") (len (message self) + 2) ++ [13%N]]
   ++ (if truthy final_message then [final_message ++ [10%N]] else [])).

End Spinner.

(** ** [class TablePrinter] *)

Module TablePrinter.

(** A cell is any Python object; what the table does with it is [str()]
    and the test against [None]. *)
Inductive cell : Type :=
| CNone
| CStr (s : str)
| CInt (n : Z).

(** [str(cell)] *)
Definition str_of (c : cell) : str :=
  match c with
  | CNone => lit "None"
  | CStr s => s
  | CInt n => str_of_int n
  end.

(** One entry of [_border_styles]. *)
Record border : Type := {
  top_left : str; top_right : str; bottom_left : str; bottom_right : str;
  horizontal : str; vertical : str; cross : str;
  top_cross : str; bottom_cross : str; left_cross : str; right_cross : str
}.

(** The glyph literals are the code points the source file holds. *)
Definition rounded : border :=
  {| top_left := [8218; 239; 8800]%N; top_right := [8218; 239; 198]%N;
     bottom_left := [8218; 239; 8734]%N; bottom_right := [8218; 239; 216]%N;
     horizontal := [8218; 238; 196]%N; vertical := [8218; 238; 199]%N;
     cross := [8218; 238; 186]%N; top_cross := [8218; 238; 168]%N;
     bottom_cross := [8218; 238; 165]%N; left_cross := [8218; 238; 250]%N;
     right_cross := [8218; 238; 167]%N |}.

Definition double : border :=
  {| top_left := [8218; 239; 238]%N; top_right := [8218; 239; 243]%N;
     bottom_left := [8218; 239; 246]%N; bottom_right := [8218; 239; 249]%N;
     horizontal := [8218; 239; 234]%N; vertical := [8218; 239; 235]%N;
     cross := [8218; 239; 168]%N; top_cross := [8218; 239; 182]%N;
     bottom_cross := [8218; 239; 169]%N; left_cross := [8218; 239; 8224]%N;
     right_cross := [8218; 239; 163]%N |}.

Definition simple : border :=
  {| top_left := [8218; 238; 229]%N; top_right := [8218; 238; 234]%N;
     bottom_left := [8218; 238; 238]%N; bottom_right := [8218; 238; 242]%N;
     horizontal := [8218; 238; 196]%N; vertical := [8218; 238; 199]%N;
     cross := [8218; 238; 186]%N; top_cross := [8218; 238; 168]%N;
     bottom_cross := [8218; 238; 165]%N; left_cross := [8218; 238; 250]%N;
     right_cross := [8218; 238; 167]%N |}.

Definition plain : border :=
  {| top_left := []; top_right := []; bottom_left := []; bottom_right := [];
     horizontal := []; vertical := lit " "; cross := [];
     top_cross := []; bottom_cross := []; left_cross := []; right_cross := [] |}.

(** [self._border_styles.get(self.border_style, self._border_styles["simple"])] *)
Definition border_of (border_style : str) : border :=
  if bool_decide (border_style = lit "rounded") then rounded
  else if bool_decide (border_style = lit "double") then double
  else if bool_decide (border_style = lit "simple") then simple
  else if bool_decide (border_style = lit "plain") then plain
  else simple.

Record t : Type := {
  headers : list str;
  rows : list (list cell);
  column_align : list str;
  padding : Z;
  border_style : str;
  header_color : str;
  zebra_stripes : bool;
  stripe_color : str
}.

(** The constructor: [column_align or ["left"] * len(headers)]. *)
Definition __init__ (headers : list str) (column_align : list str) (padding : Z)
           (border_style header_color : str) (zebra_stripes : bool)
           (stripe_color : str) : t :=
  {| headers := headers; rows := [];
     column_align := match column_align with
                     | [] => repeat (lit "left") (length headers)
                     | _ => column_align
                     end;
     padding := padding; border_style := border_style;
     header_color := header_color; zebra_stripes := zebra_stripes;
     stripe_color := stripe_color |}.

Definition with_rows (self : t) (rows : list (list cell)) : t :=
  {| headers := headers self; rows := rows;
     column_align := column_align self; padding := padding self;
     border_style := border_style self; header_color := header_color self;
     zebra_stripes := zebra_stripes self; stripe_color := stripe_color self |}.

Definition add_row (self : t) (row : list cell) : t :=
  with_rows self (rows self ++ [row]).

Definition add_rows (self : t) (new_rows : list (list cell)) : t :=
  with_rows self (rows self ++ new_rows).

(** [s.ljust(width)], [s.rjust(width)], [s.center(width)] *)
Definition ljust (s : str) (width : Z) : str :=
  s ++ str_mul (lit " ") (width - len s).

Definition rjust (s : str) (width : Z) : str :=
  str_mul (lit " ") (width - len s) ++ s.

Definition center (s : str) (width : Z) : str :=
  let marg := width - len s in
  if marg <=? 0 then s
  else
    let left := marg / 2 + Z.land (Z.land marg width) 1 in
    str_mul (lit " ") left ++ s ++ str_mul (lit " ") (marg - left).

(** The three-way [if align == ...] of the header and row loops. *)
Definition aligned (align s : str) (width : Z) : str :=
  if bool_decide (align = lit "center") then center s width
  else if bool_decide (align = lit "right") then rjust s width
  else ljust s width.

(** The inner loop of the width computation, for column [i]. *)
Definition widest (i : nat) (rows : list (list cell)) (start : Z) : Z :=
  fold_left (fun max_width row =>
               match row !! i with
               | Some c => Z.max max_width (len (str_of c))
               | None => max_width
               end) rows start.

(** "Determine column widths". *)
Definition col_widths (self : t) : list Z :=
  imap (fun i header => widest i (rows self) (len header) + padding self * 2)
       (headers self).

(** A rule line: [left], then for each width the horizontal glyph
    repeated, with [joint] between two columns, then [right]. *)
Fixpoint rule_body (b : border) (joint : str) (widths : list Z) : result str :=
  match widths with
  | [] => ret []
  | [w] => str_times (horizontal b) w
  | w :: ws =>
      let* run := str_times (horizontal b) w in
      let* rest := rule_body b joint ws in
      ret (run ++ joint ++ rest)
  end.

Definition rule (b : border) (left joint right : str) (widths : list Z)
  : result str :=
  let* body := rule_body b joint widths in
  ret (left ++ body ++ right).

(** The line starts with the vertical glyph when there is one. *)
Definition line_start (b : border) : str :=
  if truthy (vertical b) then vertical b else [].

(** One turn of the header or row loop: the text appended to the line for
    the string [s] in column [i], painted with [paint]. *)
Definition field (self : t) (b : border) (widths : list Z) (paint : str)
           (i : nat) (s : str) : result str :=
  let* w := index widths i in
  let width := w - padding self * 2 in
  let* align := index (column_align self) i in
  let formatted := aligned align s width in
  let* pad := str_times (lit " ") (padding self) in
  ret (pad ++ paint ++ formatted ++ Color.RESET ++ pad
       ++ (if truthy (vertical b) then vertical b else [])).

(** The header loop, from column [i] on. *)
Fixpoint header_fields (self : t) (b : border) (widths : list Z)
         (i : nat) (hs : list str) : result str :=
  match hs with
  | [] => ret []
  | header :: hs' =>
      let* f := field self b widths (header_color self) i header in
      let* rest := header_fields self b widths (S i) hs' in
      ret (f ++ rest)
  end.

(** [str(cell) if cell is not None else ""] *)
Definition cell_str (c : cell) : str :=
  match c with
  | CNone => []
  | _ => str_of c
  end.

(** The loop over [enumerate(row)], from column [i] on. *)
Fixpoint row_fields (self : t) (b : border) (widths : list Z) (row_color : str)
         (i : nat) (row : list cell) : result str :=
  match row with
  | [] => ret []
  | c :: row' =>
      let* f := field self b widths row_color i (cell_str c) in
      let* rest := row_fields self b widths row_color (S i) row' in
      ret (f ++ rest)
  end.

Definition row_line (self : t) (b : border) (widths : list Z)
           (row_idx : nat) (row : list cell) : result str :=
  let row_color :=
    if zebra_stripes self && (Z.of_nat row_idx mod 2 =? 1)
    then stripe_color self else [] in
  let* fields := row_fields self b widths row_color 0 row in
  ret (line_start b ++ fields).

(** The loop over [enumerate(self.rows)], from row [row_idx] on. *)
Fixpoint print_rows (self : t) (b : border) (widths : list Z)
         (row_idx : nat) (rows : list (list cell)) : printing unit :=
  match rows with
  | [] => pure tt
  | row :: rows' =>
      do line <- lift (row_line self b widths row_idx row);
      echo line;;
      print_rows self b widths (S row_idx) rows'
  end.

Definition header_line (self : t) (b : border) (widths : list Z) : result str :=
  let* fields := header_fields self b widths 0 (headers self) in
  ret (line_start b ++ fields).

Definition print (self : t) : printing unit :=
  let widths := col_widths self in
  let b := border_of (border_style self) in
  when (truthy (top_left b))
       (do line <- lift (rule b (top_left b) (top_cross b) (top_right b) widths);
        echo line);;
  do line <- lift (header_line self b widths);
  echo line;;
  when (truthy (left_cross b))
       (do line <- lift (rule b (left_cross b) (cross b) (right_cross b) widths);
        echo line);;
  print_rows self b widths 0 (rows self);;
  when (truthy (bottom_left b))
       (do line <- lift (rule b (bottom_left b) (bottom_cross b) (bottom_right b)
                           widths);
        echo line).

End TablePrinter.

(** ** [class GraphPrinter] *)


Module GraphPrinter.

(** A [Dict[str, float]]: the items in insertion order, the keys distinct. *)
Abbreviation dict := (list (str * float)).









End GraphPrinter.

(** ** [class ArtService] *)

Module ArtService.

(** [text.split('\n')]: never empty. *)
Fixpoint split_lines (text : str) : list str :=
  match text with
  | [] => [[]]
  | c :: rest =>
      if (c =? 10)%N then [] :: split_lines rest
      else match split_lines rest with
           | l :: ls => (c :: l) :: ls
           | [] => [[c]]
           end
  end.

(** [max(len(Color.strip_colors(line)) for line in lines)] on a
    non-empty list. *)
Definition max_visible (lines : list str) : Z :=
  match lines with
  | [] => 0
  | l :: ls => fold_left (fun m line => Z.max m (Color.visible_len line)) ls
                         (Color.visible_len l)
  end.

(** The glyph literals of [box], as the source file holds them. *)
Definition g_top_left : str := [8218; 239; 8800]%N.
Definition g_top_right : str := [8218; 239; 198]%N.
Definition g_bottom_left : str := [8218; 239; 8734]%N.
Definition g_bottom_right : str := [8218; 239; 216]%N.
Definition g_horizontal : str := [8218; 238; 196]%N.
Definition g_vertical : str := [8218; 238; 199]%N.

(** The lines of [box] as strings: what the call builds when it returns,
    that is when each repetition is one the interpreter accepts
    ([str_times]). *)
Definition top_border (max_len : Z) (title : str) (padding : Z)
           (border_color title_color : str) : str :=
  if truthy title then
    border_color ++ (g_top_left ++ g_horizontal ++ lit " ") ++ title_color ++ title
    ++ border_color ++ lit " "
    ++ str_mul g_horizontal (max_len - len title + padding * 2) ++ g_top_right
  else
    border_color ++ g_top_left
    ++ str_mul g_horizontal (max_len + padding * 2 + 2) ++ g_top_right.

Definition content_line (max_len : Z) (padding : Z) (border_color : str)
           (line : str) : str :=
  let clean_len := Color.visible_len line in
  let padding_right := max_len - clean_len in
  border_color ++ g_vertical ++ str_mul (lit " ") padding ++ line
  ++ str_mul (lit " ") (padding + padding_right) ++ border_color ++ g_vertical.

Definition bottom_border (max_len : Z) (padding : Z) (border_color : str) : str :=
  border_color ++ g_bottom_left
  ++ str_mul g_horizontal (max_len + padding * 2 + 2) ++ g_bottom_right.

(** The list joined by [box]: top border, content lines, bottom border. *)
Definition box_lines (text title : str) (padding : Z)
           (border_color title_color : str) : list str :=
  let lines := split_lines text in
  let max_len := max_visible lines in
  [top_border max_len title padding border_color title_color]
  ++ map (content_line max_len padding border_color) lines
  ++ [bottom_border max_len padding border_color].

Definition box (text title : str) (padding : Z)
           (border_color title_color : str) : str :=
  join (lit (String (ascii_of_nat 10) EmptyString))
       (box_lines text title padding border_color title_color)
  ++ Color.RESET.

(** [separator]: the string returned, when [char * length] is accepted. *)
Definition separator (length : Z) (char color : str) : str :=
  color ++ str_mul char length ++ Color.RESET.

(** The pieces the glyphs of the font are made of, as the source file
    holds them: a full block, a corner, a blank. *)
Definition blocks (n : nat) : str := concat (repeat [8218; 241; 224]%N n).
Definition corner : str := [8218; 239; 243]%N.
Definition blanks (n : nat) : str := repeat 32%N n.

(** The font ["simple"], the only one of [fonts]. *)
Definition simple_font (char : N) : option str :=
  match char with
  | 65%N => Some (blanks 1 ++ blocks 5 ++ corner ++ blanks 1)
  | 66%N => Some (blocks 6 ++ corner ++ blanks 1)
  | 67%N => Some (blanks 1 ++ blocks 6 ++ corner)
  | 68%N => Some (blocks 6 ++ corner ++ blanks 1)
  | 69%N => Some (blocks 7 ++ corner)
  | 70%N => Some (blocks 7 ++ corner)
  | 71%N => Some (blanks 1 ++ blocks 6 ++ corner ++ blanks 1)
  | 72%N => Some (blocks 2 ++ corner ++ blanks 2 ++ blocks 2 ++ corner)
  | 73%N => Some (blocks 2 ++ corner)
  | 74%N => Some (blanks 5 ++ blocks 2 ++ corner)
  | 75%N => Some (blocks 2 ++ corner ++ blanks 2 ++ blocks 2 ++ corner)
  | 76%N => Some (blocks 2 ++ corner ++ blanks 5)
  | 77%N => Some (blocks 3 ++ corner ++ blanks 3 ++ blocks 3 ++ corner)
  | 78%N => Some (blocks 3 ++ corner ++ blanks 3 ++ blocks 2 ++ corner)
  | 79%N => Some (blanks 1 ++ blocks 6 ++ corner ++ blanks 1)
  | 80%N => Some (blocks 6 ++ corner ++ blanks 1)
  | 81%N => Some (blanks 1 ++ blocks 6 ++ corner ++ blanks 1)
  | 82%N => Some (blocks 6 ++ corner ++ blanks 1)
  | 83%N => Some (blanks 1 ++ blocks 7 ++ corner)
  | 84%N => Some (blocks 8 ++ corner)
  | 85%N => Some (blocks 2 ++ corner ++ blanks 3 ++ blocks 2 ++ corner)
  | 86%N => Some (blocks 2 ++ corner ++ blanks 3 ++ blocks 2 ++ corner)
  | 87%N => Some (blocks 2 ++ corner ++ blanks 4 ++ blocks 2 ++ corner ++ blocks 2 ++ corner)
  | 88%N => Some (blocks 2 ++ corner ++ blanks 2 ++ blocks 2 ++ corner)
  | 89%N => Some (blocks 2 ++ corner ++ blanks 3 ++ blocks 2 ++ corner)
  | 90%N => Some (blocks 7 ++ corner)
  | 32%N => Some (blanks 3)
  | 48%N => Some (blanks 1 ++ blocks 6 ++ corner ++ blanks 1)
  | 49%N => Some (blanks 1 ++ blocks 2 ++ corner)
  | 50%N => Some (blocks 6 ++ corner ++ blanks 1)
  | 51%N => Some (blocks 6 ++ corner ++ blanks 1)
  | 52%N => Some (blocks 2 ++ corner ++ blanks 2 ++ blocks 2 ++ corner)
  | 53%N => Some (blocks 7 ++ corner)
  | 54%N => Some (blanks 1 ++ blocks 6 ++ corner ++ blanks 1)
  | 55%N => Some (blocks 7 ++ corner)
  | 56%N => Some (blanks 1 ++ blocks 5 ++ corner ++ blanks 1)
  | 57%N => Some (blanks 1 ++ blocks 6 ++ corner ++ blanks 1)
  | 33%N => Some (blocks 2 ++ corner)
  | 63%N => Some (blanks 1 ++ blocks 6 ++ corner)
  | 46%N => Some (blanks 4)
  | 44%N => Some (blanks 4)
  | 58%N => Some (blanks 4)
  | 59%N => Some (blanks 4)
  | 45%N => Some (blanks 7)
  | 95%N => Some (blanks 7)
  | _ => None
  end.

(** [fonts.get(font, fonts["simple"])] *)
Definition selected_font (font : str) : N -> option str :=
  if bool_decide (font = lit "simple") then simple_font else simple_font.

(** The glyph a turn of the inner loop appends:
    [selected_font[char]], or [selected_font.get(' ', "   ")]. *)
Definition glyph (font : N -> option str) (char : N) : str :=
  match font char with
  | Some g => g
  | None => default (lit "   ") (font 32%N)
  end.

(** [for i in range(3): lines[i] += ...], from line [i] on. *)
Fixpoint append_glyph (font : N -> option str) (char : N) (i : nat) (todo : nat)
         (lines : list str) : list str :=
  match todo with
  | O => lines
  | S todo' =>
      append_glyph font char (S i) todo' (alter (fun l => l ++ glyph font char) i lines)
  end.

(** [banner]; [upper] stands for [str.upper]. *)
Definition banner (upper : str -> str) (text font color : str) (width : option Z)
  : str :=
  let lines :=
    fold_left (fun lines char => append_glyph (selected_font font) char 0 3 lines)
              (upper text) (repeat [] 3) in
  join [10%N] (map (fun line => color ++ line ++ Color.RESET) lines).

End ArtService.

(** ** Quick access functions *)

Definition red (text : str) : str := Color.RED ++ text ++ Color.RESET.
Definition green (text : str) : str := Color.GREEN ++ text ++ Color.RESET.
Definition blue (text : str) : str := Color.BLUE ++ text ++ Color.RESET.
Definition yellow (text : str) : str := Color.YELLOW ++ text ++ Color.RESET.
Definition cyan (text : str) : str := Color.CYAN ++ text ++ Color.RESET.
Definition magenta (text : str) : str := Color.MAGENTA ++ text ++ Color.RESET.
Definition bold (text : str) : str := Color.BOLD ++ text ++ Color.RESET.
Definition underline (text : str) : str := Color.UNDERLINE ++ text ++ Color.RESET.

(** ** [class ConsoleUtils]

    The methods that write to the terminal or pause; [clear] and
    [get_size] ask the operating system and are left out. *)

Module ConsoleUtils.

Definition wait `{Sleeping} (seconds : float) : printing unit :=
  lift (sleep seconds).

Definition hide_cursor : printing unit := write (ANSIColor.ESC :: lit "[?25l").

Definition show_cursor : printing unit := write (ANSIColor.ESC :: lit "[?25h").

Definition move_cursor (x y : Z) : printing unit :=
  write (ANSIColor.ESC :: lit "[" ++ str_of_int y ++ lit ";" ++ str_of_int x
                       ++ lit "H").

Definition save_position : printing unit := write (ANSIColor.ESC :: lit "[s").

Definition restore_position : printing unit := write (ANSIColor.ESC :: lit "[u").

End ConsoleUtils.

(** ** [class GlitchPrinterService] *)

(** The generator behind [random.choice]: the index below [n] it gives at
    the [draw]-th draw of a run is taken as given. *)
Class Random : Type := {
  randbelow : nat -> nat -> nat;
  randbelow_lt : forall draw n, (0 < n)%nat -> (randbelow draw n < n)%nat
}.

(** [random.choice(seq)] at the [draw]-th draw: [IndexError] for an empty
    sequence. *)
Definition choice `{Random} (draw : nat) (seq : str) : result N :=
  match seq with
  | [] => raise IndexError
  | _ => index seq (randbelow draw (length seq))
  end.

Module GlitchPrinterService.

Record t : Type := { glitch_chars : str }.

Definition __init__ : t :=
  {| glitch_chars := lit "!@#$%^&*()_+-=[]{}|;:,.<>?/\~`" |}.

Definition clear_line (self : t) (length : Z) : printing unit :=
  do blanks <- lift (str_times (lit " ") length);
  write ([13%N] ++ blanks ++ [13%N]).

(** The loop over [j] that builds [line], from position [j] on; [rest]
    is [text[j:]].  The result carries the number of draws made so far. *)
Fixpoint glitch_from `{Random} (self : t) (i j : nat) (rest : str) (draw : nat)
  : result (str * nat) :=
  match rest with
  | [] => ret ([], draw)
  | c :: rest' =>
      let* (g, draw1) :=
        if (j <? i)%nat then ret (c, draw)
        else if (c =? 32)%N then ret (32%N, draw)
        else let* g := choice draw (glitch_chars self) in ret (g, S draw) in
      let* (line, draw2) := glitch_from self i (S j) rest' draw1 in
      ret (g :: line, draw2)
  end.

(** The loop over [range(iterations)] for one [i], [todo] turns left. *)
Fixpoint glitch_frames `{Random} `{Sleeping} (self : t) (text : str) (delay : float)
         (iterations : Z) (i : nat) (todo : nat) (draw : nat) : printing nat :=
  match todo with
  | O => pure draw
  | S todo' =>
      do (line, draw1) <- lift (glitch_from self i 0 text draw);
      write ([13%N] ++ line);;
      do pause <- lift (let* n := PyFloat.of_int iterations in PyFloat.fdiv delay n);
      lift (sleep pause);;
      glitch_frames self text delay iterations i todo' draw1
  end.

(** The loop over [i]. *)
Fixpoint glitch_steps `{Random} `{Sleeping} (self : t) (text : str) (delay : float)
         (iterations : Z) (steps : list nat) (draw : nat) : printing nat :=
  match steps with
  | [] => pure draw
  | i :: steps' =>
      do draw1 <- glitch_frames self text delay iterations i (Z.to_nat iterations) draw;
      glitch_steps self text delay iterations steps' draw1
  end.

(** [print_glitch_line], from the [draw]-th draw of the generator on; the
    result is the number of draws made when it returns. *)
Definition print_glitch_line `{Random} `{Sleeping} (self : t) (text : str)
           (delay : float) (iterations : Z) (draw : nat) : printing nat :=
  do draw1 <- glitch_steps self text delay iterations (seq 0 (S (length text))) draw;
  write ([13%N] ++ text ++ [10%N]);;
  pure draw1.

End GlitchPrinterService.

(** * Vocabulary of the statements *)

(** A style token: one escape sequence [ESC [ params m], or several in a
    row ([Color.CYAN + Color.BOLD]). *)
Inductive style_token : str -> Prop :=
| style_one params :
    forallb Color.is_param params = true ->
    style_token (ANSIColor.ESC :: 91%N :: params ++ [109%N])
| style_app t1 t2 :
    style_token t1 -> style_token t2 -> style_token (t1 ++ t2).

(** Text in which [strip_colors] finds nothing to remove. *)
Definition escape_free (s : str) : Prop := Color.strip_colors s = s.

(** A character that can continue an unfinished escape sequence. *)
Definition continues_escape (c : N) : bool :=
  ((c =? 91) || Color.is_param c || (c =? 109))%N.

(** What may follow a piece of text without changing what the pattern
    finds inside it: nothing, or a character that cannot continue an
    escape sequence. *)
Definition separates (rest : str) : Prop :=
  match rest with
  | [] => True
  | c :: _ => continues_escape c = false
  end.

(** Hexadecimal digits and their values, as [int(s, 16)] reads them. *)
Definition hexdigit (c : N) : bool :=
  match PyInt.digit c with
  | Some _ => true
  | None => false
  end.

Definition hex_value (c : N) : Z := default 0 (PyInt.digit c).

Definition hex_byte (hi lo : N) : Z := 16 * hex_value hi + hex_value lo.

(** The hexadecimal digits, in code point order. *)
Definition hex_digits : list N :=
  map N.of_nat (seq 48 10 ++ seq 65 6 ++ seq 97 6).

(** A character that can stand in a two-character numeral at all: white
    space, a sign or a hexadecimal digit, after the mapping to ASCII. *)
Definition numeral_char `{UnicodeData} (c : N) : bool :=
  let a := PyInt.to_ascii c in
  PyInt.isspace a || (a =? 43)%N || (a =? 45)%N || hexdigit a.

(** An ASCII character that no two-character numeral can hold. *)
Definition foreign (a : N) : Prop :=
  (PyInt.isspace a || (a =? 43)%N || (a =? 45)%N || hexdigit a) = false.

(** What [int(s, 16)] makes of a slice of one or two characters, already
    mapped to ASCII: two hexadecimal digits are a byte; one digit stands
    alone, after white space or a sign, or before white space; nothing
    else is a numeral. *)
Definition byte_of (s : str) : option Z :=
  match s with
  | [a] => PyInt.digit a
  | [a; b] =>
      match PyInt.digit a, PyInt.digit b with
      | Some x, Some y => Some (16 * x + y)
      | Some x, None => if PyInt.isspace b then Some x else None
      | None, Some y =>
          if PyInt.isspace a || (a =? 43)%N then Some y
          else if (a =? 45)%N then Some (- y)
          else None
      | None, None => None
      end
  | _ => None
  end.

Definition numeral `{UnicodeData} (s : str) : option Z :=
  byte_of (map PyInt.to_ascii s).

(** The three slices [hex_to_rgb] reads, as numerals: the characters after
    the leading [#]s, each doubled when there are three, cut at [0:2],
    [2:4] and [4:6]. *)
Definition three_bytes `{UnicodeData} (h : str) : option (Z * Z * Z) :=
  let s := Color.lstrip_hash h in
  let u := if len s =? 3 then Color.double_chars s else s in
  match numeral (Color.slice2 u 0), numeral (Color.slice2 u 2),
        numeral (Color.slice2 u 4) with
  | Some r, Some g, Some b => Some (r, g, b)
  | _, _, _ => None
  end.

(** The outcome of a conversion is the numeral, or [ValueError]. *)
Definition outcome_is (r : result Z) (o : option Z) : bool :=
  match r, o with
  | inr v, Some w => v =? w
  | inl ValueError, None => true
  | _, _ => false
  end.





(** One call of [update]: the reading of the clock when it is made, the
    [value] and the [increment] passed. *)
Definition call : Type := float * option Z * Z.

(** The objects a sequence of [update] calls goes through. *)
Fixpoint run `{FloatFormat} (self : ProgressBar.t) (calls : list call)
  : list ProgressBar.t :=
  match calls with
  | [] => []
  | (now, value, increment) :: calls' =>
      let self' := fst (ProgressBar.update now self value increment) in
      self' :: run self' calls'
  end.

(** A call that passes no value and does not step backward. *)
Definition stepwise (c : call) : Prop :=
  let '(_, value, increment) := c in value = None /\ 0 <= increment.

(** A formatter that prints no digit, for examples in which the digits do
    not matter. *)
Definition bare_format : FloatFormat :=
  {| format_1f := fun _ => []; format_0f := fun _ => [] |}.

(** Each number is at least the one before it. *)
Fixpoint ascending (prev : Z) (l : list Z) : Prop :=
  match l with
  | [] => True
  | x :: l' => prev <= x /\ ascending x l'
  end.

(** [" " * n] *)
Definition spaces (n : Z) : str := str_mul (lit " ") n.

(** Tables used as examples: one column whose only cell carries its own
    colour, and two columns with a row of three cells or of one. *)
Definition coloured_cell : str := ANSIColor.RED ++ lit "ok" ++ Color.RESET.

Definition coloured_table : TablePrinter.t :=
  TablePrinter.add_row
    (TablePrinter.__init__ [lit "Name"] [] 1 (lit "simple") [] false [])
    [TablePrinter.CStr coloured_cell].

(** A table of one column whose only cell is a text between a style token
    and the reset. *)
Definition painted_table (header align tok text : str) (padding : Z)
           (border_style header_color : str) : TablePrinter.t :=
  TablePrinter.add_row
    (TablePrinter.__init__ [header] [align] padding border_style header_color false [])
    [TablePrinter.CStr (tok ++ text ++ Color.RESET)].

Definition two_columns : TablePrinter.t :=
  TablePrinter.__init__ [lit "ID"; lit "Name"] [] 1 (lit "simple") [] false [].

Definition long_row_table : TablePrinter.t :=
  TablePrinter.add_row two_columns
    [TablePrinter.CInt 1; TablePrinter.CStr (lit "Alice"); TablePrinter.CStr (lit "x")].

Definition short_row_table : TablePrinter.t :=
  TablePrinter.add_row two_columns [TablePrinter.CInt 1].

(** A colour argument: nothing, or a style token. *)
Definition colour (c : str) : Prop := c = [] \/ style_token c.

(** A count the interpreter accepts for [s * n]: one that fits the index
    size and gives a string no longer than the largest index. *)
Definition repeats (s : str) (n : Z) : Prop :=
  - PY_SSIZE_T_MAX - 1 <= n <= PY_SSIZE_T_MAX
  /\ len s * Z.max 0 n <= PY_SSIZE_T_MAX.

(** Text without the escape character. *)
Definition no_escape (s : str) : Prop := Forall (fun c => c <> ANSIColor.ESC) s.

(** ** Vocabulary of the further properties *)

(** What the loop appends for a character: the character alone when it
    is a blank, else a colour of the palette and the character. *)
Definition piece_of (colors : list str) (ch : N) (piece : str) : Prop :=
  (ch = 32%N /\ piece = [ch]) \/ (exists c, In c colors /\ piece = c ++ [ch]).

(** Text whose first character is not a bracket. *)
Definition no_bracket_first (rest : str) : Prop :=
  match rest with
  | [] => True
  | c :: _ => c <> 91%N
  end.

(** What the [k]-th chunk of a countdown shows. *)
Definition countdown_text (seconds : Z) (message : str) (k : nat) : str :=
  [13%N] ++ message ++ lit ": " ++ str_of_int (seconds - Z.of_nat k) ++ lit " sec.   ".

(** The eight quick colour functions. *)
Definition quick_colours : list (str -> str) :=
  [red; green; blue; yellow; cyan; magenta; bold; underline].

(** [f1(f2(... fn(text)))] *)
Definition nest (fs : list (str -> str)) (text : str) : str :=
  fold_right (fun f t => f t) text fs.


(** The optional argument that wins when two calls follow each other. *)
Definition later {A} (second first : option A) : option A :=
  match second with
  | Some _ => second
  | None => first
  end.

(** The sum of the increments of a sequence of calls. *)
Definition increments (calls : list call) : Z :=
  fold_right (fun c acc => snd c + acc) 0 calls.

(** The object a sequence of [update] calls leaves. *)
Definition final `{FloatFormat} (self : ProgressBar.t) (calls : list call)
  : ProgressBar.t :=
  List.last (run self calls) self.

(** The number of rule lines a border prints: top, separator, bottom. *)
Definition rules (b : TablePrinter.border) : nat :=
  ((if truthy (TablePrinter.top_left b) then 1 else 0)
   + (if truthy (TablePrinter.left_cross b) then 1 else 0)
   + (if truthy (TablePrinter.bottom_left b) then 1 else 0))%nat.

(** A table every line of which can be formatted: an alignment for every
    header, and no row longer than the headers. *)
Definition fits (self : TablePrinter.t) : Prop :=
  (length (TablePrinter.headers self) <= length (TablePrinter.column_align self))%nat
  /\ Forall (fun row => (length row <= length (TablePrinter.headers self))%nat)
            (TablePrinter.rows self).

(** The width of a header or row line on the screen: the start of the
    line, then each column with the vertical glyph behind it. *)
Definition line_width (b : TablePrinter.border) (widths : list Z) : Z :=
  len (TablePrinter.line_start b)
  + fold_right (fun w acc => w + len (TablePrinter.vertical b) + acc) 0 widths.

(** A table with one full row. *)
Definition full_row_table : TablePrinter.t :=
  TablePrinter.add_row two_columns
    [TablePrinter.CInt 1; TablePrinter.CStr (lit "Alice")].

(** A line holds no line feed. *)
Definition one_line (l : str) : Prop := ~ In 10%N l.

(** The glyphs of a text, one after the other. *)
Definition glyphs (text : str) : str :=
  concat (map (ArtService.glyph ArtService.simple_font) text).

(** A sleep that refuses a negative duration and a NaN, for examples. *)
Definition checked_sleep : Sleeping :=
  {| sleep := fun d => if PrimFloat.leb 0%float d then ret tt else raise ValueError |}.

(** The pause [typing_effect] makes after a character. *)
Definition pause_after (speed : float) (pause_chars : str) (pause_duration : float)
           (char : N) : float :=
  if AnimationService.is_pause_char pause_chars char then pause_duration else speed.

(** The frame a spinner shows at its [k]-th turn from now. *)
Definition frame_at (self : Spinner.t) (k : nat) : option str :=
  Spinner.frames self
    !! Z.to_nat ((Spinner._current_frame self + Z.of_nat k) mod len (Spinner.frames self)).




(** What a glitch line may show at progress [i], from position [j] on:
    the character of the text below [i], a blank for a blank of the text,
    and one of the glitch characters elsewhere. *)
Fixpoint glitched (chars : str) (i j : nat) (text line : str) : Prop :=
  match text, line with
  | [], [] => True
  | c :: text', g :: line' =>
      (if (j <? i)%nat then g = c
       else if (c =? 32)%N then g = 32%N
       else In g chars)
      /\ glitched chars i (S j) text' line'
  | _, _ => False
  end.

(** The frames written for one progress [i]: [todo] chunks, each a
    carriage return and a glitch line. *)
Definition glitch_group (chars : str) (text : str) (todo : nat) (i : nat)
           (group : list str) : Prop :=
  length group = todo
  /\ Forall (fun chunk => exists line,
                 chunk = [13%N] ++ line /\ glitched chars i 0 text line) group.

(** A generator that always draws the first item, for examples. *)
Definition first_item : Random :=
  {| randbelow := fun _ _ => 0%nat; randbelow_lt := fun _ _ H => H |}.

(** The sum of the column widths. *)
Definition total_width (widths : list Z) : Z := fold_right Z.add 0 widths.

(** * Properties *)

(** ** Repetition *)


Lemma str_times_repeats s n : repeats s n -> str_times s n = ret (str_mul s n).
Proof.
  intros [[Hlo Hhi] Hlen]. unfold str_times.
  replace (n <? - PY_SSIZE_T_MAX - 1) with false by (symmetry; apply Z.ltb_ge; lia).
  replace (PY_SSIZE_T_MAX <? n) with false by (symmetry; apply Z.ltb_ge; lia).
  now replace (PY_SSIZE_T_MAX <? len s * Z.max 0 n) with false
    by (symmetry; apply Z.ltb_ge; lia).
Qed.

Lemma str_times_refused s n : ~ repeats s n -> str_times s n = raise OverflowError.
Proof.
  intros Hn. unfold str_times.
  destruct (n <? - PY_SSIZE_T_MAX - 1) eqn:E1; [reflexivity|].
  destruct (PY_SSIZE_T_MAX <? n) eqn:E2; [reflexivity|].
  destruct (PY_SSIZE_T_MAX <? len s * Z.max 0 n) eqn:E3; [reflexivity|].
  apply Z.ltb_ge in E1, E2, E3. exfalso. apply Hn. unfold repeats. lia.
Qed.

Lemma repeats_dec s n : repeats s n \/ ~ repeats s n.
Proof.
  unfold repeats.
  destruct (Z_le_dec (- PY_SSIZE_T_MAX - 1) n); [|right; lia].
  destruct (Z_le_dec n PY_SSIZE_T_MAX); [|right; lia].
  destruct (Z_le_dec (len s * Z.max 0 n) PY_SSIZE_T_MAX); [left|right]; lia.
Qed.

Lemma str_times_inv s n x : str_times s n = ret x -> repeats s n /\ x = str_mul s n.
Proof.
  intros H. destruct (repeats_dec s n) as [Hr|Hr].
  - rewrite (str_times_repeats s n Hr) in H. injection H as <-. now split.
  - rewrite (str_times_refused s n Hr) in H. discriminate.
Qed.

Lemma str_times_error s n e : str_times s n = inl e -> e = OverflowError.
Proof.
  unfold str_times. destruct (_ || _); [now intros [= <-]|discriminate].
Qed.


(** ** [strip_colors] *)

Section Strip.

Import Color.

Lemma match_params_shorter t r :
  match_params t = Some r -> (length r < length t)%nat.
Proof.
  revert r. induction t as [|x t IH]; intros r Hr; [discriminate|].
  cbn in Hr. destruct (is_param x).
  - apply IH in Hr. cbn. lia.
  - destruct (x =? 109)%N; [|discriminate].
    injection Hr as <-. cbn. lia.
Qed.

Lemma match_sgr_shorter t r :
  match_sgr t = Some r -> (length r < length t)%nat.
Proof.
  destruct t as [|e [|b t]]; try discriminate.
  cbn. destruct ((e =? ANSIColor.ESC) && (b =? 91))%N; [|discriminate].
  intros Hr%match_params_shorter. lia.
Qed.

(** The defining equation of [strip_colors], in one piece. *)
Lemma strip_colors_unfold text :
  strip_colors text =
  match text with
  | [] => []
  | c :: rest =>
      match match_sgr text with
      | Some after => strip_colors after
      | None => c :: strip_colors rest
      end
  end.
Proof.
  funelim (strip_colors text).
  - reflexivity.
  - rewrite e. reflexivity.
  - rewrite e. reflexivity.
Qed.

Lemma strip_colors_nil : strip_colors [] = [].
Proof. now rewrite strip_colors_unfold. Qed.

Lemma match_params_app t rest :
  separates rest ->
  match_params (t ++ rest) = option_map (fun a => a ++ rest) (match_params t).
Proof.
  intros Hsep. induction t as [|x t IH]; cbn.
  - destruct rest as [|c rest]; [reflexivity|].
    cbn in *. unfold continues_escape in Hsep.
    apply orb_false_elim in Hsep as [Hsep Hm].
    apply orb_false_elim in Hsep as [_ Hp].
    now rewrite Hp, Hm.
  - destruct (is_param x); [exact IH|].
    now destruct (x =? 109)%N.
Qed.

Lemma match_sgr_app c t rest :
  separates rest ->
  match_sgr ((c :: t) ++ rest)
  = option_map (fun a => a ++ rest) (match_sgr (c :: t)).
Proof.
  intros Hsep. destruct t as [|b t]; cbn.
  - destruct rest as [|b rest]; [reflexivity|].
    cbn in Hsep. unfold continues_escape in Hsep.
    apply orb_false_elim in Hsep as [Hsep _].
    apply orb_false_elim in Hsep as [Hb _].
    now rewrite Hb, andb_false_r.
  - destruct ((c =? ANSIColor.ESC) && (b =? 91))%N; [|reflexivity].
    now apply match_params_app.
Qed.

(** Stripping distributes over a concatenation whose right part cannot
    complete an escape sequence left open by the left part. *)
Lemma strip_colors_app s rest :
  separates rest ->
  strip_colors (s ++ rest) = strip_colors s ++ strip_colors rest.
Proof.
  intros Hsep.
  remember (length s) as n eqn:Hn.
  revert s Hn. induction n as [n IH] using lt_wf_ind. intros s ->.
  destruct s as [|c s].
  - now rewrite strip_colors_nil.
  - rewrite (strip_colors_unfold ((c :: s) ++ rest)).
    rewrite (strip_colors_unfold (c :: s)).
    rewrite match_sgr_app by assumption.
    change ((c :: s) ++ rest) with (c :: (s ++ rest)).
    destruct (match_sgr (c :: s)) as [after|] eqn:Hm; cbn [option_map].
    + apply match_sgr_shorter in Hm.
      now apply (IH (length after)).
    + cbn [app]. f_equal. apply (IH (length s)); [cbn; lia|reflexivity].
Qed.

Lemma match_params_token params rest :
  forallb is_param params = true ->
  match_params (params ++ 109%N :: rest) = Some rest.
Proof.
  induction params as [|x params IH]; cbn; [reflexivity|].
  intros [Hx Hps]%andb_prop. rewrite Hx. now apply IH.
Qed.

(** A style token in front of a text leaves no trace. *)
Lemma strip_colors_token tok rest :
  style_token tok -> strip_colors (tok ++ rest) = strip_colors rest.
Proof.
  intros Htok. revert rest.
  induction Htok as [params Hps|t1 t2 _ IH1 _ IH2]; intros rest.
  - rewrite strip_colors_unfold. cbn.
    rewrite <- app_assoc. cbn.
    now rewrite match_params_token.
  - now rewrite <- app_assoc, IH1, IH2.
Qed.

(** Text without the escape character is left alone. *)
Lemma strip_colors_plain a rest :
  Forall (fun c => c <> ANSIColor.ESC) a ->
  strip_colors (a ++ rest) = a ++ strip_colors rest.
Proof.
  induction 1 as [|c a Hc _ IH]; [reflexivity|].
  rewrite strip_colors_unfold. cbn.
  destruct (a ++ rest) as [|b t] eqn:Hab.
  - now rewrite <- IH, strip_colors_nil.
  - apply N.eqb_neq in Hc. rewrite Hc. cbn. now rewrite <- IH.
Qed.

Lemma plain_escape_free a :
  Forall (fun c => c <> ANSIColor.ESC) a -> escape_free a.
Proof.
  intros Ha. unfold escape_free.
  rewrite <- (app_nil_r a) at 1.
  now rewrite strip_colors_plain, strip_colors_nil, app_nil_r.
Qed.

Lemma reset_is_token : style_token RESET.
Proof. now apply (style_one [48%N]). Qed.

Lemma strip_colors_reset : strip_colors RESET = [].
Proof. reflexivity. Qed.

End Strip.

(** Whatever [s] is, the token in front and the reset behind go, and what
    is left is [s] stripped. *)
Lemma strip_colors_wrapped tok s :
  style_token tok ->
  Color.strip_colors (tok ++ s ++ Color.RESET) = Color.strip_colors s.
Proof.
  intros Htok.
  rewrite strip_colors_token by assumption.
  rewrite strip_colors_app by reflexivity.
  now rewrite strip_colors_reset, app_nil_r.
Qed.

(** C7, as the code has it: whatever [s] is, a style token in front and
    the reset token behind are stripped and what comes back is [s]
    stripped.  That is [s] for every [s] without the escape character,
    and more generally exactly for the strings that hold no escape
    sequence of their own ([strip_colors s = s]). *)
Theorem strip_colors_styled (tok s : str) :
  style_token tok ->
  Color.strip_colors (tok ++ s ++ Color.RESET) = Color.strip_colors s
  /\ (no_escape s -> Color.strip_colors (tok ++ s ++ Color.RESET) = s)
  /\ (escape_free s <-> Color.strip_colors (tok ++ s ++ Color.RESET) = s).
Proof.
  intros Htok. rewrite strip_colors_wrapped by assumption.
  split; [reflexivity|]. split; [|reflexivity].
  intros Hs. now apply plain_escape_free.
Qed.

Lemma strip_colors_styled_witness :
  Color.strip_colors (ANSIColor.RED ++ lit "ab" ++ Color.RESET) = lit "ab"
  /\ Color.strip_colors (ANSIColor.RED ++ (Color.BOLD ++ lit "x") ++ Color.RESET)
     = Color.strip_colors (Color.BOLD ++ lit "x").
Proof.
  split.
  - apply (strip_colors_styled ANSIColor.RED (lit "ab")).
    + now apply (style_one (lit "31")).
    + repeat constructor; discriminate.
  - apply (strip_colors_styled ANSIColor.RED (Color.BOLD ++ lit "x")).
    now apply (style_one (lit "31")).
Defined.

(** C7 as stated fails on a string that carries an escape sequence itself:
    the sequence inside [s] is removed with the others. *)
Lemma strip_colors_styled_counterexample :
  Color.strip_colors (Color.CYAN ++ (Color.BOLD ++ lit "x") ++ Color.RESET)
  <> Color.BOLD ++ lit "x".
Proof. vm_compute. discriminate. Qed.

(** ** [int(s, 16)] and [hex_to_rgb] *)

(** Every failure of the conversion is a [ValueError]. *)
Lemma from_ascii_error s e : PyInt.from_ascii s = inl e -> e = ValueError.
Proof.
  unfold PyInt.from_ascii.
  repeat case_match; intros; simplify_eq; try reflexivity; unfold raise, ret in *; congruence.
Qed.

Lemma foreign_inv a : foreign a ->
  PyInt.isspace a = false /\ (a =? 43)%N = false /\ (a =? 45)%N = false /\ PyInt.digit a = None.
Proof.
  unfold foreign, hexdigit. rewrite !orb_false_iff. intros (((?&?)&?)&?).
  repeat split; try assumption. now destruct (PyInt.digit a).
Qed.

Lemma from_ascii_foreign_fst x y : foreign x -> PyInt.from_ascii [x; y] = inl ValueError.
Proof.
  intros (Hs & Hp & Hm & Hd)%foreign_inv.
  unfold PyInt.from_ascii. cbn [PyInt.skip_space]. rewrite Hs.
  unfold PyInt.split_sign. rewrite Hp, Hm.
  unfold PyInt.skip_prefix.
  assert ((x =? 48)%N = false) as ->.
  { apply N.eqb_neq. intros ->. discriminate. }
  cbn [andb PyInt.starts_with_underscore].
  destruct (x =? PyInt.underscore)%N eqn:Hu; [reflexivity|].
  cbn [PyInt.scan]. rewrite Hu, Hd. reflexivity.
Qed.

Lemma from_ascii_foreign_snd x y : foreign y -> PyInt.from_ascii [x; y] = inl ValueError.
Proof.
  intros (Hs & Hp & Hm & Hd)%foreign_inv.
  assert (H48 : (y =? 48)%N = false).
  { apply N.eqb_neq. intros ->. discriminate. }
  unfold PyInt.from_ascii. cbn [PyInt.skip_space].
  destruct (PyInt.isspace x) eqn:Hsx.
  - rewrite Hs. unfold PyInt.split_sign. rewrite Hp, Hm.
    cbn [PyInt.skip_prefix PyInt.starts_with_underscore].
    destruct (y =? PyInt.underscore)%N eqn:Hu; [reflexivity|].
    cbn [PyInt.scan]. rewrite Hu, Hd. reflexivity.
  - unfold PyInt.split_sign.
    destruct (x =? 43)%N eqn:Hxp; [|destruct (x =? 45)%N eqn:Hxm].
    + cbn [PyInt.skip_prefix PyInt.starts_with_underscore].
      destruct (y =? PyInt.underscore)%N eqn:Hu; [reflexivity|].
      cbn [PyInt.scan]. rewrite Hu, Hd. reflexivity.
    + cbn [PyInt.skip_prefix PyInt.starts_with_underscore].
      destruct (y =? PyInt.underscore)%N eqn:Hu; [reflexivity|].
      cbn [PyInt.scan]. rewrite Hu, Hd. reflexivity.
    + unfold PyInt.skip_prefix.
      destruct ((x =? 48) && ((y =? 120) || (y =? 88)))%N eqn:Hpre.
      * reflexivity.
      * cbn [PyInt.starts_with_underscore].
        destruct (x =? PyInt.underscore)%N eqn:Hux; [reflexivity|].
        cbn [PyInt.scan]. rewrite Hux.
        destruct (PyInt.digit x) as [vx|] eqn:Hdx.
        -- destruct (y =? PyInt.underscore)%N eqn:Hu.
           ++ reflexivity.
           ++ rewrite ?Hd, ?Hux. cbn [PyInt.skip_space]. rewrite ?Hs. reflexivity.
        -- reflexivity.
Qed.

(** [int(s, 16)] on a slice of at most two characters, in full. *)
Lemma outcome_is_eq r o :
  outcome_is r o = true ->
  r = match o with Some v => ret v | None => raise ValueError end.
Proof.
  destruct r as [[]|v], o as [w|]; try discriminate; try reflexivity.
  cbn. intros ->%Z.eqb_eq. reflexivity.
Qed.

Lemma ascii_listed a : (a < 128)%N -> In a (map N.of_nat (seq 0 128)).
Proof.
  intros Ha. apply in_map_iff. exists (N.to_nat a). split; [lia|].
  apply in_seq. lia.
Qed.

Lemma large_foreign a : (128 <= a)%N -> foreign a.
Proof.
  intros Ha. unfold foreign, hexdigit, PyInt.isspace, PyInt.digit.
  replace (a <=? 13)%N with false by (symmetry; apply N.leb_gt; lia).
  replace (a =? 32)%N with false by (symmetry; apply N.eqb_neq; lia).
  replace (a =? 43)%N with false by (symmetry; apply N.eqb_neq; lia).
  replace (a =? 45)%N with false by (symmetry; apply N.eqb_neq; lia).
  replace (a <=? 57)%N with false by (symmetry; apply N.leb_gt; lia).
  replace (a <=? 102)%N with false by (symmetry; apply N.leb_gt; lia).
  replace (a <=? 70)%N with false by (symmetry; apply N.leb_gt; lia).
  now rewrite !andb_false_r.
Qed.

Lemma from_ascii_foreign_one x : foreign x -> PyInt.from_ascii [x] = inl ValueError.
Proof.
  intros (Hs & Hp & Hm & Hd)%foreign_inv.
  unfold PyInt.from_ascii. cbn [PyInt.skip_space]. rewrite Hs.
  unfold PyInt.split_sign. rewrite Hp, Hm.
  cbn [PyInt.skip_prefix PyInt.starts_with_underscore].
  destruct (x =? PyInt.underscore)%N eqn:Hu; [reflexivity|].
  cbn [PyInt.scan]. rewrite Hu, Hd. reflexivity.
Qed.

Lemma from_ascii_one a :
  PyInt.from_ascii [a]
  = match byte_of [a] with Some v => ret v | None => raise ValueError end.
Proof.
  destruct (N.lt_ge_cases a 128) as [Ha|Ha].
  - assert (Hall : forallb (fun a => outcome_is (PyInt.from_ascii [a]) (byte_of [a]))
                           (map N.of_nat (seq 0 128)) = true)
      by (vm_compute; reflexivity).
    rewrite forallb_forall in Hall. apply outcome_is_eq, Hall, ascii_listed, Ha.
  - pose proof (large_foreign a Ha) as Hf.
    rewrite (from_ascii_foreign_one a Hf).
    apply foreign_inv in Hf as (_ & _ & _ & Hd). cbn [byte_of]. now rewrite Hd.
Qed.

Lemma from_ascii_two a b :
  PyInt.from_ascii [a; b]
  = match byte_of [a; b] with Some v => ret v | None => raise ValueError end.
Proof.
  destruct (N.lt_ge_cases b 128) as [Hb|Hb].
  - destruct (N.lt_ge_cases a 128) as [Ha|Ha].
    + assert (Hall : forallb (fun a =>
                         forallb (fun b => outcome_is (PyInt.from_ascii [a; b])
                                                      (byte_of [a; b]))
                                 (map N.of_nat (seq 0 128)))
                       (map N.of_nat (seq 0 128)) = true)
        by (vm_compute; reflexivity).
      rewrite forallb_forall in Hall. specialize (Hall a (ascii_listed a Ha)).
      rewrite forallb_forall in Hall. apply outcome_is_eq, Hall, ascii_listed, Hb.
    + pose proof (large_foreign a Ha) as Hf.
      rewrite (from_ascii_foreign_fst a b Hf).
      apply foreign_inv in Hf as (Hs & Hp & Hm & Hd). cbn [byte_of].
      rewrite Hd, Hs, Hp, Hm. now destruct (PyInt.digit b).
  - pose proof (large_foreign b Hb) as Hf.
    rewrite (from_ascii_foreign_snd a b Hf).
    apply foreign_inv in Hf as (Hs & Hp & Hm & Hd). cbn [byte_of].
    rewrite Hd, Hs. now destruct (PyInt.digit a).
Qed.

Section Hex.

Context {U : UnicodeData}.
Import Color.

Lemma int16_slice u i :
  PyInt.int16 (slice2 u i)
  = match numeral (slice2 u i) with Some v => ret v | None => raise ValueError end.
Proof.
  unfold PyInt.int16, numeral, slice2.
  destruct (skipn i u) as [|a [|b r]]; cbn [firstn take map].
  - reflexivity.
  - apply from_ascii_one.
  - apply from_ascii_two.
Qed.

(** [hex_to_rgb] returns the three numerals, or raises [ValueError] when
    one of the slices is none. *)
Lemma hex_to_rgb_bytes h :
  hex_to_rgb h
  = match three_bytes h with Some rgb => ret rgb | None => raise ValueError end.
Proof.
  unfold hex_to_rgb, three_bytes. cbv zeta. rewrite !int16_slice.
  destruct (numeral (slice2 _ 0)), (numeral (slice2 _ 2)), (numeral (slice2 _ 4));
    reflexivity.
Qed.

Lemma numeral_doubled c :
  numeral [c; c]
  = if hexdigit (PyInt.to_ascii c) then Some (hex_byte (PyInt.to_ascii c) (PyInt.to_ascii c))
    else None.
Proof.
  unfold numeral, hexdigit, hex_byte, hex_value. cbn [map byte_of].
  now destruct (PyInt.digit (PyInt.to_ascii c)).
Qed.

Lemma three_bytes_doubled h a b c :
  lstrip_hash h = [a; b; c] ->
  three_bytes h
  = if forallb (fun c => hexdigit (PyInt.to_ascii c)) [a; b; c]
    then Some (hex_byte (PyInt.to_ascii a) (PyInt.to_ascii a),
               hex_byte (PyInt.to_ascii b) (PyInt.to_ascii b),
               hex_byte (PyInt.to_ascii c) (PyInt.to_ascii c))
    else None.
Proof.
  intros E. unfold three_bytes. rewrite E. cbv zeta.
  change (len [a; b; c] =? 3) with true. cbv iota.
  unfold slice2, double_chars. cbn [flat_map app firstn skipn take drop].
  rewrite !numeral_doubled. cbn [forallb].
  destruct (hexdigit (PyInt.to_ascii a)), (hexdigit (PyInt.to_ascii b)),
    (hexdigit (PyInt.to_ascii c)); reflexivity.
Qed.

Lemma hexdigit_listed c : hexdigit c = true -> In c hex_digits.
Proof.
  unfold hexdigit, PyInt.digit. intros H.
  destruct ((48 <=? c) && (c <=? 57))%N eqn:E1.
  { apply andb_prop in E1 as [?%N.leb_le ?%N.leb_le].
    assert (Hc : (c = 48 \/ c = 49 \/ c = 50 \/ c = 51 \/ c = 52 \/ c = 53
                  \/ c = 54 \/ c = 55 \/ c = 56 \/ c = 57)%N) by lia.
    repeat destruct Hc as [-> | Hc]; try subst c; vm_compute; tauto. }
  destruct ((97 <=? c) && (c <=? 102))%N eqn:E2.
  { apply andb_prop in E2 as [?%N.leb_le ?%N.leb_le].
    assert (Hc : (c = 97 \/ c = 98 \/ c = 99 \/ c = 100 \/ c = 101 \/ c = 102)%N)
      by lia.
    repeat destruct Hc as [-> | Hc]; try subst c; vm_compute; tauto. }
  destruct ((65 <=? c) && (c <=? 70))%N eqn:E3; [|discriminate].
  apply andb_prop in E3 as [?%N.leb_le ?%N.leb_le].
  assert (Hc : (c = 65 \/ c = 66 \/ c = 67 \/ c = 68 \/ c = 69 \/ c = 70)%N)
    by lia.
  repeat destruct Hc as [-> | Hc]; try subst c; vm_compute; tauto.
Qed.

(** Two hexadecimal digits read as one byte. *)
Lemma int16_byte a b :
  hexdigit a = true -> hexdigit b = true ->
  PyInt.int16 [a; b] = ret (hex_byte a b).
Proof.
  intros Ha%hexdigit_listed Hb%hexdigit_listed.
  cbn in Ha, Hb.
  repeat (destruct Ha as [<- | Ha]; [|]); try contradiction;
    repeat (destruct Hb as [<- | Hb]; [|]); try contradiction; reflexivity.
Qed.

Lemma hexdigit_not_hash c : hexdigit c = true -> (c =? 35)%N = false.
Proof.
  intros Hc%hexdigit_listed. cbn in Hc.
  repeat (destruct Hc as [<- | Hc]; [reflexivity|]). contradiction.
Qed.

(** A leading [#] is dropped before anything else happens. *)
Lemma hex_to_rgb_hash h : hex_to_rgb (35%N :: h) = hex_to_rgb h.
Proof. reflexivity. Qed.

Lemma hex_to_rgb_six a b c d e f :
  forallb hexdigit [a; b; c; d; e; f] = true ->
  hex_to_rgb [a; b; c; d; e; f] = ret (hex_byte a b, hex_byte c d, hex_byte e f).
Proof.
  cbn [forallb]. rewrite !andb_true_iff.
  intros (Ha & Hb & Hc & Hd & He & Hf & _).
  unfold hex_to_rgb. cbn [lstrip_hash].
  rewrite (hexdigit_not_hash a Ha).
  change (len [a; b; c; d; e; f] =? 3) with false. cbn -[PyInt.int16].
  now rewrite !int16_byte.
Qed.

Lemma hex_to_rgb_three a b c :
  forallb hexdigit [a; b; c] = true ->
  hex_to_rgb [a; b; c] = ret (hex_byte a a, hex_byte b b, hex_byte c c).
Proof.
  cbn [forallb]. rewrite !andb_true_iff.
  intros (Ha & Hb & Hc & _).
  unfold hex_to_rgb. cbn [lstrip_hash].
  rewrite (hexdigit_not_hash a Ha).
  change (len [a; b; c] =? 3) with true. cbn -[PyInt.int16].
  now rewrite !int16_byte.
Qed.

Lemma int16_error s e : PyInt.int16 s = inl e -> e = ValueError.
Proof. apply from_ascii_error. Qed.

Lemma int16_foreign x y :
  numeral_char x = false \/ numeral_char y = false ->
  PyInt.int16 [x; y] = inl ValueError.
Proof.
  unfold PyInt.int16. cbn [map].
  intros [H|H].
  - now apply from_ascii_foreign_fst.
  - now apply from_ascii_foreign_snd.
Qed.

(** The three conversions of [hex_to_rgb] in a row: when one of them
    raises, the whole raises [ValueError]. *)
Lemma three_bytes_raise s0 s1 s2 :
  (exists e, PyInt.int16 s0 = inl e) \/ (exists e, PyInt.int16 s1 = inl e)
  \/ (exists e, PyInt.int16 s2 = inl e) ->
  (let* r := PyInt.int16 s0 in
   let* g := PyInt.int16 s1 in
   let* b := PyInt.int16 s2 in ret (r, g, b)) = inl ValueError.
Proof.
  intros H.
  destruct (PyInt.int16 s0) as [e0|r] eqn:E0.
  { now rewrite (int16_error _ _ E0). }
  destruct (PyInt.int16 s1) as [e1|g] eqn:E1.
  { now rewrite (int16_error _ _ E1). }
  destruct (PyInt.int16 s2) as [e2|b] eqn:E2.
  { now rewrite (int16_error _ _ E2). }
  destruct H as [[e H]|[[e H]|[e H]]]; discriminate.
Qed.

End Hex.

Lemma fg_hex_raises {U : UnicodeData} h e :
  Color.hex_to_rgb h = inl e -> Color.fg_hex h = inl e.
Proof. unfold Color.fg_hex. now intros ->. Qed.

Lemma hex_to_rgb_short {U : UnicodeData} (h : str) :
  (length (Color.lstrip_hash h) < 3 \/ length (Color.lstrip_hash h) = 4)%nat ->
  Color.hex_to_rgb h = inl ValueError.
Proof.
  unfold Color.hex_to_rgb.
  destruct (Color.lstrip_hash h) as [|a [|b [|c [|d [|e s]]]]]; cbn [length]; intros H;
    try lia.
  all: change (len _ =? 3) with false; unfold Color.slice2; cbn [firstn skipn take drop].
  all: apply three_bytes_raise; right; right; exists ValueError; reflexivity.
Qed.

Lemma hex_to_rgb_foreign {U : UnicodeData} (h : str) :
  (length (Color.lstrip_hash h) = 3 \/ length (Color.lstrip_hash h) = 6)%nat ->
  existsb (fun c => negb (numeral_char c)) (Color.lstrip_hash h) = true ->
  Color.hex_to_rgb h = inl ValueError.
Proof.
  unfold Color.hex_to_rgb.
  destruct (Color.lstrip_hash h) as [|a [|b [|c [|d [|e [|f [|g s]]]]]]]; cbn [length];
    intros H; try lia; clear H.
  - change (len _ =? 3) with true. unfold Color.slice2, Color.double_chars.
    cbn [flat_map app firstn skipn take drop existsb].
    rewrite !orb_true_iff, !negb_true_iff. intros [Ha|[Hb|[Hc|?]]]; [| | |discriminate].
    all: apply three_bytes_raise.
    + left. exists ValueError. apply int16_foreign. now left.
    + right; left. exists ValueError. apply int16_foreign. now left.
    + right; right. exists ValueError. apply int16_foreign. now left.
  - change (len _ =? 3) with false. unfold Color.slice2.
    cbn [firstn skipn take drop existsb].
    rewrite !orb_true_iff, !negb_true_iff.
    intros [Ha|[Hb|[Hc|[Hd|[He|[Hf|?]]]]]]; [| | | | | |discriminate].
    all: apply three_bytes_raise.
    + left. exists ValueError. apply int16_foreign. now left.
    + left. exists ValueError. apply int16_foreign. now right.
    + right; left. exists ValueError. apply int16_foreign. now left.
    + right; left. exists ValueError. apply int16_foreign. now right.
    + right; right. exists ValueError. apply int16_foreign. now left.
    + right; right. exists ValueError. apply int16_foreign. now right.
Qed.

Lemma hex_to_rgb_valid {U : UnicodeData} (h : str) :
  (length (Color.lstrip_hash h) = 3 \/ length (Color.lstrip_hash h) = 6)%nat ->
  forallb hexdigit (Color.lstrip_hash h) = true ->
  exists rgb, Color.hex_to_rgb h = ret rgb.
Proof.
  intros Hlen Hall.
  assert (E : Color.hex_to_rgb h = Color.hex_to_rgb (Color.lstrip_hash h)).
  { assert (Hidem : forall t, Color.lstrip_hash (Color.lstrip_hash t) = Color.lstrip_hash t).
    { induction t as [|c t IH]; [reflexivity|]. cbn.
      destruct (c =? 35)%N eqn:Hc; [exact IH|]. cbn. now rewrite Hc. }
    unfold Color.hex_to_rgb. now rewrite Hidem. }
  rewrite E.
  destruct (Color.lstrip_hash h) as [|a [|b [|c [|d [|e [|f [|g s]]]]]]]; cbn [length] in Hlen;
    try lia.
  - eexists. now apply hex_to_rgb_three.
  - eexists. now apply hex_to_rgb_six.
Qed.

(** The decimal form of an [int] that is not negative is made of digits,
    so the tokens built from such numbers are style tokens. *)
Lemma uint_digits d :
  forallb Color.is_param (lit (NilEmpty.string_of_uint d)) = true.
Proof. induction d; cbn; try reflexivity; exact IHd. Qed.

Lemma str_of_int_digits z :
  0 <= z -> forallb Color.is_param (str_of_int z) = true.
Proof.
  intros Hz. unfold str_of_int. destruct z as [|p|p]; [reflexivity| |lia].
  cbn [Z.to_int NilZero.string_of_int].
  unfold NilZero.string_of_uint.
  destruct (Pos.to_uint p) eqn:E; try apply uint_digits. reflexivity.
Qed.

Lemma fg_rgb_token r g b :
  0 <= r -> 0 <= g -> 0 <= b -> style_token (ANSIColor.fg_rgb r g b).
Proof.
  intros Hr Hg Hb. unfold ANSIColor.fg_rgb.
  change (lit "[38;2;") with (91%N :: lit "38;2;").
  change (lit "m") with [109%N].
  cbn [app].
  replace (lit "38;2;" ++ str_of_int r ++ lit ";" ++ str_of_int g ++ lit ";"
           ++ str_of_int b ++ [109%N])
    with ((lit "38;2;" ++ str_of_int r ++ lit ";" ++ str_of_int g ++ lit ";"
           ++ str_of_int b) ++ [109%N])
    by (now rewrite <- !app_assoc).
  apply style_one.
  rewrite !forallb_app, !str_of_int_digits by assumption. reflexivity.
Qed.

Lemma hex_value_nonneg c : 0 <= hex_value c.
Proof.
  unfold hex_value, PyInt.digit.
  destruct ((48 <=? c) && (c <=? 57))%N eqn:E1.
  { apply andb_prop in E1 as [?%N.leb_le _]. cbn. lia. }
  destruct ((97 <=? c) && (c <=? 102))%N eqn:E2.
  { apply andb_prop in E2 as [?%N.leb_le _]. cbn. lia. }
  destruct ((65 <=? c) && (c <=? 70))%N eqn:E3.
  { apply andb_prop in E3 as [?%N.leb_le _]. cbn. lia. }
  cbn. lia.
Qed.

Lemma hex_byte_nonneg a b : 0 <= hex_byte a b.
Proof.
  unfold hex_byte. pose proof (hex_value_nonneg a). pose proof (hex_value_nonneg b). lia.
Qed.

Lemma strip_colors_fg_rgb a b c d e f :
  Color.strip_colors (ANSIColor.fg_rgb (hex_byte a b) (hex_byte c d) (hex_byte e f)) = [].
Proof.
  rewrite <- (app_nil_r (ANSIColor.fg_rgb _ _ _)).
  rewrite strip_colors_token; [apply strip_colors_nil|].
  apply fg_rgb_token; apply hex_byte_nonneg.
Qed.

(** C6: for valid input, [hex_to_rgb] and [fg_hex] accept six or three
    hexadecimal digits, with or without the leading [#]; the three-digit
    form is read as the six-digit form with every digit doubled ([F06] as
    [FF0066]); the token returned is stripped to the empty string; and
    [fg_hex("#FF6B6B")] is exactly [ESC[38;2;255;107;107m], which
    [strip_colors] maps to the empty string. *)
Theorem fg_hex_valid {U : UnicodeData} (a b c d e f : N) :
  forallb hexdigit [a; b; c; d; e; f] = true ->
  let six := [a; b; c; d; e; f] in
  let three := [a; b; c] in
  Color.hex_to_rgb six = ret (hex_byte a b, hex_byte c d, hex_byte e f)
  /\ Color.hex_to_rgb (35%N :: six) = Color.hex_to_rgb six
  /\ Color.fg_hex six
     = ret (ANSIColor.fg_rgb (hex_byte a b) (hex_byte c d) (hex_byte e f))
  /\ Color.fg_hex (35%N :: six) = Color.fg_hex six
  /\ Color.hex_to_rgb three = Color.hex_to_rgb [a; a; b; b; c; c]
  /\ Color.hex_to_rgb three = ret (hex_byte a a, hex_byte b b, hex_byte c c)
  /\ Color.hex_to_rgb (35%N :: three) = Color.hex_to_rgb three
  /\ Color.fg_hex three
     = ret (ANSIColor.fg_rgb (hex_byte a a) (hex_byte b b) (hex_byte c c))
  /\ Color.fg_hex (35%N :: three) = Color.fg_hex three
  /\ Color.strip_colors
       (ANSIColor.fg_rgb (hex_byte a b) (hex_byte c d) (hex_byte e f)) = []
  /\ Color.strip_colors
       (ANSIColor.fg_rgb (hex_byte a a) (hex_byte b b) (hex_byte c c)) = []
  /\ Color.hex_to_rgb (lit "F06") = Color.hex_to_rgb (lit "FF0066")
  /\ Color.hex_to_rgb (lit "F06") = ret (255, 0, 102)
  /\ Color.fg_hex (lit "#FF6B6B") = ret (ANSIColor.ESC :: lit "[38;2;255;107;107m")
  /\ Color.strip_colors (ANSIColor.ESC :: lit "[38;2;255;107;107m") = [].
Proof.
  intros Hall six three.
  assert (H3 : forallb hexdigit [a; b; c] = true).
  { cbn [forallb] in *. rewrite !andb_true_iff in *. tauto. }
  assert (H33 : forallb hexdigit [a; a; b; b; c; c] = true).
  { cbn [forallb] in *. rewrite !andb_true_iff in *. tauto. }
  pose proof (hex_to_rgb_six a b c d e f Hall) as E6.
  pose proof (hex_to_rgb_three a b c H3) as E3.
  pose proof (hex_to_rgb_six a a b b c c H33) as E33.
  unfold Color.fg_hex. subst six three.
  rewrite !hex_to_rgb_hash, E6, E3, E33.
  repeat split; try reflexivity; apply strip_colors_fg_rgb.
Qed.

Lemma fg_hex_valid_witness :
  @Color.hex_to_rgb ascii_table (lit "1aB2c3") = ret (26, 178, 195)
  /\ @Color.hex_to_rgb ascii_table (lit "1aB") = ret (17, 170, 187).
Proof.
  pose proof (@fg_hex_valid ascii_table 49 97 66 50 99 51 eq_refl)%N as H.
  cbv zeta in H.
  destruct H as (H6 & _ & _ & _ & _ & H3 & _).
  split; [exact H6 | exact H3].
Defined.

(** C5, as the code has it: [hex_to_rgb], and [fg_hex] through it, checks
    nothing itself.  It reads three slices of the characters left after
    the leading [#]s with [int(s, 16)], and it raises, in the call itself,
    exactly when one of them is no numeral: the exception is Python's
    [ValueError], and otherwise the three numerals are returned.  So it
    never raises on three or six hexadecimal digits; it always raises when
    fewer than three or exactly four characters are left; with three left
    it raises exactly when one is no hexadecimal digit; and it raises
    when three or six are left of which one is neither a hexadecimal
    digit, a sign nor white space. *)
Theorem hex_to_rgb_raises {U : UnicodeData} (h : str) :
  let s := Color.lstrip_hash h in
  match three_bytes h with
  | Some (r, g, b) =>
      Color.hex_to_rgb h = ret (r, g, b)
      /\ Color.fg_hex h = ret (ANSIColor.fg_rgb r g b)
  | None =>
      raises (Color.hex_to_rgb h) ValueError /\ raises (Color.fg_hex h) ValueError
  end
  /\ ((length s = 3 \/ length s = 6)%nat ->
      forallb hexdigit s = true ->
      returns (Color.hex_to_rgb h) /\ returns (Color.fg_hex h))
  /\ ((length s < 3 \/ length s = 4)%nat ->
      raises (Color.hex_to_rgb h) ValueError /\ raises (Color.fg_hex h) ValueError)
  /\ (length s = 3%nat ->
      (returns (Color.hex_to_rgb h)
       <-> forallb (fun c => hexdigit (PyInt.to_ascii c)) s = true)
      /\ (raises (Color.hex_to_rgb h) ValueError
          <-> forallb (fun c => hexdigit (PyInt.to_ascii c)) s = false))
  /\ ((length s = 3 \/ length s = 6)%nat ->
      existsb (fun c => negb (numeral_char c)) s = true ->
      raises (Color.hex_to_rgb h) ValueError /\ raises (Color.fg_hex h) ValueError).
Proof.
  cbv zeta. split; [|split; [|split; [|split]]].
  - unfold Color.fg_hex. rewrite hex_to_rgb_bytes.
    destruct (three_bytes h) as [[[r g] b]|]; split; reflexivity.
  - intros Hlen Hall. split; [now apply hex_to_rgb_valid|].
    destruct (hex_to_rgb_valid h) as [[[r g] b] E]; try assumption.
    unfold Color.fg_hex. rewrite E. now eexists.
  - intros Hlen. split; [now apply hex_to_rgb_short|].
    now apply fg_hex_raises, hex_to_rgb_short.
  - intros Hlen.
    destruct (Color.lstrip_hash h) as [|a [|b [|c [|d s]]]] eqn:E; try discriminate.
    rewrite hex_to_rgb_bytes, (three_bytes_doubled h a b c E).
    destruct (forallb _ [a; b; c]); split; split;
      try discriminate; try reflexivity; try (now eexists).
    intros [rgb Hrgb]. discriminate.
  - intros Hlen Hex. split; [now apply hex_to_rgb_foreign|].
    now apply fg_hex_raises, hex_to_rgb_foreign.
Qed.

Lemma hex_to_rgb_raises_witness :
  (returns (@Color.hex_to_rgb ascii_table (lit "#F06"))
   /\ returns (@Color.fg_hex ascii_table (lit "#F06")))
  /\ (raises (@Color.hex_to_rgb ascii_table (lit "#12")) ValueError
      /\ raises (@Color.fg_hex ascii_table (lit "#12")) ValueError)
  /\ (raises (@Color.hex_to_rgb ascii_table (lit "GGGGGG")) ValueError
      /\ raises (@Color.fg_hex ascii_table (lit "GGGGGG")) ValueError)
  /\ (raises (@Color.hex_to_rgb ascii_table (lit "GGGGG")) ValueError
      /\ raises (@Color.fg_hex ascii_table (lit "GGGGG")) ValueError)
  /\ (raises (@Color.hex_to_rgb ascii_table (lit "12G")) ValueError
      <-> forallb (fun c => hexdigit (@PyInt.to_ascii ascii_table c)) (lit "12G") = false)
  /\ (@Color.hex_to_rgb ascii_table (lit " 1+2-3") = ret (1, 2, -3)
      /\ @Color.fg_hex ascii_table (lit " 1+2-3") = ret (ANSIColor.fg_rgb 1 2 (-3))).
Proof.
  split; [|split; [|split; [|split; [|split]]]].
  - apply (proj1 (proj2 (@hex_to_rgb_raises ascii_table (lit "#F06")))).
    + left. reflexivity.
    + reflexivity.
  - apply (proj1 (proj2 (proj2 (@hex_to_rgb_raises ascii_table (lit "#12"))))).
    left. vm_compute. lia.
  - apply (proj2 (proj2 (proj2 (proj2 (@hex_to_rgb_raises ascii_table (lit "GGGGGG")))))).
    + right. reflexivity.
    + reflexivity.
  - exact (proj1 (@hex_to_rgb_raises ascii_table (lit "GGGGG"))).
  - apply (proj1 (proj2 (proj2 (proj2 (@hex_to_rgb_raises ascii_table (lit "12G")))))).
    reflexivity.
  - exact (proj1 (@hex_to_rgb_raises ascii_table (lit " 1+2-3"))).
Defined.

(** C5 as stated fails: five hexadecimal digits, or eight, are neither
    three nor six, and yet nothing is raised; the first six characters are
    read and the rest ignored. *)
Lemma hex_to_rgb_raises_counterexample :
  length (Color.lstrip_hash (lit "ABCDE")) = 5%nat
  /\ @Color.hex_to_rgb ascii_table (lit "ABCDE") = ret (171, 205, 14)
  /\ length (Color.lstrip_hash (lit "#FF6B6B00")) = 8%nat
  /\ @Color.hex_to_rgb ascii_table (lit "#FF6B6B00") = ret (255, 107, 107).
Proof. repeat split. Qed.

(** ** [gradient] *)

(** What a palette of one colour makes of a character. *)
Lemma gradient_loop_single c i text :
  0 <= i ->
  Color.gradient_loop [c] None i text
  = ret (map (fun ch => if (ch =? 32)%N then [ch] else c ++ [ch]) text).
Proof.
  revert i. induction text as [|ch text IH]; intros i Hi; [reflexivity|].
  cbn [Color.gradient_loop map].
  rewrite (IH (i + 1)) by lia.
  destruct (ch =? 32)%N; [reflexivity|].
  cbn [Color.gradient_pos bind ret].
  change (len [c] - 1) with 0.
  replace (Z.min i 0) with 0 by lia.
  reflexivity.
Qed.

(** C8: with an empty palette [gradient] returns the text as it is, with
    no reset; with a palette of one token it puts that token in front of
    every character that is not a blank, leaves the blanks bare, and
    appends one reset. *)
Theorem gradient_small_palette (text c : str) :
  Color.gradient text [] = ret text
  /\ Color.gradient text [c]
     = ret (concat (map (fun ch => if (ch =? 32)%N then [ch] else c ++ [ch]) text)
            ++ Color.RESET).
Proof.
  split; [reflexivity|].
  unfold Color.gradient, Color.gradient_step.
  change (1 <? len [c]) with false. cbn [bind ret].
  now rewrite gradient_loop_single.
Qed.

(** ** [MessageService.print] *)







(** ** [ProgressBar] *)

Lemma ratio_zero_division self :
  raises (ProgressBar.ratio self) ZeroDivisionError <-> ProgressBar.total self = 0.
Proof.
  unfold raises, ProgressBar.ratio, PyFloat.truediv.
  destruct (ProgressBar.total self =? 0) eqn:E.
  - apply Z.eqb_eq in E. tauto.
  - apply Z.eqb_neq in E. split; [|tauto].
    destruct (PyFloat.is_infinite _); discriminate.
Qed.

(** C3, as the code has it: the constructor checks nothing and returns an
    object for every [total]; under [total >= 1] the ratio
    [current / total] of the rendering never divides by zero. *)
Theorem progress_bar_total (now : float) (total : Z) (description : str)
        (bar_length : Z) (complete_char incomplete_char : str)
        (show_percentage show_counter : bool) :
  (exists self,
      ProgressBar.__init__ now total description bar_length complete_char
        incomplete_char show_percentage show_counter = ret self
      /\ ProgressBar.total self = total /\ ProgressBar.current self = 0)
  /\ (forall self : ProgressBar.t,
        1 <= ProgressBar.total self ->
        ~ raises (ProgressBar.ratio self) ZeroDivisionError).
Proof.
  split.
  - eexists. split; [reflexivity|]. split; reflexivity.
  - intros self Ht Hr. apply ratio_zero_division in Hr. lia.
Qed.

Lemma progress_bar_total_witness :
  ~ raises (ProgressBar.ratio
              (ProgressBar.set_current
                 {| ProgressBar.total := 4; ProgressBar.current := 0;
                    ProgressBar.description := []; ProgressBar.bar_length := 50;
                    ProgressBar.complete_char := lit "#";
                    ProgressBar.incomplete_char := lit ".";
                    ProgressBar.show_percentage := true;
                    ProgressBar.show_counter := true;
                    ProgressBar.start_time := 0%float |} 1))
      ZeroDivisionError.
Proof.
  apply (proj2 (progress_bar_total 0%float 4 [] 50 (lit "#") (lit ".") true true)).
  vm_compute. discriminate.
Defined.

(** C3 as stated fails: a bar with [total = 0] is constructed, not
    rejected; the division by zero is met later, in the rendering. *)
Lemma progress_bar_total_counterexample :
  exists self,
    ProgressBar.__init__ 0%float 0 [] 50 (lit "#") (lit ".") true true = ret self
    /\ ProgressBar.total self = 0
    /\ raises (ProgressBar.ratio self) ZeroDivisionError.
Proof. eexists. split; [reflexivity|]. split; reflexivity. Qed.

Lemma update_state `{FloatFormat} now self value increment :
  fst (ProgressBar.update now self value increment)
  = ProgressBar.advance self value increment.
Proof. reflexivity. Qed.

Lemma advance_total self value increment :
  ProgressBar.total (ProgressBar.advance self value increment)
  = ProgressBar.total self.
Proof. now destruct value. Qed.

Lemma advance_bounded self value increment :
  ProgressBar.current (ProgressBar.advance self value increment)
  <= ProgressBar.total self.
Proof. destruct value; cbn; lia. Qed.

Lemma run_bounded `{FloatFormat} self calls :
  Forall (fun s => ProgressBar.current s <= ProgressBar.total s
                   /\ ProgressBar.total s = ProgressBar.total self)
         (run self calls).
Proof.
  revert self. induction calls as [|[[now value] increment] calls IH]; intros self.
  - constructor.
  - cbn [run]. rewrite update_state. constructor.
    + rewrite advance_total. split; [apply advance_bounded|reflexivity].
    + specialize (IH (ProgressBar.advance self value increment)).
      rewrite advance_total in IH. exact IH.
Qed.

Lemma run_stepwise `{FloatFormat} self calls :
  0 <= ProgressBar.current self <= ProgressBar.total self ->
  Forall stepwise calls ->
  Forall (fun s => 0 <= ProgressBar.current s <= ProgressBar.total self)
         (run self calls)
  /\ ascending (ProgressBar.current self) (map ProgressBar.current (run self calls)).
Proof.
  revert self.
  induction calls as [|[[now value] increment] calls IH]; intros self Hc Hall.
  - split; constructor.
  - apply Forall_cons_iff in Hall as [[Hv Hi] Hall]. subst value.
    cbn [run map ascending]. rewrite update_state.
    set (self' := ProgressBar.advance self None increment).
    assert (Hc' : ProgressBar.current self <= ProgressBar.current self'
                  /\ ProgressBar.current self' <= ProgressBar.total self).
    { subst self'. cbn. lia. }
    destruct (IH self') as [IH1 IH2]; [|assumption|].
    { subst self'. cbn. lia. }
    split.
    + constructor; [lia|]. exact IH1.
    + split; [lia|]. exact IH2.
Qed.

(** C4, as the code has it: for a bar constructed with [total >= 1],
    [current] never exceeds [total] whatever the [update] calls are; when
    every call passes no value and an increment that is not negative,
    [current] stays in [[0, total]] and never decreases; and at any point
    of any sequence of calls, a call with a value sets [current] to
    [min(value, total)] and a call without one to
    [min(current + increment, total)]. *)
Theorem update_current `{FloatFormat} (now : float) (total : Z) (description : str)
        (bar_length : Z) (complete_char incomplete_char : str)
        (show_percentage show_counter : bool) (self : ProgressBar.t)
        (calls : list call) :
  1 <= total ->
  ProgressBar.__init__ now total description bar_length complete_char
    incomplete_char show_percentage show_counter = ret self ->
  Forall (fun s => ProgressBar.current s <= total /\ ProgressBar.total s = total)
         (run self calls)
  /\ (Forall stepwise calls ->
      Forall (fun s => 0 <= ProgressBar.current s <= total) (run self calls)
      /\ ascending (ProgressBar.current self)
                   (map ProgressBar.current (run self calls)))
  /\ (forall s now' value increment,
         s = self \/ In s (run self calls) ->
         ProgressBar.current (fst (ProgressBar.update now' s (Some value) increment))
         = Z.min value total
         /\ ProgressBar.current (fst (ProgressBar.update now' s None increment))
            = Z.min (ProgressBar.current s + increment) total).
Proof.
  intros Ht Hinit. injection Hinit as <-. split; [|split].
  - eapply Forall_impl; [apply run_bounded|]. cbn. intros s [H1 H2]. lia.
  - intros Hall.
    match goal with |- context [run ?s calls] => set (self := s) end.
    change total with (ProgressBar.total self) at 1.
    apply run_stepwise; [cbn; lia|assumption].
  - intros s now' value increment Hs.
    match type of Hs with _ = ?s0 \/ _ => set (self := s0) in * end.
    assert (Htotal : ProgressBar.total s = total).
    { destruct Hs as [->|Hin]; [reflexivity|].
      pose proof (run_bounded self calls) as Hall.
      rewrite List.Forall_forall in Hall. now destruct (Hall s Hin). }
    rewrite !update_state. cbn. now rewrite Htotal.
Qed.

Lemma update_current_witness :
  exists self,
    ProgressBar.__init__ 0%float 4 [] 50 (lit "#") (lit ".") true true = ret self
    /\ map ProgressBar.current
         (@run bare_format self
            [(1%float, None, 1); (2%float, None, 2); (3%float, None, 3)])
       = [1; 3; 4]
    /\ Forall (fun s => 0 <= ProgressBar.current s <= 4)
         (@run bare_format self
            [(1%float, None, 1); (2%float, None, 2); (3%float, None, 3)])
    /\ ProgressBar.current
         (fst (@ProgressBar.update bare_format 4%float self (Some 9) 1)) = 4.
Proof.
  eexists. split; [reflexivity|]. split; [reflexivity|].
  pose proof (@update_current bare_format 0%float 4 [] 50 (lit "#")
                (lit ".") true true _
                [(1%float, None, 1); (2%float, None, 2); (3%float, None, 3)]
                ltac:(lia) eq_refl) as (_ & Hsteps & Hset).
  split.
  - apply Hsteps. repeat constructor; cbn; lia.
  - exact (proj1 (Hset _ 4%float 9 1 (or_introl eq_refl))).
Defined.

(** C4 as stated fails: a call with a value sets [current] to it, so
    [update(3)] followed by [update(1)] goes down from 3 to 1, and
    [update(-2)] leaves [current] below zero. *)
Lemma update_current_counterexample :
  exists self,
    ProgressBar.__init__ 0%float 4 [] 50 (lit "#") (lit ".") true true = ret self
    /\ map ProgressBar.current
         (@run bare_format self [(1%float, Some 3, 1); (2%float, Some 1, 1)])
       = [3; 1]
    /\ map ProgressBar.current (@run bare_format self [(1%float, Some (-2), 1)])
       = [-2].
Proof. eexists. split; [reflexivity|]. split; reflexivity. Qed.

(** ** Text without escape sequences *)

Lemma strip_colors_colour c rest :
  colour c -> Color.strip_colors (c ++ rest) = Color.strip_colors rest.
Proof.
  intros [-> | Htok]; [reflexivity|]. now apply strip_colors_token.
Qed.

Lemma spaces_plain n : Forall (fun c => c <> ANSIColor.ESC) (spaces n).
Proof.
  unfold spaces, str_mul. induction (Z.to_nat n) as [|k IH]; [constructor|].
  cbn [repeat concat]. apply Forall_app. split; [|exact IH].
  repeat constructor. discriminate.
Qed.

Lemma str_mul_plain s n :
  Forall (fun c => c <> ANSIColor.ESC) s ->
  Forall (fun c => c <> ANSIColor.ESC) (str_mul s n).
Proof.
  intros Hs. unfold str_mul. induction (Z.to_nat n) as [|k IH]; [constructor|].
  cbn [repeat concat]. apply Forall_app. now split.
Qed.

Lemma len_str_mul s n : len (str_mul s n) = len s * Z.max 0 n.
Proof.
  unfold str_mul, len.
  assert (H : forall k, length (concat (repeat s k)) = (length s * k)%nat).
  { induction k as [|k IH]; [cbn; lia|].
    cbn [repeat concat]. rewrite length_app, IH. lia. }
  rewrite H. lia.
Qed.

(** ** [TablePrinter] *)

Section Table.
Import TablePrinter.

Lemma widest_ge_start i rows start : start <= widest i rows start.
Proof.
  unfold widest. revert start. induction rows as [|row rows IH]; intros start; cbn [fold_left].
  - lia.
  - destruct (row !! i) as [c|]; [|apply IH].
    etransitivity; [|apply IH]. lia.
Qed.


Lemma widest_attained i rows start :
  widest i rows start = start
  \/ exists row c, In row rows /\ row !! i = Some c
                   /\ widest i rows start = len (str_of c).
Proof.
  unfold widest. revert start. induction rows as [|r rows IH]; intros start; cbn [fold_left].
  - now left.
  - destruct (r !! i) as [c|] eqn:Hc.
    + destruct (IH (Z.max start (len (str_of c)))) as [E|(row & c' & Hin & Hc' & E)].
      * rewrite E. destruct (Z.max_spec start (len (str_of c))) as [[_ ->]|[_ ->]].
        -- right. exists r, c. repeat split; [now left|assumption].
        -- now left.
      * right. exists row, c'. repeat split; [now right|assumption|assumption].
    + destruct (IH start) as [E|(row & c' & Hin & Hc' & E)]; [now left|].
      right. exists row, c'. repeat split; [now right|assumption|assumption].
Qed.

Lemma col_widths_lookup self i header :
  headers self !! i = Some header ->
  col_widths self !! i
  = Some (widest i (rows self) (len header) + padding self * 2).
Proof.
  intros H. unfold col_widths. now rewrite list_lookup_imap, H.
Qed.

Lemma col_widths_length self : length (col_widths self) = length (headers self).
Proof. unfold col_widths. apply length_imap. Qed.

Lemma len_spaces n : len (spaces n) = Z.max 0 n.
Proof.
  unfold spaces, str_mul, len. 
  assert (H : forall k, length (concat (repeat (lit " ") k)) = k).
  { induction k as [|k IH]; [reflexivity|].
    cbn [repeat concat]. now rewrite length_app, IH. }
  rewrite H. lia.
Qed.

Lemma len_app (a b : str) : len (a ++ b) = len a + len b.
Proof. unfold len. rewrite length_app. lia. Qed.

Lemma spaces_nonpos n : n <= 0 -> spaces n = [].
Proof.
  intros H. unfold spaces, str_mul. now replace (Z.to_nat n) with 0%nat by lia.
Qed.

Lemma land_parity m w : Z.land (Z.land m w) 1 = if Z.odd m && Z.odd w then 1 else 0.
Proof.
  change 1 with (Z.ones 1) at 1. rewrite Z.land_ones by lia.
  change (2 ^ 1) with 2. rewrite Zmod_odd.
  rewrite <- !Z.bit0_odd, Z.land_spec. reflexivity.
Qed.

Ltac align_side :=
  first
    [ lia
    | intros; exfalso; congruence
    | let He := fresh in
      intros He;
      match goal with
      | H : _ = lit _ |- _ => rewrite He in H; vm_compute in H; discriminate H
      end ].

Lemma aligned_shape align s width :
  len s <= width ->
  exists l r,
    aligned align s width = spaces l ++ s ++ spaces r
    /\ 0 <= l /\ 0 <= r /\ l + r = width - len s
    /\ (align = lit "center" -> Z.abs (l - r) <= 1)
    /\ (align = lit "right" -> r = 0)
    /\ (align <> lit "center" -> align <> lit "right" -> l = 0).
Proof.
  intros Hlen. unfold aligned.
  destruct (bool_decide (align = lit "center")) eqn:Hc.
  - apply bool_decide_eq_true in Hc. unfold center.
    destruct (width - len s <=? 0) eqn:Hm.
    + apply Z.leb_le in Hm. exists 0, 0.
      rewrite spaces_nonpos by lia. rewrite app_nil_r. cbn [app].
      repeat split; align_side.
    + apply Z.leb_gt in Hm. set (marg := width - len s) in *.
      exists (marg / 2 + Z.land (Z.land marg width) 1),
             (marg - (marg / 2 + Z.land (Z.land marg width) 1)).
      rewrite land_parity.
      pose proof (Z.div_mod marg 2 ltac:(lia)) as Hdm.
      pose proof (Zmod_odd marg) as Hodd.
      split; [reflexivity|].
      destruct (Z.odd marg); cbn [andb]; [destruct (Z.odd width)|].
      all: repeat split; align_side.
  - apply bool_decide_eq_false in Hc.
    destruct (bool_decide (align = lit "right")) eqn:Hr.
    + apply bool_decide_eq_true in Hr. unfold rjust.
      exists (width - len s), 0. rewrite (spaces_nonpos 0), app_nil_r by lia.
      repeat split; align_side.
    + apply bool_decide_eq_false in Hr. unfold ljust.
      exists 0, (width - len s). rewrite (spaces_nonpos 0) by lia. cbn [app].
      repeat split; align_side.
Qed.

Lemma aligned_len align s width :
  len s <= width -> len (aligned align s width) = width.
Proof.
  intros H. destruct (aligned_shape align s width H) as (l & r & -> & Hl & Hr & Hlr & _).
  rewrite !len_app, !len_spaces. lia.
Qed.

Lemma field_text self b paint i s w align :
  repeats (lit " ") (padding self) ->
  col_widths self !! i = Some w ->
  column_align self !! i = Some align ->
  field self b (col_widths self) paint i s
  = ret (spaces (padding self) ++ paint
         ++ aligned align s (w - padding self * 2) ++ Color.RESET
         ++ spaces (padding self)
         ++ (if truthy (vertical b) then vertical b else [])).
Proof.
  intros Hp Hw Ha. unfold field, index. rewrite Hw, Ha. cbn [bind].
  now rewrite (str_times_repeats _ _ Hp).
Qed.

End Table.

Section TableLines.
Import TablePrinter.

Lemma border_of_plain style : no_escape (vertical (border_of style)).
Proof.
  unfold border_of. repeat case_bool_decide; repeat constructor; discriminate.
Qed.

Lemma aligned_plain align s width :
  no_escape s -> no_escape (aligned align s width).
Proof.
  intros Hs. unfold aligned, center, rjust, ljust.
  repeat case_bool_decide; try destruct (_ <=? 0);
    repeat (apply Forall_app; split); try assumption; apply spaces_plain.
Qed.






Lemma header_as_row self b widths i hs :
  header_fields self b widths i hs
  = row_fields self b widths (header_color self) i (map CStr hs).
Proof.
  revert i. induction hs as [|h hs IH]; intros i; [reflexivity|].
  cbn [header_fields row_fields map cell_str str_of]. now rewrite IH.
Qed.



(** The rule lines. *)
Lemma rule_body_cons b joint w w' ws :
  rule_body b joint (w :: w' :: ws)
  = let* run := str_times (horizontal b) w in
    let* rest := rule_body b joint (w' :: ws) in
    ret (run ++ joint ++ rest).
Proof. reflexivity. Qed.

Lemma rule_body_outcome b joint widths :
  (Forall (repeats (horizontal b)) widths /\ returns (rule_body b joint widths))
  \/ (Exists (fun w => ~ repeats (horizontal b) w) widths
      /\ rule_body b joint widths = raise OverflowError).
Proof.
  induction widths as [|w ws IH].
  - left. split; [constructor|now eexists].
  - destruct (repeats_dec (horizontal b) w) as [Hw|Hw].
    + destruct IH as [[Hall [rest Hrest]]|[Hex Hrest]].
      * left. split; [now constructor|].
        destruct ws as [|w' ws].
        -- cbn [rule_body]. rewrite (str_times_repeats _ _ Hw). now eexists.
        -- rewrite rule_body_cons, (str_times_repeats _ _ Hw), Hrest. now eexists.
      * right. split; [now apply Exists_cons_tl|].
        destruct ws as [|w' ws]; [now apply Exists_nil in Hex|].
        rewrite rule_body_cons, (str_times_repeats _ _ Hw), Hrest. reflexivity.
    + right. split; [now apply Exists_cons_hd|].
      destruct ws as [|w' ws].
      * cbn [rule_body]. now rewrite (str_times_refused _ _ Hw).
      * rewrite rule_body_cons, (str_times_refused _ _ Hw). reflexivity.
Qed.

Lemma rule_body_text b joint widths : forall body,
  rule_body b joint widths = ret body ->
  (no_escape (horizontal b) -> no_escape joint -> no_escape body)
  /\ (widths <> [] -> Forall (fun w => 0 <= w) widths ->
      len body = len (horizontal b) * total_width widths
                 + len joint * (len widths - 1)).
Proof.
  induction widths as [|w ws IH]; intros body E.
  - injection E as <-. split; [constructor|contradiction].
  - destruct ws as [|w' ws].
    + cbn [rule_body] in E. apply str_times_inv in E as [_ ->]. split.
      * intros Hh _. now apply str_mul_plain.
      * intros _ Hall. apply Forall_cons in Hall as [Hw _].
        rewrite len_str_mul. cbn [total_width fold_right].
        unfold len. cbn [length]. lia.
    + rewrite rule_body_cons in E.
      destruct (str_times (horizontal b) w) as [e|run] eqn:Hrun; [discriminate|].
      destruct (rule_body b joint (w' :: ws)) as [e|rest] eqn:Hrest; [discriminate|].
      injection E as <-. apply str_times_inv in Hrun as [_ ->].
      destruct (IH rest eq_refl) as [Hplain Hlen]. split.
      * intros Hh Hj. repeat (apply Forall_app; split); try assumption.
        -- now apply str_mul_plain.
        -- now apply Hplain.
      * intros _ Hall. apply Forall_cons in Hall as [Hw Hall].
        rewrite !len_app, len_str_mul, Hlen by (discriminate || assumption).
        cbn [total_width fold_right]. fold (total_width (w' :: ws)).
        unfold len. cbn [length]. lia.
Qed.

Lemma rule_outcome b left joint right widths :
  (Forall (repeats (horizontal b)) widths
   /\ returns (rule b left joint right widths))
  \/ (Exists (fun w => ~ repeats (horizontal b) w) widths
      /\ rule b left joint right widths = raise OverflowError).
Proof.
  unfold rule.
  destruct (rule_body_outcome b joint widths) as [[Hall [body ->]]|[Hex ->]].
  - left. split; [exact Hall|now eexists].
  - right. split; [exact Hex|reflexivity].
Qed.

Lemma rule_returns b left joint right widths :
  Forall (repeats (horizontal b)) widths ->
  returns (rule b left joint right widths).
Proof.
  intros Hall. destruct (rule_outcome b left joint right widths) as [[_ H]|[Hex _]];
    [exact H|].
  apply List.Exists_exists in Hex as (w & Hin & Hno).
  rewrite List.Forall_forall in Hall. contradiction (Hno (Hall w Hin)).
Qed.

Lemma rule_visible b left joint right widths line :
  rule b left joint right widths = ret line ->
  no_escape (horizontal b) -> no_escape left -> no_escape joint -> no_escape right ->
  widths <> [] ->
  Forall (fun w => 0 <= w) widths ->
  Color.visible_len line
  = len left + len (horizontal b) * total_width widths
    + len joint * (len widths - 1) + len right.
Proof.
  intros E Hh Hl Hj Hr Hne Hall. unfold rule in E.
  destruct (rule_body b joint widths) as [e|body] eqn:Hbody; [discriminate|].
  injection E as <-. destruct (rule_body_text b joint widths body Hbody) as [Hplain Hlen].
  unfold Color.visible_len. rewrite plain_escape_free.
  - rewrite !len_app, Hlen by assumption. lia.
  - repeat (apply Forall_app; split); try assumption. now apply Hplain.
Qed.

Lemma col_widths_nonneg self :
  0 <= padding self -> Forall (fun w => 0 <= w) (col_widths self).
Proof.
  intros Hp. apply List.Forall_forall. intros w Hw.
  apply list_elem_of_In, list_elem_of_lookup_1 in Hw as [i Hi].
  destruct (headers self !! i) as [h|] eqn:Hh.
  - rewrite (col_widths_lookup self i h Hh) in Hi. injection Hi as <-.
    pose proof (widest_ge_start i (rows self) (len h)). unfold len in *. lia.
  - apply lookup_ge_None in Hh. apply lookup_lt_Some in Hi.
    rewrite col_widths_length in Hi. lia.
Qed.

Lemma line_width_sum b widths :
  line_width b widths
  = len (line_start b) + total_width widths + len (vertical b) * len widths.
Proof.
  unfold line_width.
  assert (E : fold_right (fun w acc => w + len (vertical b) + acc) 0 widths
              = total_width widths + len (vertical b) * len widths).
  { induction widths as [|w ws IH]; [unfold len; cbn; lia|].
    cbn [fold_right total_width]. fold (total_width ws). rewrite IH.
    unfold len. cbn [length]. lia. }
  rewrite E. lia.
Qed.

(** What the fields of plain cells show. *)
Lemma fields_visible self b paint i row :
  0 <= padding self ->
  repeats (lit " ") (padding self) ->
  colour paint ->
  no_escape (vertical b) ->
  (i + length row = length (col_widths self))%nat ->
  (length (col_widths self) <= length (column_align self))%nat ->
  (forall j c w,
      row !! j = Some c -> col_widths self !! (i + j)%nat = Some w ->
      no_escape (cell_str c) /\ len (cell_str c) <= w - padding self * 2) ->
  exists fs V,
    row_fields self b (col_widths self) paint i row = ret fs
    /\ (forall rest, Color.strip_colors (fs ++ rest) = V ++ Color.strip_colors rest)
    /\ len V = fold_right (fun w acc => w + len (vertical b) + acc) 0
                          (drop i (col_widths self)).
Proof.
  intros Hp Hrp Hpaint Hv. revert i.
  induction row as [|c row IH]; intros i Hlen Hla Hcells.
  - exists [], []. split; [reflexivity|]. split; [reflexivity|].
    cbn [length] in Hlen. rewrite drop_ge by lia. reflexivity.
  - cbn [length] in Hlen.
    destruct (lookup_lt_is_Some_2 (col_widths self) i) as [w Hw]; [lia|].
    destruct (lookup_lt_is_Some_2 (column_align self) i) as [a Ha]; [lia|].
    destruct (Hcells 0%nat c w eq_refl) as [Hc Hcw];
      [now rewrite Nat.add_0_r|].
    destruct (IH (S i)) as (fs & V & Hfs & Hstrip & HV); [lia|lia| |].
    { intros j c' w' Hj Hw'. apply (Hcells (S j) c' w' Hj).
      now replace (i + S j)%nat with (S i + j)%nat by lia. }
    cbn [row_fields]. rewrite (field_text self b paint i _ w a Hrp Hw Ha).
    cbn [bind]. rewrite Hfs. cbn [bind ret].
    eexists.
    exists (spaces (padding self) ++ aligned a (cell_str c) (w - padding self * 2)
            ++ spaces (padding self)
            ++ (if truthy (vertical b) then vertical b else []) ++ V).
    split; [reflexivity|]. split.
    + intros rest. rewrite <- !app_assoc.
      rewrite (strip_colors_plain (spaces _)) by apply spaces_plain.
      rewrite (strip_colors_colour _ _ Hpaint).
      rewrite (strip_colors_plain (aligned _ _ _)) by now apply aligned_plain.
      rewrite (strip_colors_token _ _ reset_is_token).
      rewrite (strip_colors_plain (spaces _)) by apply spaces_plain.
      rewrite (strip_colors_plain (if truthy (vertical b) then vertical b else []))
        by (destruct (truthy (vertical b)); [assumption|constructor]).
      now rewrite Hstrip.
    + rewrite (drop_S _ w i Hw). cbn [fold_right]. rewrite <- HV.
      rewrite !len_app, !len_spaces, aligned_len by assumption.
      assert (len (if truthy (vertical b) then vertical b else []) = len (vertical b)).
      { now destruct (vertical b). }
      lia.
Qed.

Lemma line_visible b fs V :
  no_escape (vertical b) ->
  (forall rest, Color.strip_colors (fs ++ rest) = V ++ Color.strip_colors rest) ->
  Color.visible_len (line_start b ++ fs) = len (line_start b) + len V.
Proof.
  intros Hv Hfs. unfold Color.visible_len.
  rewrite strip_colors_plain
    by (unfold line_start; destruct (truthy (vertical b)); [assumption|constructor]).
  rewrite <- (app_nil_r fs), Hfs, strip_colors_nil, app_nil_r.
  now rewrite len_app.
Qed.

(** The header line of plain headers is as wide as the columns. *)
Lemma header_line_visible self :
  let b := border_of (border_style self) in
  0 <= padding self ->
  repeats (lit " ") (padding self) ->
  (length (headers self) <= length (column_align self))%nat ->
  Forall no_escape (headers self) ->
  colour (header_color self) ->
  exists hl,
    header_line self b (col_widths self) = ret hl
    /\ Color.visible_len hl = line_width b (col_widths self).
Proof.
  intros b Hp Hrp Hla Hhs Hhc.
  pose proof (col_widths_length self) as Hlw.
  pose proof (border_of_plain (border_style self)) as Hv. fold b in Hv.
  destruct (fields_visible self b (header_color self) 0 (map CStr (headers self)))
    as (hf & Vh & Hhf & Hhstrip & HVh); try assumption.
  { rewrite length_map. cbn. now rewrite Hlw. }
  { now rewrite Hlw. }
  { intros j c w Hj Hw. cbn in Hw.
    rewrite list_lookup_fmap in Hj.
    destruct (headers self !! j) as [h|] eqn:Hh; [|discriminate].
    injection Hj as <-. cbn [cell_str str_of].
    rewrite (col_widths_lookup self j h Hh) in Hw. injection Hw as <-.
    split.
    - rewrite List.Forall_forall in Hhs. apply Hhs.
      apply list_elem_of_In. eapply list_elem_of_lookup_2, Hh.
    - pose proof (widest_ge_start j (rows self) (len h)). lia. }
  exists (line_start b ++ hf). unfold header_line.
  rewrite header_as_row, Hhf. split; [reflexivity|].
  rewrite (line_visible b hf Vh Hv Hhstrip).
  unfold line_width. rewrite HVh. now rewrite drop_0.
Qed.

(** The lines of [print], once the header line and the row lines are
    known: the rule lines of the border style around them, the bottom rule
    only when every row was printed. *)
Lemma print_lines self hl lines r :
  let b := border_of (border_style self) in
  let widths := col_widths self in
  rules b = 0%nat \/ Forall (repeats (horizontal b)) widths ->
  header_line self b widths = ret hl ->
  print_rows self b widths 0 (rows self) = (lines, r) ->
  exists top middle bottom,
    (truthy (top_left b) = true ->
     rule b (top_left b) (top_cross b) (top_right b) widths = ret top)
    /\ (truthy (left_cross b) = true ->
        rule b (left_cross b) (cross b) (right_cross b) widths = ret middle)
    /\ (truthy (bottom_left b) = true ->
        rule b (bottom_left b) (bottom_cross b) (bottom_right b) widths = ret bottom)
    /\ print self
       = ((if truthy (top_left b) then [top] else [])
          ++ [hl]
          ++ (if truthy (left_cross b) then [middle] else [])
          ++ lines
          ++ match r with
             | inr _ => if truthy (bottom_left b) then [bottom] else []
             | inl _ => []
             end,
          r).
Proof.
  intros b widths Hsizes Hhl Hrows.
  assert (Hrule : forall left joint right,
             rules b <> 0%nat -> returns (rule b left joint right widths)).
  { intros left joint right Hn. apply rule_returns.
    destruct Hsizes as [H0|Hall]; [contradiction|exact Hall]. }
  unfold rules in Hrule.
  assert (Ht : exists top, truthy (top_left b) = true ->
                 rule b (top_left b) (top_cross b) (top_right b) widths = ret top).
  { destruct (truthy (top_left b)) eqn:E.
    - destruct (Hrule (top_left b) (top_cross b) (top_right b)) as [top Etop]; [lia|].
      now exists top.
    - exists []. discriminate. }
  assert (Hm : exists middle, truthy (left_cross b) = true ->
                 rule b (left_cross b) (cross b) (right_cross b) widths = ret middle).
  { destruct (truthy (left_cross b)) eqn:E.
    - destruct (Hrule (left_cross b) (cross b) (right_cross b)) as [middle Emid];
        [destruct (truthy (top_left b)); lia|].
      now exists middle.
    - exists []. discriminate. }
  assert (Hb : exists bottom, truthy (bottom_left b) = true ->
                 rule b (bottom_left b) (bottom_cross b) (bottom_right b) widths
                 = ret bottom).
  { destruct (truthy (bottom_left b)) eqn:E.
    - destruct (Hrule (bottom_left b) (bottom_cross b) (bottom_right b))
        as [bottom Ebot];
        [destruct (truthy (top_left b)), (truthy (left_cross b)); lia|].
      now exists bottom.
    - exists []. discriminate. }
  destruct Ht as [top Ht], Hm as [middle Hm], Hb as [bottom Hb].
  exists top, middle, bottom.
  split; [exact Ht|]. split; [exact Hm|]. split; [exact Hb|].
  unfold print. fold b widths. rewrite Hhl, Hrows.
  destruct (truthy (top_left b)); [rewrite (Ht eq_refl)|];
    (destruct (truthy (left_cross b)); [rewrite (Hm eq_refl)|]);
    (destruct (truthy (bottom_left b)); [rewrite (Hb eq_refl)|]);
    destruct r as [e|[]]; cbn; rewrite ?app_nil_r; reflexivity.
Qed.



End TableLines.

(** C1 fails on the code: [TablePrinter] never strips.  For a table of one
    column whose only cell carries a colour of its own, the width of the
    column is the largest raw length, escape sequences counted, plus twice
    the padding; when the cell is the longer one that is not the width the
    visible lengths give.  The cell is padded on its raw length, so the
    row line printed is narrower on the screen than the header line
    printed above it, by the length of the token and of the reset. *)
Theorem coloured_cell_misaligns (header align tok text : str) (padding : Z)
        (border_style header_color : str) :
  let cell := tok ++ text ++ Color.RESET in
  let self := painted_table header align tok text padding border_style header_color in
  let b := TablePrinter.border_of border_style in
  let w := Z.max (len header) (len cell) + padding * 2 in
  style_token tok -> no_escape header -> no_escape text -> colour header_color ->
  0 <= padding ->
  repeats (lit " ") padding ->
  repeats (TablePrinter.horizontal b) w ->
  TablePrinter.col_widths self = [w]
  /\ Color.visible_len header = len header
  /\ Color.visible_len cell = len text
  /\ (len header < len cell ->
      TablePrinter.col_widths self
      <> [Z.max (Color.visible_len header) (Color.visible_len cell) + 2 * padding])
  /\ exists hl rl before between after,
       TablePrinter.header_line self b [w] = ret hl
       /\ TablePrinter.row_line self b [w] 0 [TablePrinter.CStr cell] = ret rl
       /\ TablePrinter.print self
          = (before ++ [hl] ++ between ++ [rl] ++ after, ret tt)
       /\ Color.visible_len hl = line_width b [w]
       /\ Color.visible_len rl = Color.visible_len hl - (len tok + len Color.RESET)
       /\ Color.visible_len rl < Color.visible_len hl.
Proof.
  intros cell self b w Htok Hh Htext Hhc Hp Hrp Hrw.
  assert (Hcw : TablePrinter.col_widths self = [w]) by reflexivity.
  assert (Hvh : Color.visible_len header = len header).
  { unfold Color.visible_len. now rewrite plain_escape_free. }
  assert (Hvc : Color.visible_len cell = len text).
  { unfold Color.visible_len, cell.
    now rewrite strip_colors_wrapped, plain_escape_free. }
  assert (Hlc : len cell = len tok + len text + len Color.RESET).
  { unfold cell. rewrite !len_app. lia. }
  assert (Hlt : 0 < len tok + len Color.RESET) by (unfold len; cbn; lia).
  split; [exact Hcw|]. split; [exact Hvh|]. split; [exact Hvc|]. split.
  { intros Hlong E. rewrite Hcw, Hvh, Hvc in E. injection E as E. lia. }
  pose proof (border_of_plain border_style) as Hv. fold b in Hv.
  destruct (header_line_visible self Hp Hrp) as (hl & Ehl & Hhl);
    [cbn; lia|repeat constructor; exact Hh|exact Hhc|].
  change (TablePrinter.border_of (TablePrinter.border_style self)) with b in Ehl, Hhl.
  rewrite Hcw in Ehl, Hhl.
  destruct (aligned_shape align cell (w - padding * 2))
    as (l & r & Eal & Hl & Hr & Hlr & _); [lia|].
  set (rl := TablePrinter.line_start b
             ++ (spaces padding ++ [] ++ (spaces l ++ cell ++ spaces r)
                 ++ Color.RESET ++ spaces padding
                 ++ (if truthy (TablePrinter.vertical b)
                     then TablePrinter.vertical b else [])) ++ []).
  assert (Erl : TablePrinter.row_line self b [w] 0 [TablePrinter.CStr cell] = ret rl).
  { unfold TablePrinter.row_line. cbn [TablePrinter.row_fields TablePrinter.cell_str
      TablePrinter.str_of TablePrinter.zebra_stripes self painted_table
      TablePrinter.add_row TablePrinter.with_rows TablePrinter.__init__ andb].
    rewrite <- Hcw.
    rewrite (field_text self b [] 0 cell w align Hrp);
      [|now rewrite Hcw|reflexivity].
    cbn [bind ret]. change (TablePrinter.padding self) with padding.
    now rewrite Eal. }
  assert (Hvrl : Color.visible_len rl
                 = line_width b [w] - (len tok + len Color.RESET)).
  { unfold Color.visible_len, rl, cell. rewrite <- !app_assoc. cbn [app].
    rewrite (strip_colors_plain (TablePrinter.line_start b))
      by (unfold TablePrinter.line_start;
          destruct (truthy (TablePrinter.vertical b)); [assumption|constructor]).
    rewrite (strip_colors_plain (spaces padding)) by apply spaces_plain.
    rewrite (strip_colors_plain (spaces l)) by apply spaces_plain.
    rewrite (strip_colors_token _ _ Htok).
    rewrite (strip_colors_plain text) by assumption.
    rewrite (strip_colors_token _ _ reset_is_token).
    rewrite (strip_colors_plain (spaces r)) by apply spaces_plain.
    rewrite (strip_colors_token _ _ reset_is_token).
    rewrite (strip_colors_plain (spaces padding)) by apply spaces_plain.
    rewrite plain_escape_free
      by (rewrite app_nil_r; destruct (truthy (TablePrinter.vertical b));
          [assumption|constructor]).
    rewrite !len_app, !len_spaces. unfold line_width. cbn [fold_right].
    assert (len (if truthy (TablePrinter.vertical b)
                 then TablePrinter.vertical b else []) = len (TablePrinter.vertical b)).
    { now destruct (TablePrinter.vertical b). }
    change (len (@nil N)) with 0. lia. }
  destruct (print_lines self hl [rl] (ret tt)) as (top & middle & bottom & _ & _ & _ & E).
  { right. change (TablePrinter.border_of (TablePrinter.border_style self)) with b.
    rewrite Hcw. now constructor. }
  { change (TablePrinter.border_of (TablePrinter.border_style self)) with b.
    now rewrite Hcw. }
  { change (TablePrinter.border_of (TablePrinter.border_style self)) with b.
    rewrite Hcw. change (TablePrinter.rows self) with [[TablePrinter.CStr cell]].
    cbn [TablePrinter.print_rows]. rewrite Erl. reflexivity. }
  exists hl, rl. eexists _, _, _.
  split; [exact Ehl|]. split; [exact Erl|]. split; [exact E|].
  split; [exact Hhl|]. rewrite Hvrl, Hhl. split; lia.
Qed.

Lemma coloured_cell_misaligns_witness :
  TablePrinter.col_widths coloured_table = [13]
  /\ Z.max (Color.visible_len (lit "Name")) (Color.visible_len coloured_cell) + 2 * 1 = 6
  /\ exists hl rl before between after,
       TablePrinter.print coloured_table
       = (before ++ [hl] ++ between ++ [rl] ++ after, ret tt)
       /\ Color.visible_len hl = 19
       /\ Color.visible_len rl = 10.
Proof.
  destruct (coloured_cell_misaligns (lit "Name") (lit "left") ANSIColor.RED (lit "ok") 1
              (lit "simple") [])
    as (Hw & Hvh & Hvc & _ & hl & rl & before & between & after & _ & _ & E & Hhl & Hrl & _).
  - exact (style_one (lit "31") eq_refl).
  - repeat constructor; discriminate.
  - repeat constructor; discriminate.
  - now left.
  - lia.
  - repeat split; vm_compute; discriminate.
  - repeat split; vm_compute; discriminate.
  - split; [exact Hw|]. split; [unfold coloured_cell; now rewrite Hvh, Hvc|].
    exists hl, rl, before, between, after.
    split; [exact E|]. split; [exact Hhl|]. rewrite Hrl, Hhl. reflexivity.
Defined.

(** C2 fails on the code: a row longer than the headers stops the
    printing with an [IndexError] after the top rule, the header and the
    separator; a row shorter than the headers is printed with its own
    cells only, here one field under two header fields. *)
Theorem print_ragged_rows :
  snd (TablePrinter.print long_row_table) = raise IndexError
  /\ length (fst (TablePrinter.print long_row_table)) = 3%nat
  /\ snd (TablePrinter.print short_row_table) = ret tt
  /\ fst (TablePrinter.print short_row_table) !! 1%nat
     = Some (TablePrinter.vertical TablePrinter.simple
             ++ lit " ID" ++ Color.RESET ++ lit " "
             ++ TablePrinter.vertical TablePrinter.simple
             ++ lit " Name" ++ Color.RESET ++ lit " "
             ++ TablePrinter.vertical TablePrinter.simple)
  /\ fst (TablePrinter.print short_row_table) !! 3%nat
     = Some (TablePrinter.vertical TablePrinter.simple
             ++ lit " 1 " ++ Color.RESET ++ lit " "
             ++ TablePrinter.vertical TablePrinter.simple).
Proof. repeat split. Qed.

(** ** [ArtService.box] *)

Section Box.
Import ArtService.

Lemma colour_head c rest :
  colour c -> separates rest -> separates (c ++ rest).
Proof.
  intros [-> | Htok] Hrest; [exact Hrest|].
  induction Htok as [params _|t1 t2 _ IH1 _ IH2].
  - reflexivity.
  - destruct t1 as [|x t1]; [exact IH2|]. exact IH1.
Qed.

Lemma spaces_head n rest : separates rest -> separates (spaces n ++ rest).
Proof.
  intros Hrest. unfold spaces, str_mul.
  destruct (Z.to_nat n) as [|k]; [exact Hrest|]. reflexivity.
Qed.

Lemma max_visible_ge lines line :
  In line lines -> Color.visible_len line <= max_visible lines.
Proof.
  destruct lines as [|l ls]; [intros []|].
  cbn [max_visible].
  assert (Hmono : forall ls m, m <= fold_left (fun m line => Z.max m (Color.visible_len line)) ls m).
  { clear. induction ls as [|x ls IH]; intros m; cbn [fold_left]; [lia|].
    etransitivity; [|apply IH]. lia. }
  assert (Hin : forall ls m, In line ls ->
             Color.visible_len line
             <= fold_left (fun m line => Z.max m (Color.visible_len line)) ls m).
  { clear -Hmono. induction ls as [|x ls IH]; intros m; [intros []|].
    cbn [fold_left]. intros [->|Hin]; [|now apply IH].
    etransitivity; [|apply Hmono]. lia. }
  intros [->|H]; [apply Hmono|now apply Hin].
Qed.

Lemma g_vertical_plain : Forall (fun c => c <> ANSIColor.ESC) g_vertical.
Proof. repeat constructor; discriminate. Qed.

Lemma visible_content_line max_len padding border_color line :
  0 <= padding -> Color.visible_len line <= max_len -> colour border_color ->
  Color.visible_len (content_line max_len padding border_color line)
  = len g_vertical + (max_len + padding * 2) + len g_vertical.
Proof.
  intros Hp Hl Hc. unfold Color.visible_len, content_line.
  rewrite strip_colors_colour by assumption.
  rewrite (strip_colors_plain g_vertical) by apply g_vertical_plain.
  rewrite (strip_colors_plain (str_mul _ _)) by apply spaces_plain.
  rewrite strip_colors_app.
  2:{ apply spaces_head, colour_head; [assumption|reflexivity]. }
  rewrite (strip_colors_plain (str_mul _ _)) by apply spaces_plain.
  rewrite strip_colors_colour by assumption.
  rewrite (plain_escape_free g_vertical) by apply g_vertical_plain.
  rewrite !len_app. fold (spaces padding).
  fold (spaces (padding + (max_len - Color.visible_len line))).
  rewrite !len_spaces. unfold Color.visible_len in *. lia.
Qed.

Lemma visible_bottom_border max_len padding border_color :
  colour border_color ->
  Color.visible_len (bottom_border max_len padding border_color)
  = len g_bottom_left
    + len g_horizontal * Z.max 0 (max_len + padding * 2 + 2)
    + len g_bottom_right.
Proof.
  intros Hc. unfold Color.visible_len, bottom_border.
  rewrite strip_colors_colour by assumption.
  rewrite (strip_colors_plain g_bottom_left) by (repeat constructor; discriminate).
  rewrite (strip_colors_plain (str_mul _ _))
    by (apply str_mul_plain; repeat constructor; discriminate).
  rewrite (plain_escape_free g_bottom_right) by (repeat constructor; discriminate).
  rewrite !len_app, len_str_mul. lia.
Qed.

Lemma visible_top_border max_len padding border_color title_color :
  colour border_color ->
  Color.visible_len (top_border max_len [] padding border_color title_color)
  = len g_top_left
    + len g_horizontal * Z.max 0 (max_len + padding * 2 + 2)
    + len g_top_right.
Proof.
  intros Hc. unfold Color.visible_len, top_border. cbn [truthy].
  rewrite strip_colors_colour by assumption.
  rewrite (strip_colors_plain g_top_left) by (repeat constructor; discriminate).
  rewrite (strip_colors_plain (str_mul _ _))
    by (apply str_mul_plain; repeat constructor; discriminate).
  rewrite (plain_escape_free g_top_right) by (repeat constructor; discriminate).
  rewrite !len_app, len_str_mul. lia.
Qed.

Lemma visible_len_nonneg s : 0 <= Color.visible_len s.
Proof. unfold Color.visible_len, len. lia. Qed.

End Box.

(** C10 fails on the code: without a title and with a padding that is not
    negative, the two borders of a box carry [max_len + 2 * padding + 2]
    horizontal glyphs between their corners, while a content line carries
    [max_len + 2 * padding] visible characters between its two vertical
    glyphs; every content line is shorter than the borders, so its right
    border stands left of the corners. *)
Theorem box_borders_wider (text : str) (padding : Z)
        (border_color title_color line : str) :
  0 <= padding ->
  colour border_color ->
  In line (ArtService.split_lines text) ->
  let max_len := ArtService.max_visible (ArtService.split_lines text) in
  let content := ArtService.content_line max_len padding border_color line in
  let top := ArtService.top_border max_len [] padding border_color title_color in
  let bottom := ArtService.bottom_border max_len padding border_color in
  In content (ArtService.box_lines text [] padding border_color title_color)
  /\ Color.visible_len content
     = len ArtService.g_vertical + (max_len + padding * 2)
       + len ArtService.g_vertical
  /\ Color.visible_len top
     = len ArtService.g_top_left
       + len ArtService.g_horizontal * (max_len + padding * 2 + 2)
       + len ArtService.g_top_right
  /\ Color.visible_len bottom
     = len ArtService.g_bottom_left
       + len ArtService.g_horizontal * (max_len + padding * 2 + 2)
       + len ArtService.g_bottom_right
  /\ Color.visible_len content < Color.visible_len top
  /\ Color.visible_len content < Color.visible_len bottom.
Proof.
  intros Hp Hc Hin max_len content top bottom.
  pose proof (max_visible_ge _ _ Hin) as Hle. fold max_len in Hle.
  pose proof (visible_len_nonneg line) as H0.
  assert (Econtent := visible_content_line max_len padding border_color line Hp Hle Hc).
  assert (Etop := visible_top_border max_len padding border_color title_color Hc).
  assert (Ebottom := visible_bottom_border max_len padding border_color Hc).
  fold content in Econtent. fold top in Etop. fold bottom in Ebottom.
  rewrite Z.max_r in Etop, Ebottom by lia.
  split.
  { unfold ArtService.box_lines. apply in_or_app. right.
    apply in_or_app. left. apply in_map_iff. now exists line. }
  split; [exact Econtent|]. split; [exact Etop|]. split; [exact Ebottom|].
  rewrite Econtent, Etop, Ebottom.
  change (len ArtService.g_vertical) with 3.
  change (len ArtService.g_top_left) with 3.
  change (len ArtService.g_top_right) with 3.
  change (len ArtService.g_bottom_left) with 3.
  change (len ArtService.g_bottom_right) with 3.
  change (len ArtService.g_horizontal) with 3.
  lia.
Qed.

Lemma box_borders_wider_witness :
  map Color.visible_len (ArtService.box_lines (lit "hi") [] 1 Color.CYAN [])
  = [24; 10; 24]
  /\ Color.visible_len
       (ArtService.content_line
          (ArtService.max_visible (ArtService.split_lines (lit "hi"))) 1
          Color.CYAN (lit "hi"))
     < Color.visible_len
         (ArtService.bottom_border
            (ArtService.max_visible (ArtService.split_lines (lit "hi"))) 1
            Color.CYAN).
Proof.
  split; [reflexivity|].
  refine (proj2 (proj2 (proj2 (proj2 (proj2
    (box_borders_wider (lit "hi") 1 Color.CYAN [] (lit "hi") _ _ _)))))).
  - lia.
  - right. now apply (style_one (lit "36")).
  - now left.
Defined.

(** * Further properties *)

(** ** More on [strip_colors] *)

Lemma match_params_suffix t r :
  Color.match_params t = Some r -> exists pre, t = pre ++ r.
Proof.
  revert r. induction t as [|x t IH]; intros r Hr; [discriminate|].
  cbn in Hr. destruct (Color.is_param x).
  - destruct (IH r Hr) as [pre ->]. now exists (x :: pre).
  - destruct (x =? 109)%N; [|discriminate].
    injection Hr as <-. now exists [x].
Qed.

Lemma match_sgr_suffix t r :
  Color.match_sgr t = Some r -> exists pre, t = pre ++ r.
Proof.
  destruct t as [|e [|b t]]; try discriminate.
  cbn. destruct ((e =? ANSIColor.ESC) && (b =? 91))%N; [|discriminate].
  intros [pre ->]%match_params_suffix. now exists (e :: b :: pre).
Qed.

(** X1: [strip_colors] only removes.  What it returns is the text with
    some characters left out, in the same order: never longer than the
    text, never a character the text does not hold. *)
Theorem strip_colors_sublist (s : str) :
  Color.strip_colors s `sublist_of` s
  /\ Color.visible_len s <= len s.
Proof.
  assert (Hsub : Color.strip_colors s `sublist_of` s).
  { remember (length s) as n eqn:Hn. revert s Hn.
    induction n as [n IH] using lt_wf_ind. intros s ->.
    rewrite strip_colors_unfold. destruct s as [|c s]; [constructor|].
    destruct (Color.match_sgr (c :: s)) as [after|] eqn:Hm.
    - pose proof (match_sgr_shorter _ _ Hm) as Hlen.
      destruct (match_sgr_suffix _ _ Hm) as [pre Hpre].
      rewrite Hpre. apply sublist_inserts_l.
      now apply (IH (length after)).
    - apply sublist_skip. apply (IH (length s)); [cbn; lia|reflexivity]. }
  split; [exact Hsub|].
  apply sublist_length in Hsub. unfold Color.visible_len, len. lia.
Qed.

(** Numbers and tokens *)
Lemma str_of_int_negative z :
  z < 0 -> exists digits, str_of_int z = 45%N :: digits
                          /\ Forall (fun c => c <> ANSIColor.ESC) digits.
Proof.
  intros Hz. destruct z as [|p|p]; try lia.
  unfold str_of_int. cbn [Z.to_int NilZero.string_of_int].
  eexists. split; [reflexivity|].
  unfold NilZero.string_of_uint.
  assert (H : forall d, Forall (fun c => c <> ANSIColor.ESC) (lit (NilEmpty.string_of_uint d))).
  { induction d; cbn; constructor; try discriminate; assumption. }
  destruct (Pos.to_uint p); try apply H. repeat constructor; discriminate.
Qed.

Lemma str_of_int_plain z : Forall (fun c => c <> ANSIColor.ESC) (str_of_int z).
Proof.
  destruct (Z.lt_ge_cases z 0) as [Hz|Hz].
  - destruct (str_of_int_negative z Hz) as (d & -> & Hd). constructor; [discriminate|exact Hd].
  - pose proof (str_of_int_digits z Hz) as H.
    induction (str_of_int z) as [|c l IH]; [constructor|].
    cbn in H. apply andb_prop in H as [Hc Hl]. constructor; [|now apply IH].
    intros ->. discriminate.
Qed.

Lemma fg_256_token c : 0 <= c -> style_token (ANSIColor.fg_256 c).
Proof.
  intros Hc. apply (style_one (lit "38;5;" ++ str_of_int c)).
  rewrite forallb_app, str_of_int_digits by assumption. reflexivity.
Qed.

Lemma bg_256_token c : 0 <= c -> style_token (ANSIColor.bg_256 c).
Proof.
  intros Hc. apply (style_one (lit "48;5;" ++ str_of_int c)).
  rewrite forallb_app, str_of_int_digits by assumption. reflexivity.
Qed.

Lemma bg_rgb_token r g b :
  0 <= r -> 0 <= g -> 0 <= b -> style_token (ANSIColor.bg_rgb r g b).
Proof.
  intros Hr Hg Hb. unfold ANSIColor.bg_rgb.
  change (lit "[48;2;") with (91%N :: lit "48;2;").
  change (lit "m") with [109%N].
  cbn [app].
  replace (lit "48;2;" ++ str_of_int r ++ lit ";" ++ str_of_int g ++ lit ";"
           ++ str_of_int b ++ [109%N])
    with ((lit "48;2;" ++ str_of_int r ++ lit ";" ++ str_of_int g ++ lit ";"
           ++ str_of_int b) ++ [109%N])
    by (now rewrite <- !app_assoc).
  apply style_one.
  rewrite !forallb_app, !str_of_int_digits by assumption. reflexivity.
Qed.

(** A sequence whose parameters hold a minus sign is no match: nothing of
    it is stripped. *)
Lemma strip_colors_broken (pre digits rest : str) :
  forallb Color.is_param pre = true ->
  Forall (fun c => c <> ANSIColor.ESC) digits ->
  Forall (fun c => c <> ANSIColor.ESC) rest ->
  Color.strip_colors (ANSIColor.ESC :: 91%N :: pre ++ 45%N :: digits ++ rest)
  = ANSIColor.ESC :: 91%N :: pre ++ 45%N :: digits ++ rest.
Proof.
  intros Hpre Hd Hr.
  rewrite strip_colors_unfold.
  assert (Hm : Color.match_params (pre ++ 45%N :: digits ++ rest) = None).
  { clear Hd Hr. induction pre as [|x pre IH]; [reflexivity|].
    cbn in Hpre. apply andb_prop in Hpre as [Hx Hpre].
    cbn. rewrite Hx. now apply IH. }
  cbn. rewrite Hm. f_equal.
  apply plain_escape_free. constructor; [discriminate|].
  apply Forall_app. split.
  - clear Hm. induction pre as [|x pre IH]; [constructor|].
    cbn in Hpre. apply andb_prop in Hpre as [Hx Hpre].
    constructor; [intros ->; discriminate|now apply IH].
  - constructor; [discriminate|]. apply Forall_app. now split.
Qed.

(** X2: the codes of the 256-colour and RGB palettes.  For numbers that
    are not negative, [fg_256], [bg_256], [fg_rgb] and [bg_rgb] return
    codes that [strip_colors] removes: a text between such a code and the
    reset strips to the text stripped.  For a negative number the minus
    sign breaks the sequence and [strip_colors] leaves the code of
    [fg_256] and [bg_256] where it is. *)
Theorem colour_codes_stripped (c r g b : Z) (text : str) :
  (0 <= c ->
   Color.strip_colors (ANSIColor.fg_256 c ++ text ++ Color.RESET)
   = Color.strip_colors text
   /\ Color.strip_colors (ANSIColor.bg_256 c ++ text ++ Color.RESET)
      = Color.strip_colors text)
  /\ (0 <= r -> 0 <= g -> 0 <= b ->
      Color.strip_colors (ANSIColor.fg_rgb r g b ++ text ++ Color.RESET)
      = Color.strip_colors text
      /\ Color.strip_colors (ANSIColor.bg_rgb r g b ++ text ++ Color.RESET)
         = Color.strip_colors text)
  /\ (c < 0 ->
      Color.strip_colors (ANSIColor.fg_256 c) = ANSIColor.fg_256 c
      /\ Color.strip_colors (ANSIColor.bg_256 c) = ANSIColor.bg_256 c).
Proof.
  split; [|split].
  - intros Hc. split; apply strip_colors_wrapped.
    + now apply fg_256_token.
    + now apply bg_256_token.
  - intros Hr Hg Hb. split; apply strip_colors_wrapped.
    + now apply fg_rgb_token.
    + now apply bg_rgb_token.
  - intros Hc. destruct (str_of_int_negative c Hc) as (digits & E & Hd).
    unfold ANSIColor.fg_256, ANSIColor.bg_256. rewrite E.
    split.
    + apply (strip_colors_broken (lit "38;5;") digits (lit "m")); try assumption;
        [reflexivity|repeat constructor; discriminate].
    + apply (strip_colors_broken (lit "48;5;") digits (lit "m")); try assumption;
        [reflexivity|repeat constructor; discriminate].
Qed.

Lemma colour_codes_stripped_witness :
  Color.strip_colors (ANSIColor.fg_rgb 255 107 107 ++ lit "hi" ++ Color.RESET)
  = Color.strip_colors (lit "hi")
  /\ Color.strip_colors (ANSIColor.fg_256 (-1)) = ANSIColor.fg_256 (-1).
Proof.
  split.
  - apply (proj1 (proj2 (colour_codes_stripped 0 255 107 107 (lit "hi")))); lia.
  - apply (proj2 (proj2 (colour_codes_stripped (-1) 0 0 0 []))). lia.
Defined.

(** ** More on [hex_to_rgb] *)

Lemma lstrip_hash_idem t : Color.lstrip_hash (Color.lstrip_hash t) = Color.lstrip_hash t.
Proof.
  induction t as [|c t IH]; [reflexivity|]. cbn.
  destruct (c =? 35)%N eqn:Hc; [exact IH|]. cbn. now rewrite Hc.
Qed.

Lemma lstrip_hash_head t c r : Color.lstrip_hash t = c :: r -> (c =? 35)%N = false.
Proof.
  induction t as [|x t IH]; [discriminate|]. cbn.
  destruct (x =? 35)%N eqn:Hx; [exact IH|]. now intros [= <- _].
Qed.

Lemma hex_to_rgb_lstrip {U : UnicodeData} h :
  Color.hex_to_rgb (Color.lstrip_hash h) = Color.hex_to_rgb h.
Proof. unfold Color.hex_to_rgb. now rewrite lstrip_hash_idem. Qed.

Lemma hex_value_range c : 0 <= hex_value c <= 15.
Proof.
  unfold hex_value, PyInt.digit.
  destruct ((48 <=? c) && (c <=? 57))%N eqn:E1.
  { apply andb_prop in E1 as [?%N.leb_le ?%N.leb_le]. cbn. lia. }
  destruct ((97 <=? c) && (c <=? 102))%N eqn:E2.
  { apply andb_prop in E2 as [?%N.leb_le ?%N.leb_le]. cbn. lia. }
  destruct ((65 <=? c) && (c <=? 70))%N eqn:E3.
  { apply andb_prop in E3 as [?%N.leb_le ?%N.leb_le]. cbn. lia. }
  cbn. lia.
Qed.

Lemma hex_byte_range a b : 0 <= hex_byte a b <= 255.
Proof.
  unfold hex_byte. pose proof (hex_value_range a). pose proof (hex_value_range b). lia.
Qed.

(** X3: the channels of a valid colour.  For three or six hexadecimal
    digits after the leading [#]s, [hex_to_rgb] returns three channels
    between 0 and 255, and [fg_hex] and [bg_hex] return the style tokens
    of these channels: tokens [strip_colors] removes. *)
Theorem hex_channels_in_range {U : UnicodeData} (h : str) :
  (length (Color.lstrip_hash h) = 3 \/ length (Color.lstrip_hash h) = 6)%nat ->
  forallb hexdigit (Color.lstrip_hash h) = true ->
  exists r g b,
    Color.hex_to_rgb h = ret (r, g, b)
    /\ 0 <= r <= 255 /\ 0 <= g <= 255 /\ 0 <= b <= 255
    /\ Color.fg_hex h = ret (ANSIColor.fg_rgb r g b)
    /\ Color.bg_hex h = ret (ANSIColor.bg_rgb r g b)
    /\ style_token (ANSIColor.fg_rgb r g b)
    /\ style_token (ANSIColor.bg_rgb r g b).
Proof.
  intros Hlen Hall.
  assert (Hrgb : exists r g b,
             Color.hex_to_rgb h = ret (r, g, b)
             /\ 0 <= r <= 255 /\ 0 <= g <= 255 /\ 0 <= b <= 255).
  { rewrite <- hex_to_rgb_lstrip.
    destruct (Color.lstrip_hash h) as [|a [|b [|c [|d [|e [|f [|g s]]]]]]];
      cbn [length] in Hlen; try lia.
    - rewrite hex_to_rgb_three by assumption.
      do 3 eexists. split; [reflexivity|]. repeat split; apply hex_byte_range.
    - rewrite hex_to_rgb_six by assumption.
      do 3 eexists. split; [reflexivity|]. repeat split; apply hex_byte_range. }
  destruct Hrgb as (r & g & b & E & Hr & Hg & Hb).
  exists r, g, b. unfold Color.fg_hex, Color.bg_hex. rewrite E.
  repeat split; try lia.
  - apply fg_rgb_token; lia.
  - apply bg_rgb_token; lia.
Qed.

Lemma hex_channels_in_range_witness :
  exists r g b,
    @Color.hex_to_rgb ascii_table (lit "#fA3") = ret (r, g, b)
    /\ 0 <= r <= 255 /\ 0 <= g <= 255 /\ 0 <= b <= 255
    /\ @Color.bg_hex ascii_table (lit "#fA3") = ret (ANSIColor.bg_rgb r g b).
Proof.
  destruct (@hex_channels_in_range ascii_table (lit "#fA3"))
    as (r & g & b & E & Hr & Hg & Hb & _ & Ebg & _).
  - left. reflexivity.
  - reflexivity.
  - exists r, g, b. repeat split; try assumption; lia.
Defined.

(** X4: what [hex_to_rgb] does not look at.  Any number of leading [#]
    is dropped, and of a string of six characters or more after them only
    the first six are read. *)
Theorem hex_to_rgb_ignores {U : UnicodeData} (h : str) (k : nat) :
  Color.hex_to_rgb (repeat 35%N k ++ h) = Color.hex_to_rgb h
  /\ ((6 <= length (Color.lstrip_hash h))%nat ->
      Color.hex_to_rgb h = Color.hex_to_rgb (firstn 6 (Color.lstrip_hash h))).
Proof.
  split.
  - induction k as [|k IH]; [reflexivity|].
    cbn [repeat app]. now rewrite hex_to_rgb_hash.
  - intros Hlen. rewrite <- (hex_to_rgb_lstrip h).
    destruct (Color.lstrip_hash h) as [|a [|b [|c [|d [|e [|f s]]]]]] eqn:E;
      cbn [length] in Hlen; try lia.
    pose proof (lstrip_hash_head _ _ _ E) as Ha.
    unfold Color.hex_to_rgb. cbn [firstn take Color.lstrip_hash]. rewrite Ha.
    replace (len (a :: b :: c :: d :: e :: f :: s) =? 3) with false
      by (symmetry; apply Z.eqb_neq; unfold len; cbn [length]; lia).
    change (len [a; b; c; d; e; f] =? 3) with false.
    reflexivity.
Qed.

Lemma hex_to_rgb_ignores_witness :
  @Color.hex_to_rgb ascii_table (lit "FF6B6Bxyz") = @Color.hex_to_rgb ascii_table (lit "FF6B6B").
Proof.
  apply (proj2 (@hex_to_rgb_ignores ascii_table (lit "FF6B6Bxyz") 0)).
  vm_compute. lia.
Defined.

(** ** [gradient] and [strip_colors] *)

Lemma style_token_head tok : style_token tok -> exists t, tok = ANSIColor.ESC :: t.
Proof.
  induction 1 as [params _|t1 t2 _ [u1 ->] _ _]; eexists; reflexivity.
Qed.

Lemma item_elem {A} (l : list A) i x : item l i = ret x -> In x l.
Proof.
  unfold item, index.
  destruct ((0 <=? i) && (i <? len l)).
  - destruct (l !! Z.to_nat i) eqn:E; [|discriminate].
    intros [= <-]. apply list_elem_of_In. eapply list_elem_of_lookup_2, E.
  - destruct ((- len l <=? i) && (i <? 0)); [|discriminate].
    destruct (l !! Z.to_nat (len l + i)) eqn:E; [|discriminate].
    intros [= <-]. apply list_elem_of_In. eapply list_elem_of_lookup_2, E.
Qed.

Lemma gradient_loop_pieces colors step i text pieces :
  Color.gradient_loop colors step i text = ret pieces ->
  Forall2 (piece_of colors) text pieces.
Proof.
  revert i pieces. induction text as [|ch text IH]; intros i pieces.
  - intros [= <-]. constructor.
  - cbn [Color.gradient_loop]. destruct (ch =? 32)%N eqn:Hch.
    + destruct (Color.gradient_loop colors step (i + 1) text) as [e|tail] eqn:E;
        [discriminate|].
      intros [= <-]. constructor; [|now apply (IH (i + 1))].
      left. split; [now apply N.eqb_eq|reflexivity].
    + destruct (Color.gradient_pos i step) as [e|p]; [discriminate|]. cbn [bind].
      destruct (item colors (Z.min p (len colors - 1))) as [e|c] eqn:Ec;
        [discriminate|]. cbn [bind].
      destruct (Color.gradient_loop colors step (i + 1) text) as [e|tail] eqn:E;
        [discriminate|].
      intros [= <-]. constructor; [|now apply (IH (i + 1))].
      right. exists c. split; [now apply item_elem in Ec|reflexivity].
Qed.

Lemma strip_colors_char ch rest :
  no_bracket_first rest ->
  Color.strip_colors (ch :: rest) = ch :: Color.strip_colors rest.
Proof.
  intros H. rewrite strip_colors_unfold. cbn.
  destruct rest as [|b rest]; [reflexivity|].
  cbn in H. apply N.eqb_neq in H. now rewrite H, andb_false_r.
Qed.

Lemma strip_pieces colors text pieces :
  Forall style_token colors ->
  Forall2 (piece_of colors) text pieces ->
  no_bracket_first (concat pieces ++ Color.RESET)
  /\ Color.strip_colors (concat pieces ++ Color.RESET) = text.
Proof.
  intros Hcol. induction 1 as [|ch piece text pieces Hp _ [IHh IHs]].
  - split; [cbn; discriminate|reflexivity].
  - cbn [concat]. rewrite <- app_assoc.
    destruct Hp as [[-> ->]|(c & Hc & ->)].
    + split; [cbn; discriminate|].
      cbn [app]. rewrite strip_colors_char by assumption. now rewrite IHs.
    + rewrite List.Forall_forall in Hcol. specialize (Hcol c Hc).
      destruct (style_token_head c Hcol) as [t Ht].
      split; [rewrite Ht; cbn; discriminate|].
      rewrite <- app_assoc. rewrite strip_colors_token by assumption.
      cbn [app]. rewrite strip_colors_char by assumption. now rewrite IHs.
Qed.

(** X5: a gradient colours and nothing else.  For a palette of style
    tokens that is not empty, whatever [gradient] returns strips back to
    the text, character for character, blanks included; and for a palette
    of one colour it returns. *)
Theorem gradient_strips (text : str) (colors : list str) :
  colors <> [] ->
  Forall style_token colors ->
  (forall out, Color.gradient text colors = ret out -> Color.strip_colors out = text)
  /\ (length colors = 1%nat -> returns (Color.gradient text colors)).
Proof.
  intros Hne Hcol. split.
  - intros out. unfold Color.gradient.
    destruct colors as [|c0 colors]; [contradiction|].
    destruct (Color.gradient_step text (c0 :: colors)) as [e|step]; [discriminate|].
    cbn [bind].
    destruct (Color.gradient_loop (c0 :: colors) step 0 text) as [e|pieces] eqn:E;
      [discriminate|].
    intros [= <-].
    apply gradient_loop_pieces in E.
    now apply (strip_pieces (c0 :: colors)).
  - intros Hlen. destruct colors as [|c [|c' colors]]; try discriminate Hlen.
    unfold Color.gradient, Color.gradient_step.
    change (1 <? len [c]) with false. cbn [bind ret].
    rewrite gradient_loop_single by lia. now eexists.
Qed.

Lemma rainbow_tokens : Forall style_token Color.RAINBOW.
Proof.
  unfold Color.RAINBOW.
  repeat apply List.Forall_cons; try apply List.Forall_nil.
  - now apply (style_one (lit "31")).
  - now apply (style_one (lit "33")).
  - now apply (style_one (lit "32")).
  - now apply (style_one (lit "36")).
  - now apply (style_one (lit "34")).
  - now apply (style_one (lit "35")).
Qed.

Lemma gradient_strips_witness :
  exists out,
    Color.gradient (lit "Rainbow gradient") Color.RAINBOW = ret out
    /\ Color.strip_colors out = lit "Rainbow gradient".
Proof.
  destruct (Color.gradient (lit "Rainbow gradient") Color.RAINBOW) as [e|out] eqn:E.
  - vm_compute in E. discriminate E.
  - exists out. split; [reflexivity|].
    refine (proj1 (gradient_strips (lit "Rainbow gradient") Color.RAINBOW _ _) out E).
    + discriminate.
    + exact rainbow_tokens.
Defined.

(** ** [AnimationService.countdown] *)

Lemma countdown_range_lookup seconds k :
  (k < Z.to_nat seconds)%nat ->
  AnimationService.countdown_range seconds !! k = Some (seconds - Z.of_nat k).
Proof.
  intros Hk. unfold AnimationService.countdown_range.
  rewrite list_lookup_fmap, lookup_seq_lt by assumption. reflexivity.
Qed.

(** X6: a countdown from [seconds] writes [seconds] chunks that count
    [seconds], [seconds - 1], ..., [1], each shown in yellow after the
    message, and then the end message with twenty blanks and a line feed;
    for [seconds] of zero or less it writes the end message only. *)
Theorem countdown_chunks (seconds : Z) (message end_message : str) :
  let chunks := AnimationService.countdown seconds message end_message in
  length chunks = S (Z.to_nat seconds)
  /\ chunks !! Z.to_nat seconds
     = Some ([13%N] ++ end_message ++ spaces 20 ++ [10%N])
  /\ (seconds <= 0 -> chunks = [[13%N] ++ end_message ++ spaces 20 ++ [10%N]])
  /\ (forall k chunk,
         (k < Z.to_nat seconds)%nat ->
         chunks !! k = Some chunk ->
         1 <= seconds - Z.of_nat k <= seconds
         /\ chunk = [13%N] ++ message ++ lit ": " ++ Color.YELLOW
                    ++ str_of_int (seconds - Z.of_nat k) ++ Color.RESET
                    ++ lit " sec.   "
         /\ (no_escape message ->
             Color.strip_colors chunk = countdown_text seconds message k)).
Proof.
  intros chunks. subst chunks. unfold AnimationService.countdown.
  set (frame := fun i : Z => _).
  assert (Hlen : length (map frame (AnimationService.countdown_range seconds))
                 = Z.to_nat seconds).
  { unfold AnimationService.countdown_range. now rewrite !length_map, length_seq. }
  split; [rewrite length_app, Hlen; cbn; lia|].
  split.
  { rewrite lookup_app_r by (rewrite Hlen; lia).
    now rewrite Hlen, Nat.sub_diag. }
  split.
  { intros Hs. unfold AnimationService.countdown_range.
    now replace (Z.to_nat seconds) with 0%nat by lia. }
  intros k chunk Hk Hchunk.
  rewrite lookup_app_l in Hchunk by (rewrite Hlen; lia).
  rewrite list_lookup_fmap, countdown_range_lookup in Hchunk by assumption.
  injection Hchunk as <-. split; [lia|]. split; [reflexivity|].
  intros Hm. subst frame. cbv beta. unfold countdown_text.
  assert (Hcr : Forall (fun c => c <> ANSIColor.ESC) [13%N])
    by (repeat constructor; discriminate).
  assert (Hsep : Forall (fun c => c <> ANSIColor.ESC) (lit ": "))
    by (repeat constructor; discriminate).
  rewrite (strip_colors_plain _ _ Hcr), (strip_colors_plain _ _ Hm).
  rewrite (strip_colors_plain _ _ Hsep).
  rewrite (strip_colors_token Color.YELLOW) by now apply (style_one (lit "33")).
  rewrite (strip_colors_plain _ _ (str_of_int_plain _)).
  rewrite (strip_colors_token _ _ reset_is_token).
  rewrite plain_escape_free by (repeat constructor; discriminate).
  reflexivity.
Qed.

(** ** Quick colour functions and [ArtService.separator] *)

Lemma quick_colour_wraps f :
  In f quick_colours ->
  exists tok, style_token tok /\ forall text, f text = tok ++ text ++ Color.RESET.
Proof.
  intros Hf. repeat (destruct Hf as [<-|Hf]); [..|destruct Hf].
  - exists Color.RED. split; [now apply (style_one (lit "31"))|reflexivity].
  - exists Color.GREEN. split; [now apply (style_one (lit "32"))|reflexivity].
  - exists Color.BLUE. split; [now apply (style_one (lit "34"))|reflexivity].
  - exists Color.YELLOW. split; [now apply (style_one (lit "33"))|reflexivity].
  - exists Color.CYAN. split; [now apply (style_one (lit "36"))|reflexivity].
  - exists Color.MAGENTA. split; [now apply (style_one (lit "35"))|reflexivity].
  - exists Color.BOLD. split; [now apply (style_one (lit "1"))|reflexivity].
  - exists Color.UNDERLINE. split; [now apply (style_one (lit "4"))|reflexivity].
Qed.

(** X7: however the quick colour functions are nested around a text,
    [strip_colors] of the result is [strip_colors] of the text; for a text
    without escape sequences of its own, the text itself. *)
Theorem quick_colours_strip (fs : list (str -> str)) (text : str) :
  Forall (fun f => In f quick_colours) fs ->
  Color.strip_colors (nest fs text) = Color.strip_colors text
  /\ (escape_free text -> Color.strip_colors (nest fs text) = text)
  /\ Color.visible_len (nest fs text) = Color.visible_len text.
Proof.
  intros Hfs.
  assert (H : Color.strip_colors (nest fs text) = Color.strip_colors text).
  { induction Hfs as [|f fs Hf _ IH]; [reflexivity|].
    cbn [nest fold_right]. fold (nest fs text).
    destruct (quick_colour_wraps f Hf) as (tok & Htok & ->).
    now rewrite strip_colors_wrapped. }
  split; [exact H|]. split.
  - intros Hs. now rewrite H.
  - unfold Color.visible_len. now rewrite H.
Qed.

Lemma quick_colours_strip_witness :
  Color.strip_colors (bold (red (lit "alert"))) = lit "alert".
Proof.
  refine (proj1 (proj2 (quick_colours_strip [bold; red] (lit "alert") _)) _).
  - repeat constructor; cbn; tauto.
  - reflexivity.
Defined.

(** X8: the visible text of a separator is [char] repeated [length] times,
    when [char] holds no escape character and [color] is a style token or
    empty; its visible length is [len char * max 0 length]. *)
Theorem separator_visible (length : Z) (char color : str) :
  colour color ->
  Forall (fun c => c <> ANSIColor.ESC) char ->
  Color.strip_colors (ArtService.separator length char color) = str_mul char length
  /\ Color.visible_len (ArtService.separator length char color)
     = len char * Z.max 0 length.
Proof.
  intros Hc Hchar.
  assert (H : Color.strip_colors (ArtService.separator length char color)
              = str_mul char length).
  { unfold ArtService.separator.
    rewrite strip_colors_colour by assumption.
    rewrite strip_colors_plain by now apply str_mul_plain.
    now rewrite strip_colors_reset, app_nil_r. }
  split; [exact H|].
  unfold Color.visible_len. rewrite H. apply len_str_mul.
Qed.

Lemma separator_visible_witness :
  Color.visible_len (ArtService.separator 60 (lit "=") Color.GRAY) = 60.
Proof.
  refine (proj2 (separator_visible 60 (lit "=") Color.GRAY _ _)).
  - right. now apply (style_one (lit "90")).
  - repeat constructor. discriminate.
Defined.

(** ** [MessageService]: registry, settings and what a message shows *)

Lemma sgr_token (code : String.string) :
  forallb Color.is_param (lit code) = true -> style_token (ANSIColor.sgr code).
Proof. intros H. now apply (style_one (lit code)). Qed.

Section Messages.
Import MessageService.

Lemma resolve_register_same cls name p c s i :
  resolve (register_style cls name p c s i) (of_name name) = ret (mk_style p c s i).
Proof.
  unfold resolve, register_style. cbn [_custom_styles].
  now rewrite lookup_insert_eq.
Qed.

Lemma resolve_register_other cls name p c s i k :
  k <> of_name name ->
  resolve (register_style cls name p c s i) k = resolve cls k.
Proof.
  intros Hk. unfold resolve, register_style. destruct k as [t|other]; [reflexivity|].
  cbn [_custom_styles]. rewrite lookup_insert_ne; [reflexivity|congruence].
Qed.

Lemma print_resolve strftime cls cls' k text end_ indent_ :
  resolve cls' k = resolve cls k ->
  _show_icons cls' = _show_icons cls ->
  _show_timestamps cls' = _show_timestamps cls ->
  _timestamp_format cls' = _timestamp_format cls ->
  print strftime cls' k text end_ indent_ = print strftime cls k text end_ indent_.
Proof.
  intros Hr Hi Ht Hf. unfold print. now rewrite Hr, Hi, Ht, Hf.
Qed.

End Messages.

(** X9: a registered style is the one its name resolves to afterwards, a
    second registration of the name replaces the first, and the
    registration changes nothing for any other kind: every other name and
    every [MessageType] member prints as before. *)
Theorem register_style_lookup (strftime : str -> str) (cls : MessageService.state)
        (name prefix color style icon : str) :
  let cls' := MessageService.register_style cls name prefix color style icon in
  MessageService.resolve cls' (MessageService.of_name name)
  = ret (MessageService.mk_style prefix color style icon)
  /\ (forall prefix2 color2 style2 icon2,
         MessageService.resolve
           (MessageService.register_style cls' name prefix2 color2 style2 icon2)
           (MessageService.of_name name)
         = ret (MessageService.mk_style prefix2 color2 style2 icon2))
  /\ (forall k text end_ indent_,
         k <> MessageService.of_name name ->
         MessageService.print strftime cls' k text end_ indent_
         = MessageService.print strftime cls k text end_ indent_)
  /\ (forall text end_ indent_,
         MessageService.info strftime cls' text end_ indent_
         = MessageService.info strftime cls text end_ indent_
         /\ MessageService.error strftime cls' text end_ indent_
            = MessageService.error strftime cls text end_ indent_).
Proof.
  intros cls'. split; [apply resolve_register_same|].
  split; [intros; apply resolve_register_same|].
  split.
  - intros k text end_ indent_ Hk.
    apply print_resolve; try reflexivity. now apply resolve_register_other.
  - intros text end_ indent_. split; reflexivity.
Qed.

(** X10: [configure] changes the settings it is given and keeps the others:
    a setting that is given takes the given value, whatever the other
    arguments are, and a setting that is not given keeps its value; of two
    calls the later one wins setting by setting; it never touches the
    registry, so every kind resolves as before, and it commutes with
    [register_style]. *)
Theorem configure_settings (cls : MessageService.state)
        (icons stamps icons2 stamps2 : option bool) (fmt fmt2 : option str) :
  (forall v, MessageService._show_icons
               (MessageService.configure cls (Some v) stamps fmt) = v)
  /\ (forall v, MessageService._show_timestamps
                  (MessageService.configure cls icons (Some v) fmt) = v)
  /\ (forall v, MessageService._timestamp_format
                  (MessageService.configure cls icons stamps (Some v)) = v)
  /\ MessageService._show_icons (MessageService.configure cls None stamps fmt)
     = MessageService._show_icons cls
  /\ MessageService._show_timestamps (MessageService.configure cls icons None fmt)
     = MessageService._show_timestamps cls
  /\ MessageService._timestamp_format (MessageService.configure cls icons stamps None)
     = MessageService._timestamp_format cls
  /\ MessageService._custom_styles (MessageService.configure cls icons stamps fmt)
     = MessageService._custom_styles cls
  /\ MessageService.configure (MessageService.configure cls icons stamps fmt)
       icons2 stamps2 fmt2
     = MessageService.configure cls (later icons2 icons) (later stamps2 stamps)
         (later fmt2 fmt)
  /\ MessageService.configure cls None None None = cls
  /\ (forall k, MessageService.resolve (MessageService.configure cls icons stamps fmt) k
                = MessageService.resolve cls k)
  /\ (forall name prefix color style icon,
         MessageService.register_style (MessageService.configure cls icons stamps fmt)
           name prefix color style icon
         = MessageService.configure
             (MessageService.register_style cls name prefix color style icon)
             icons stamps fmt).
Proof.
  do 7 (split; [reflexivity|]).
  split.
  { unfold MessageService.configure. cbn.
    destruct icons2, stamps2, fmt2; reflexivity. }
  split; [now destruct cls|].
  split; [intros [t|name]; reflexivity|].
  reflexivity.
Qed.

Lemma configure_settings_witness :
  MessageService._show_timestamps
    (MessageService.configure MessageService.initial None (Some true) None) = true
  /\ MessageService._show_icons
       (MessageService.configure MessageService.initial None (Some true) None) = true
  /\ MessageService._timestamp_format
       (MessageService.configure MessageService.initial (Some false) None
          (Some (lit "%H:%M"))) = lit "%H:%M".
Proof.
  split; [|split].
  - exact (proj1 (proj2 (configure_settings MessageService.initial None None None None
                           None None)) true).
  - exact (proj1 (proj2 (proj2 (proj2 (configure_settings MessageService.initial None
                                         (Some true) None None None None))))).
  - exact (proj1 (proj2 (proj2 (configure_settings MessageService.initial (Some false)
                                  None None None None None))) (lit "%H:%M")).
Defined.

Section Visible.
Import MessageService.



End Visible.




(** ** [ProgressBar]: sums of updates and a total of zero *)

Lemma last_cons {A} (x d : A) l : List.last (x :: l) d = List.last l x.
Proof.
  revert x d. induction l as [|y l IH]; intros x d; [reflexivity|].
  change (List.last (x :: y :: l) d) with (List.last (y :: l) d).
  now rewrite !IH.
Qed.

Lemma final_cons `{FloatFormat} self now value increment calls :
  final self ((now, value, increment) :: calls)
  = final (ProgressBar.advance self value increment) calls.
Proof.
  unfold final. cbn [run]. rewrite update_state. apply last_cons.
Qed.

Lemma final_adds_up `{FloatFormat} self calls :
  Forall stepwise calls ->
  ProgressBar.current self <= ProgressBar.total self ->
  ProgressBar.current (final self calls)
  = Z.min (ProgressBar.current self + increments calls) (ProgressBar.total self)
  /\ ProgressBar.total (final self calls) = ProgressBar.total self.
Proof.
  revert self. induction calls as [|[[now value] increment] calls IH]; intros self Hall Hc.
  - cbn. split; [lia|reflexivity].
  - apply Forall_cons_iff in Hall as [[-> Hi] Hall].
    rewrite final_cons.
    destruct (IH (ProgressBar.advance self None increment) Hall) as [IH1 IH2];
      [cbn; lia|].
    rewrite IH1, IH2. cbn [increments fold_right snd]. fold (increments calls).
    assert (0 <= increments calls).
    { clear -Hall. induction Hall as [|[[n v] i] l [_ Hi] _ IHl]; cbn; [lia|].
      fold (increments l). lia. }
    cbn. split; [lia|reflexivity].
Qed.

(** X12: the calls add up.  From an object whose [current] does not exceed
    [total], a sequence of [update] calls without a value and with
    increments that are not negative leaves [current] at the sum of the
    old [current] and the increments, cut at [total]; [finish] then puts
    it at [total], whatever came before. *)
Theorem updates_add_up `{FloatFormat} (self : ProgressBar.t) (calls : list call)
        (now : float) :
  Forall stepwise calls ->
  ProgressBar.current self <= ProgressBar.total self ->
  ProgressBar.current (final self calls)
  = Z.min (ProgressBar.current self + increments calls) (ProgressBar.total self)
  /\ ProgressBar.current (fst (ProgressBar.finish now (final self calls)))
     = ProgressBar.total self.
Proof.
  intros Hall Hc. destruct (final_adds_up self calls Hall Hc) as [H1 H2].
  split; [exact H1|].
  unfold ProgressBar.finish, ProgressBar.update. cbn. rewrite H2. lia.
Qed.

Lemma updates_add_up_witness :
  exists self,
    ProgressBar.__init__ 0%float 4 [] 50 (lit "#") (lit ".") true true = ret self
    /\ ProgressBar.current
         (@final bare_format self
            [(1%float, None, 1); (2%float, None, 1); (3%float, None, 1)]) = 3
    /\ ProgressBar.current
         (@final bare_format self
            [(1%float, None, 3); (2%float, None, 3)]) = 4.
Proof.
  eexists. split; [reflexivity|]. split.
  - refine (proj1 (@updates_add_up bare_format _
                     [(1%float, None, 1); (2%float, None, 1); (3%float, None, 1)]
                     0%float _ _)).
    + repeat constructor; cbn; lia.
    + cbn. lia.
  - refine (proj1 (@updates_add_up bare_format _
                     [(1%float, None, 3); (2%float, None, 3)] 0%float _ _)).
    + repeat constructor; cbn; lia.
    + cbn. lia.
Defined.

Lemma render_zero_total `{FloatFormat} now self :
  ProgressBar.total self = 0 ->
  ProgressBar._render now self = raise ZeroDivisionError.
Proof.
  intros Ht. unfold ProgressBar._render.
  assert (Hr : ProgressBar.ratio self = raise ZeroDivisionError)
    by now apply ratio_zero_division.
  now rewrite Hr.
Qed.

(** X13: a bar whose [total] is zero cannot be drawn.  [update], [finish]
    and [__enter__] all raise [ZeroDivisionError], each after it has
    assigned [current]: the smaller of zero and what was asked for. *)
Theorem zero_total_raises `{FloatFormat} (now : float) (self : ProgressBar.t)
        (value : option Z) (increment : Z) :
  ProgressBar.total self = 0 ->
  snd (ProgressBar.update now self value increment) = raise ZeroDivisionError
  /\ snd (ProgressBar.finish now self) = raise ZeroDivisionError
  /\ snd (ProgressBar.__enter__ now self) = raise ZeroDivisionError
  /\ ProgressBar.current (fst (ProgressBar.update now self value increment))
     = Z.min (default (ProgressBar.current self + increment) value) 0
  /\ ProgressBar.current (fst (ProgressBar.finish now self)) = 0
  /\ ProgressBar.current (fst (ProgressBar.__enter__ now self)) = 0.
Proof.
  intros Ht.
  assert (Hu : forall v i, snd (ProgressBar.update now self v i) = raise ZeroDivisionError).
  { intros v i. unfold ProgressBar.update. cbn [snd].
    apply render_zero_total. now rewrite advance_total. }
  split; [apply Hu|]. split.
  { unfold ProgressBar.finish.
    specialize (Hu (Some (ProgressBar.total self)) 1).
    destruct (ProgressBar.update now self (Some (ProgressBar.total self)) 1) as [s o].
    cbn [snd] in *. now rewrite Hu. }
  split; [apply Hu|]. split.
  { destruct value; cbn; rewrite Ht; reflexivity. }
  split; cbn; rewrite Ht; reflexivity.
Qed.

Lemma zero_total_raises_witness :
  exists self,
    ProgressBar.__init__ 0%float 0 [] 50 (lit "#") (lit ".") true true = ret self
    /\ snd (@ProgressBar.__enter__ bare_format 1%float self) = raise ZeroDivisionError.
Proof.
  eexists. split; [reflexivity|].
  refine (proj1 (proj2 (proj2 (@zero_total_raises bare_format 1%float _ None 1 _)))).
  reflexivity.
Defined.

(** ** [TablePrinter.print]: outcome and alignment *)



Section TableAligned.
Import TablePrinter.



End TableAligned.



Section TableRows.
Import TablePrinter.

Lemma widest_app i rows new start :
  widest i (rows ++ new) start = widest i new (widest i rows start).
Proof. unfold widest. apply fold_left_app. Qed.

Lemma add_rows_fold self new_rows :
  add_rows self new_rows = fold_left add_row new_rows self.
Proof.
  revert self. induction new_rows as [|row new_rows IH]; intros self.
  - destruct self. unfold add_rows, with_rows. cbn. now rewrite app_nil_r.
  - cbn [fold_left]. rewrite <- IH. unfold add_rows, add_row, with_rows. cbn.
    now rewrite <- app_assoc.
Qed.

End TableRows.

(** X16: adding rows.  [add_rows] is [add_row] for each row in turn; it
    keeps the headers, never narrows a column, and a table every line of
    which can be formatted stays one when no new row is longer than the
    headers. *)
Theorem add_rows_widths (self : TablePrinter.t) (new_rows : list (list TablePrinter.cell))
        (i : nat) (w : Z) :
  TablePrinter.add_rows self new_rows = fold_left TablePrinter.add_row new_rows self
  /\ TablePrinter.headers (TablePrinter.add_rows self new_rows)
     = TablePrinter.headers self
  /\ (TablePrinter.col_widths self !! i = Some w ->
      exists w',
        TablePrinter.col_widths (TablePrinter.add_rows self new_rows) !! i = Some w'
        /\ w <= w')
  /\ (fits self ->
      Forall (fun row => (length row <= length (TablePrinter.headers self))%nat)
             new_rows ->
      fits (TablePrinter.add_rows self new_rows)).
Proof.
  split; [apply add_rows_fold|]. split; [reflexivity|]. split.
  - intros Hw.
    destruct (TablePrinter.headers self !! i) as [h|] eqn:Hh.
    2: { apply lookup_ge_None in Hh. apply lookup_lt_Some in Hw.
         rewrite col_widths_length in Hw. lia. }
    rewrite (col_widths_lookup self i h Hh) in Hw. injection Hw as <-.
    eexists. split; [apply (col_widths_lookup _ i h); exact Hh|].
    cbn [TablePrinter.add_rows TablePrinter.with_rows TablePrinter.rows
         TablePrinter.padding].
    rewrite widest_app.
    pose proof (widest_ge_start i new_rows
                  (TablePrinter.widest i (TablePrinter.rows self) (len h))).
    lia.
  - intros [Hla Hrows] Hnew. split; [exact Hla|].
    cbn. apply Forall_app. now split.
Qed.

(** ** [ArtService]: the lines of a box and the banner *)

Section Lines.
Import ArtService.

Lemma split_lines_cons c rest :
  split_lines (c :: rest)
  = if (c =? 10)%N then [] :: split_lines rest
    else match split_lines rest with
         | l :: ls => (c :: l) :: ls
         | [] => [[c]]
         end.
Proof. reflexivity. Qed.

Lemma split_lines_nonempty text : split_lines text <> [].
Proof.
  induction text as [|c text IH]; [discriminate|].
  rewrite split_lines_cons. destruct (c =? 10)%N; [discriminate|].
  now destruct (split_lines text).
Qed.

Lemma join_cons sep (p : str) ps :
  ps <> [] -> join sep (p :: ps) = p ++ sep ++ join sep ps.
Proof. now destruct ps. Qed.

Lemma join_split text : join [10%N] (split_lines text) = text.
Proof.
  induction text as [|c text IH]; [reflexivity|].
  rewrite split_lines_cons. destruct (c =? 10)%N eqn:Hc.
  - apply N.eqb_eq in Hc. subst c.
    rewrite join_cons by apply split_lines_nonempty. now rewrite IH.
  - pose proof (split_lines_nonempty text) as Hne.
    destruct (split_lines text) as [|l ls]; [contradiction|].
    destruct ls as [|l' ls].
    + cbn in *. now rewrite IH.
    + rewrite (join_cons _ (c :: l)) by discriminate.
      rewrite (join_cons _ l) in IH by discriminate.
      rewrite <- IH. reflexivity.
Qed.

Lemma split_lines_line l : one_line l -> split_lines l = [l].
Proof.
  induction l as [|c l IH]; intros Hl; [reflexivity|].
  rewrite split_lines_cons.
  assert (Hc : (c =? 10)%N = false).
  { apply N.eqb_neq. intros ->. apply Hl. now left. }
  rewrite Hc, IH; [reflexivity|]. intros Hin. apply Hl. now right.
Qed.

Lemma split_lines_first l rest :
  one_line l -> split_lines (l ++ 10%N :: rest) = l :: split_lines rest.
Proof.
  induction l as [|c l IH]; intros Hl.
  - cbn [app]. now rewrite split_lines_cons, N.eqb_refl.
  - rewrite <- app_comm_cons, split_lines_cons.
    assert (Hc : (c =? 10)%N = false).
    { apply N.eqb_neq. intros ->. apply Hl. now left. }
    rewrite Hc, IH; [reflexivity|]. intros Hin. apply Hl. now right.
Qed.

Lemma split_join lines :
  lines <> [] -> Forall one_line lines ->
  split_lines (join [10%N] lines) = lines.
Proof.
  intros Hne Hall. induction Hall as [|l ls Hl _ IH]; [contradiction|].
  destruct ls as [|l' ls].
  - now apply split_lines_line.
  - rewrite join_cons by discriminate.
    change ([10%N] ++ join [10%N] (l' :: ls)) with (10%N :: join [10%N] (l' :: ls)).
    rewrite split_lines_first by assumption.
    now rewrite IH.
Qed.

Lemma split_lines_one_line text : Forall one_line (split_lines text).
Proof.
  induction text as [|c text IH]; [repeat constructor; intros []|].
  rewrite split_lines_cons. destruct (c =? 10)%N eqn:Hc.
  - constructor; [intros []|exact IH].
  - apply N.eqb_neq in Hc.
    destruct (split_lines text) as [|l ls]; [repeat constructor; intros [?|[]]; congruence|].
    apply Forall_cons in IH as [Hl Hls]. constructor; [|exact Hls].
    intros [?|?]; [congruence|now apply Hl].
Qed.

Lemma split_lines_length text :
  length (split_lines text) = S (count_occ N.eq_dec text 10%N).
Proof.
  induction text as [|c text IH]; [reflexivity|].
  rewrite split_lines_cons. cbn [count_occ].
  destruct (N.eq_dec c 10%N) as [->|Hc].
  - cbn. now rewrite IH.
  - apply N.eqb_neq in Hc. rewrite Hc.
    pose proof (split_lines_nonempty text).
    destruct (split_lines text) as [|l ls]; [contradiction|]. exact IH.
Qed.

End Lines.

(** X17: the lines of a box.  The text is cut at its line feeds: the lines
    hold none, there is one more of them than line feeds in the text, and
    joined with line feeds they give the text back; cutting lines that
    hold no line feed, joined, gives them back.  A box has one line for
    each of them between its two borders. *)
Theorem split_lines_round_trip (text title : str) (padding : Z)
        (border_color title_color : str) (lines : list str) :
  join [10%N] (ArtService.split_lines text) = text
  /\ Forall one_line (ArtService.split_lines text)
  /\ length (ArtService.split_lines text) = S (count_occ N.eq_dec text 10%N)
  /\ (lines <> [] -> Forall one_line lines ->
      ArtService.split_lines (join [10%N] lines) = lines)
  /\ length (ArtService.box_lines text title padding border_color title_color)
     = (count_occ N.eq_dec text 10%N + 3)%nat.
Proof.
  split; [apply join_split|]. split; [apply split_lines_one_line|].
  split; [apply split_lines_length|]. split; [apply split_join|].
  unfold ArtService.box_lines. cbn [app length].
  rewrite length_app, length_map, split_lines_length. cbn. lia.
Qed.

Section Banner.
Import ArtService.

Lemma selected_font_simple font : selected_font font = simple_font.
Proof. unfold selected_font. now case_bool_decide. Qed.

Lemma append_glyph_three font char a b c :
  append_glyph font char 0 3 [a; b; c]
  = [a ++ glyph font char; b ++ glyph font char; c ++ glyph font char].
Proof. reflexivity. Qed.

Lemma banner_fold font chars a :
  fold_left (fun lines char => append_glyph font char 0 3 lines) chars [a; a; a]
  = repeat (a ++ concat (map (glyph font) chars)) 3.
Proof.
  revert a. induction chars as [|c chars IH]; intros a.
  - cbn. now rewrite app_nil_r.
  - cbn [fold_left map concat]. rewrite append_glyph_three, IH.
    now rewrite <- app_assoc.
Qed.

End Banner.

(** X18: a banner is three times the same line: the colour, the glyphs of
    the upper-cased text one after the other, and the reset.  A character
    the font does not hold counts as a blank: three spaces.  The font and
    width arguments change nothing. *)
Theorem banner_lines (upper : str -> str) (text font color : str) (width : option Z) :
  let line := color ++ glyphs (upper text) ++ Color.RESET in
  ArtService.banner upper text font color width
  = line ++ [10%N] ++ line ++ [10%N] ++ line
  /\ ArtService.banner upper text font color width
     = ArtService.banner upper text (lit "simple") color None
  /\ (forall char, ArtService.simple_font char = None ->
                   ArtService.glyph ArtService.simple_font char = lit "   ").
Proof.
  intros line.
  assert (H : forall f w, ArtService.banner upper text f color w
                          = line ++ [10%N] ++ line ++ [10%N] ++ line).
  { intros f w. unfold ArtService.banner.
    rewrite selected_font_simple.
    change (repeat [] 3) with [@nil N; []; []].
    rewrite banner_fold. reflexivity. }
  split; [apply H|]. split; [now rewrite !H|].
  intros char Hc. unfold ArtService.glyph. now rewrite Hc.
Qed.

(** ** [AnimationService.typing_effect] and [Spinner] *)

Lemma strip_colors_single ch rest :
  no_bracket_first rest ->
  Color.strip_colors ([ch] ++ rest) = ch :: Color.strip_colors rest.
Proof. apply strip_colors_char. Qed.

Section Typing.
Import AnimationService.
Context `{Sleeping}.

Lemma typing_loop_returns speed color pause_chars pause_duration text :
  Forall (fun char => sleep (pause_after speed pause_chars pause_duration char) = ret tt)
         text ->
  typing_loop speed color pause_chars pause_duration text
  = (map (fun char => color ++ [char] ++ Color.RESET) text, ret tt).
Proof.
  induction 1 as [|char text Hc _ IH]; [reflexivity|].
  cbn [typing_loop map]. unfold pause_after in Hc.
  assert (E : (if is_pause_char pause_chars char then sleep pause_duration
               else sleep speed) = ret tt).
  { now destruct (is_pause_char pause_chars char). }
  rewrite E, IH. reflexivity.
Qed.

Lemma strip_typed color text rest :
  colour color ->
  Color.strip_colors
    (concat (map (fun char => color ++ [char] ++ Color.RESET) text) ++ rest)
  = text ++ Color.strip_colors rest.
Proof.
  intros Hc. induction text as [|char text IH]; [reflexivity|].
  cbn [map concat]. rewrite <- !app_assoc.
  rewrite (strip_colors_colour _ _ Hc).
  rewrite (strip_colors_single char (Color.RESET ++ _)) by (cbn; discriminate).
  rewrite (strip_colors_token _ _ reset_is_token). now rewrite IH.
Qed.

End Typing.

(** X19: what [typing_effect] types.  When the pause after each character
    is one [time.sleep] accepts and the colour is a colour argument, one
    chunk is written for each character and a line feed at the end, and
    the chunks together, escape sequences stripped, are the text and the
    line feed, whatever characters the text holds.  When the pause after
    the first character is refused, that character has been written and
    the exception is passed on. *)
Theorem typing_effect_types `{Sleeping} (text : str) (speed : float)
        (color pause_chars : str) (pause_duration : float) :
  colour color ->
  (Forall (fun char => sleep (pause_after speed pause_chars pause_duration char) = ret tt)
          text ->
   exists chunks,
     AnimationService.typing_effect text speed color pause_chars pause_duration
     = (chunks, ret tt)
     /\ length chunks = S (length text)
     /\ Color.strip_colors (concat chunks) = text ++ [10%N])
  /\ (forall char rest e,
         text = char :: rest ->
         sleep (pause_after speed pause_chars pause_duration char) = raise e ->
         AnimationService.typing_effect text speed color pause_chars pause_duration
         = ([color ++ [char] ++ Color.RESET], raise e)).
Proof.
  intros Hc. split.
  - intros Hall. unfold AnimationService.typing_effect.
    rewrite typing_loop_returns by assumption.
    eexists. split; [reflexivity|]. split.
    + rewrite length_app, length_map. cbn. lia.
    + rewrite concat_app. cbn [concat]. rewrite app_nil_r.
      now rewrite strip_typed.
  - intros char rest e -> He. unfold AnimationService.typing_effect.
    cbn [AnimationService.typing_loop]. unfold pause_after in He.
    assert (E : (if AnimationService.is_pause_char pause_chars char
                 then sleep pause_duration else sleep speed) = raise e).
    { now destruct (AnimationService.is_pause_char pause_chars char). }
    rewrite E. reflexivity.
Qed.

Lemma typing_effect_types_witness :
  exists chunks,
    @AnimationService.typing_effect checked_sleep (lit "Hi.") 0.0625%float Color.WHITE
      (lit ".!?") 0.25%float = (chunks, ret tt)
    /\ Color.strip_colors (concat chunks) = lit "Hi." ++ [10%N].
Proof.
  destruct (proj1 (@typing_effect_types checked_sleep (lit "Hi.") 0.0625%float
                     Color.WHITE (lit ".!?") 0.25%float
                     (or_intror (style_one (lit "37") eq_refl))))
    as (chunks & E & _ & Hs).
  - repeat constructor.
  - exists chunks. split; [exact E|exact Hs].
Defined.

Section Spin.
Import Spinner.
Context `{Sleeping}.

Lemma turn_returns self :
  frames self <> [] ->
  sleep (delay self) = ret tt ->
  exists frame,
    frame_at self 0 = Some frame
    /\ turn self
       = ([[13%N] ++ frame ++ lit " " ++ message self],
          ret {| message := message self; delay := delay self; frames := frames self;
                 _running := _running self;
                 _current_frame := _current_frame self + 1 |}).
Proof.
  intros Hne Hs. unfold frame_at.
  assert (Hlen : 0 < len (frames self)).
  { unfold len. destruct (frames self); [contradiction|cbn; lia]. }
  rewrite Z.add_0_r.
  pose proof (Z.mod_pos_bound (_current_frame self) (len (frames self)) Hlen) as Hk.
  set (k := _current_frame self mod len (frames self)) in *.
  assert (Hmod : py_mod (_current_frame self) (len (frames self)) = ret k).
  { unfold py_mod.
    now replace (len (frames self) =? 0) with false by (symmetry; apply Z.eqb_neq; lia). }
  destruct (lookup_lt_is_Some_2 (frames self) (Z.to_nat k)) as [frame Hf].
  { unfold len in Hk. lia. }
  assert (Hitem : item (frames self) k = ret frame).
  { unfold item, index.
    replace ((0 <=? k) && (k <? len (frames self))) with true
      by (symmetry; apply andb_true_iff; split; [apply Z.leb_le|apply Z.ltb_lt]; lia).
    now rewrite Hf. }
  exists frame. split; [exact Hf|].
  unfold turn. rewrite Hmod. cbn [then_ lift ret]. rewrite Hitem.
  cbn [then_ lift ret write pure app]. rewrite Hs. reflexivity.
Qed.

Lemma turns_return n : forall self,
  frames self <> [] ->
  sleep (delay self) = ret tt ->
  exists chunks self',
    turns n self = (chunks, ret self')
    /\ length chunks = n
    /\ _current_frame self' = _current_frame self + Z.of_nat n
    /\ message self' = message self /\ frames self' = frames self
    /\ delay self' = delay self /\ _running self' = _running self
    /\ forall k, (k < n)%nat ->
         exists frame,
           frame_at self k = Some frame
           /\ chunks !! k = Some ([13%N] ++ frame ++ lit " " ++ message self).
Proof.
  induction n as [|n IH]; intros self Hne Hs.
  - exists [], self. repeat split; try reflexivity; try lia.
  - destruct (turn_returns self Hne Hs) as (frame & Hf & Ht).
    cbn [turns]. rewrite Ht.
    set (self1 := {| message := message self; delay := delay self;
                     frames := frames self; _running := _running self;
                     _current_frame := _current_frame self + 1 |}).
    destruct (IH self1) as (chunks & self' & E & Hlen & Hcf & Hm & Hfr & Hd & Hr & Hk);
      [assumption|assumption|].
    cbn [then_ ret]. fold self1. rewrite E. cbn [app].
    eexists _, self'. split; [reflexivity|].
    split; [cbn; now rewrite Hlen|].
    split; [rewrite Hcf; cbn; lia|].
    repeat (split; [assumption|]).
    intros [|k] Hlt.
    + exists frame. split; [exact Hf|reflexivity].
    + destruct (Hk k) as (fk & Hfk & Hck); [lia|].
      exists fk. split; [|exact Hck].
      unfold frame_at in *. cbn in Hfk.
      now replace (_current_frame self + Z.of_nat (S k))
        with (_current_frame self + 1 + Z.of_nat k) by lia.
Qed.

End Spin.

(** X20: a spinner spins.  A spinner has frames whatever the constructor is
    given.  As long as it has frames and [time.sleep] accepts its delay,
    [n] turns of its loop write [n] chunks and raise nothing: the [k]-th
    is the carriage return, the frame at [(_current_frame + k) mod
    len(frames)], a blank and the message; afterwards [_current_frame] is
    larger by [n] and nothing else has changed.  [stop] blanks
    [len(message) + 2] columns: what a frame of one character, the blank
    and the message take. *)
Theorem spinner_turns `{Sleeping} (self : Spinner.t) (n : nat) :
  Spinner.frames self <> [] ->
  sleep (Spinner.delay self) = ret tt ->
  (exists chunks self',
      Spinner.turns n self = (chunks, ret self')
      /\ length chunks = n
      /\ Spinner._current_frame self' = Spinner._current_frame self + Z.of_nat n
      /\ Spinner.message self' = Spinner.message self
      /\ Spinner.frames self' = Spinner.frames self
      /\ Spinner.delay self' = Spinner.delay self
      /\ Spinner._running self' = Spinner._running self
      /\ forall k, (k < n)%nat ->
           exists frame,
             frame_at self k = Some frame
             /\ chunks !! k
                = Some ([13%N] ++ frame ++ lit " " ++ Spinner.message self))
  /\ (forall message delay frames,
         Spinner.frames (Spinner.__init__ message delay frames) <> []
         /\ Spinner.frames (Spinner.start (Spinner.__init__ message delay frames)) <> [])
  /\ (forall final_message frame,
         len frame = 1 ->
         exists blank rest,
           snd (Spinner.stop self final_message) = ([13%N] ++ blank ++ [13%N]) :: rest
           /\ blank = spaces (len (frame ++ lit " " ++ Spinner.message self))).
Proof.
  intros Hne Hs. split; [now apply turns_return|]. split.
  - intros message delay frames. cbn. destruct frames; split; discriminate.
  - intros final_message frame Hf. eexists _, _. split; [reflexivity|].
    unfold spaces. f_equal. rewrite !len_app, Hf.
    change (len (lit " ")) with 1. lia.
Qed.

Lemma spinner_turns_witness :
  exists chunks self',
    @Spinner.turns checked_sleep 12
      (Spinner.start (Spinner.__init__ (lit "Loading") 0.125%float [])) = (chunks, ret self')
    /\ length chunks = 12%nat
    /\ Spinner._current_frame self' = 12.
Proof.
  destruct (proj1 (@spinner_turns checked_sleep
                     (Spinner.start (Spinner.__init__ (lit "Loading") 0.125%float []))
                     12 ltac:(discriminate) eq_refl))
    as (chunks & self' & E & Hlen & Hcf & _).
  exists chunks, self'. split; [exact E|]. split; [exact Hlen|exact Hcf].
Defined.

(** ** [GraphPrinter.bar_chart] *)

Section Chart.
Import GraphPrinter.
Context `{FloatStr}.










End Chart.





(** ** [ConsoleUtils] *)

Lemma match_params_open s :
  Forall (fun c => c <> 109%N) s -> Color.match_params s = None.
Proof.
  induction 1 as [|c s Hc _ IH]; [reflexivity|].
  cbn. destruct (Color.is_param c); [exact IH|].
  apply N.eqb_neq in Hc. now rewrite Hc.
Qed.

Lemma strip_colors_open s :
  Forall (fun c => c <> ANSIColor.ESC /\ c <> 109%N) s ->
  Color.strip_colors (ANSIColor.ESC :: 91%N :: s) = ANSIColor.ESC :: 91%N :: s.
Proof.
  intros Hs. rewrite strip_colors_unfold. cbn.
  rewrite match_params_open by (eapply List.Forall_impl; [|exact Hs]; cbn; tauto).
  f_equal. apply (plain_escape_free (91%N :: s)).
  constructor; [discriminate|].
  eapply List.Forall_impl; [|exact Hs]. cbn. tauto.
Qed.

Lemma str_of_int_open z :
  Forall (fun c => c <> ANSIColor.ESC /\ c <> 109%N) (str_of_int z).
Proof.
  assert (H : forall d, Forall (fun c => c <> ANSIColor.ESC /\ c <> 109%N)
                               (lit (NilEmpty.string_of_uint d))).
  { induction d; cbn; constructor; try (split; discriminate); assumption. }
  assert (H0 : forall d, Forall (fun c => c <> ANSIColor.ESC /\ c <> 109%N)
                                (lit (NilZero.string_of_uint d))).
  { intros d. unfold NilZero.string_of_uint.
    destruct d; try apply H. repeat constructor; discriminate. }
  unfold str_of_int. destruct z as [|p|p]; cbn [Z.to_int NilZero.string_of_int].
  - apply H0.
  - apply H0.
  - cbn. constructor; [split; discriminate|]. apply H0.
Qed.

(** X23: [strip_colors] removes colours, not cursor movements.  The
    sequences [hide_cursor], [show_cursor], [move_cursor],
    [save_position] and [restore_position] write are left where they are
    by [strip_colors], so each of them counts in full in a visible
    length. *)
Theorem cursor_codes_kept (x y : Z) (chunk : str) :
  In chunk (fst ConsoleUtils.hide_cursor ++ fst ConsoleUtils.show_cursor
            ++ fst (ConsoleUtils.move_cursor x y)
            ++ fst ConsoleUtils.save_position
            ++ fst ConsoleUtils.restore_position) ->
  Color.strip_colors chunk = chunk
  /\ Color.visible_len chunk = len chunk
  /\ 3 <= len chunk.
Proof.
  intros Hin.
  assert (H : Color.strip_colors chunk = chunk /\ 3 <= len chunk).
  { unfold ConsoleUtils.hide_cursor, ConsoleUtils.show_cursor,
      ConsoleUtils.move_cursor, ConsoleUtils.save_position,
      ConsoleUtils.restore_position, write in Hin.
    cbn [fst app In] in Hin.
    destruct Hin as [<-|[<-|[<-|[<-|[<-|[]]]]]].
    1, 2, 4, 5: split; [reflexivity|vm_compute; discriminate].
    split.
    - apply (strip_colors_open (str_of_int y ++ lit ";" ++ str_of_int x ++ lit "H")).
      repeat (apply Forall_app; split); try apply str_of_int_open;
        repeat constructor; discriminate.
    - unfold len. cbn [length]. rewrite !length_app. cbn. lia. }
  destruct H as [Hs Hl]. split; [exact Hs|]. split; [|exact Hl].
  unfold Color.visible_len. now rewrite Hs.
Qed.

Lemma cursor_codes_kept_witness :
  Color.visible_len (ANSIColor.ESC :: lit "[12;40H") = 8.
Proof.
  assert (Hin : In (ANSIColor.ESC :: lit "[12;40H")
                   (fst ConsoleUtils.hide_cursor ++ fst ConsoleUtils.show_cursor
                    ++ fst (ConsoleUtils.move_cursor 40 12)
                    ++ fst ConsoleUtils.save_position
                    ++ fst ConsoleUtils.restore_position)).
  { right. right. left. reflexivity. }
  rewrite (proj1 (proj2 (cursor_codes_kept 40 12 _ Hin))). reflexivity.
Defined.

(** ** [GlitchPrinterService] *)

Section Glitch.
Import GlitchPrinterService.
Context `{Random}.

Lemma choice_in draw (chars : str) :
  chars <> [] -> exists g, choice draw chars = ret g /\ In g chars.
Proof.
  intros Hne. unfold choice, index.
  destruct chars as [|c chars]; [contradiction|].
  destruct (lookup_lt_is_Some_2 (c :: chars) (randbelow draw (length (c :: chars))))
    as [g Hg].
  { apply randbelow_lt. cbn. lia. }
  rewrite Hg. exists g. split; [reflexivity|].
  apply list_elem_of_In. eapply list_elem_of_lookup_2, Hg.
Qed.

Lemma glitch_from_glitched self i j rest draw :
  glitch_chars self <> [] ->
  exists line draw',
    glitch_from self i j rest draw = ret (line, draw')
    /\ glitched (glitch_chars self) i j rest line.
Proof.
  intros Hne. revert j draw. induction rest as [|c rest IH]; intros j draw.
  - now exists [], draw.
  - cbn [glitch_from glitched].
    destruct (j <? i)%nat.
    + cbn [bind ret]. destruct (IH (S j) draw) as (line & draw' & -> & Hg).
      now exists (c :: line), draw'.
    + destruct (c =? 32)%N.
      * cbn [bind ret]. destruct (IH (S j) draw) as (line & draw' & -> & Hg).
        now exists (32%N :: line), draw'.
      * destruct (choice_in draw (glitch_chars self) Hne) as (g & -> & Hin).
        cbn [bind ret]. destruct (IH (S j) (S draw)) as (line & draw' & -> & Hg).
        now exists (g :: line), draw'.
Qed.

Lemma glitched_length chars i j text line :
  glitched chars i j text line -> length line = length text.
Proof.
  revert j line. induction text as [|c text IH]; intros j [|g line];
    cbn [glitched length]; try tauto.
  intros [_ Hg]. f_equal. now apply (IH (S j)).
Qed.

Lemma glitched_done chars i j text line :
  (j + length text <= i)%nat -> glitched chars i j text line -> line = text.
Proof.
  revert j line. induction text as [|c text IH]; intros j [|g line];
    cbn [glitched length]; try tauto.
  intros Hle [Hg Hrest].
  replace (j <? i)%nat with true in Hg by (symmetry; apply Nat.ltb_lt; lia).
  subst g. f_equal. apply (IH (S j)); [lia|exact Hrest].
Qed.

Lemma glitched_lookup chars i j text line k c g :
  glitched chars i j text line ->
  text !! k = Some c -> line !! k = Some g ->
  ((j + k < i)%nat -> g = c)
  /\ (c = 32%N -> g = 32%N)
  /\ (g = c \/ In g chars).
Proof.
  revert j line k. induction text as [|c0 text IH]; intros j [|g0 line] k;
    cbn [glitched]; try tauto; try discriminate.
  intros [Hg Hrest] Hc Hk. destruct k as [|k].
  - cbn in Hc, Hk. injection Hc as ->. injection Hk as ->.
    destruct (j <? i)%nat eqn:Hji.
    + subst g. repeat split; auto.
    + apply Nat.ltb_ge in Hji. destruct (c =? 32)%N eqn:Hb.
      * apply N.eqb_eq in Hb. subst. repeat split; auto; lia.
      * apply N.eqb_neq in Hb. repeat split; auto; [lia|congruence].
  - cbn in Hc, Hk. destruct (IH (S j) line k Hrest Hc Hk) as (H1 & H2 & H3).
    repeat split; auto. intros Hlt. apply H1. lia.
Qed.

Context `{Sleeping}.

Lemma glitch_frames_group self text delay iterations n pause i todo draw :
  glitch_chars self <> [] ->
  PyFloat.of_int iterations = ret n ->
  PyFloat.fdiv delay n = ret pause ->
  sleep pause = ret tt ->
  exists group draw',
    glitch_frames self text delay iterations i todo draw = (group, ret draw')
    /\ glitch_group (glitch_chars self) text todo i group.
Proof.
  intros Hne Hn Hp Hs. revert draw. induction todo as [|todo IH]; intros draw.
  - exists [], draw. split; [reflexivity|]. split; [reflexivity|constructor].
  - cbn [glitch_frames].
    destruct (glitch_from_glitched self i 0 text draw Hne) as (line & draw1 & -> & Hg).
    rewrite Hn. cbn [bind ret]. rewrite Hp.
    destruct (IH draw1) as (group & draw' & E & Hlen & Hall).
    cbn [lift then_ ret write]. rewrite Hs. cbn [then_ ret app]. rewrite E.
    exists (([13%N] ++ line) :: group), draw'. split; [reflexivity|].
    split; [cbn; now rewrite Hlen|].
    constructor; [now exists line|exact Hall].
Qed.

Lemma glitch_steps_groups self text delay iterations n pause steps draw :
  glitch_chars self <> [] ->
  PyFloat.of_int iterations = ret n ->
  PyFloat.fdiv delay n = ret pause ->
  sleep pause = ret tt ->
  exists groups draw',
    glitch_steps self text delay iterations steps draw = (concat groups, ret draw')
    /\ Forall2 (glitch_group (glitch_chars self) text (Z.to_nat iterations))
               steps groups.
Proof.
  intros Hne Hn Hp Hs. revert draw. induction steps as [|i steps IH]; intros draw.
  - exists [], draw. split; [reflexivity|constructor].
  - cbn [glitch_steps].
    destruct (glitch_frames_group self text delay iterations n pause i
                (Z.to_nat iterations) draw Hne Hn Hp Hs) as (group & draw1 & -> & Hg).
    destruct (IH draw1) as (groups & draw' & E & Hall).
    cbn [then_ ret]. rewrite E.
    exists (group :: groups), draw'. split; [reflexivity|].
    now constructor.
Qed.

Lemma glitch_steps_idle self text delay steps draw iterations :
  iterations <= 0 ->
  glitch_steps self text delay iterations steps draw = ([], ret draw).
Proof.
  intros Hi. induction steps as [|i steps IH]; [reflexivity|].
  cbn [glitch_steps]. replace (Z.to_nat iterations) with 0%nat by lia.
  cbn. now rewrite IH.
Qed.

End Glitch.

(** X24: the glitch effect.  With [iterations] of zero or less only the
    final chunk is written, and nothing is drawn, divided or slept.
    Otherwise, when the service has glitch characters and [time.sleep]
    accepts [delay / iterations], the call returns whatever the generator
    draws: it writes, for each progress [i] from 0 to [len(text)],
    [iterations] frames, and then the carriage return, the text and a line
    feed.  A frame of progress [i] is as long as the text, shows the text
    below position [i], a blank for every blank, and glitch characters
    elsewhere; the frames of the last progress show the text itself. *)
Theorem glitch_line_frames `{Random} `{Sleeping} (self : GlitchPrinterService.t)
        (text : str) (delay : float) (iterations : Z) (draw : nat) :
  let chars := GlitchPrinterService.glitch_chars self in
  let final := [13%N] ++ text ++ [10%N] in
  chars <> [] ->
  (iterations <= 0 ->
   GlitchPrinterService.print_glitch_line self text delay iterations draw
   = ([final], ret draw))
  /\ (forall n pause,
         PyFloat.of_int iterations = ret n ->
         PyFloat.fdiv delay n = ret pause ->
         sleep pause = ret tt ->
         exists groups draw',
           GlitchPrinterService.print_glitch_line self text delay iterations draw
           = (concat groups ++ [final], ret draw')
           /\ Forall2 (glitch_group chars text (Z.to_nat iterations))
                      (seq 0 (S (length text))) groups)
  /\ (forall i line,
         glitched chars i 0 text line ->
         length line = length text
         /\ ((length text <= i)%nat -> line = text)
         /\ forall k c g,
              text !! k = Some c -> line !! k = Some g ->
              ((k < i)%nat -> g = c) /\ (c = 32%N -> g = 32%N)
              /\ (g = c \/ In g chars)).
Proof.
  intros chars final Hne. split; [|split].
  - intros Hi. unfold GlitchPrinterService.print_glitch_line.
    now rewrite glitch_steps_idle.
  - intros n pause Hn Hp Hs. unfold GlitchPrinterService.print_glitch_line.
    destruct (glitch_steps_groups self text delay iterations n pause
                (seq 0 (S (length text))) draw Hne Hn Hp Hs)
      as (groups & draw' & E & Hall).
    rewrite E. exists groups, draw'. split; [|exact Hall].
    cbn [then_ ret write pure]. now rewrite app_nil_r.
  - intros i line Hg. split; [now apply glitched_length in Hg|]. split.
    + intros Hi. now apply (glitched_done chars i 0).
    + intros k c g Hc Hk. now apply (glitched_lookup chars i 0 text line k c g).
Qed.

Lemma glitch_line_frames_witness :
  exists groups draw',
    @GlitchPrinterService.print_glitch_line first_item checked_sleep
      GlitchPrinterService.__init__ (lit "a b") 0.5%float 2 0
    = (concat groups ++ [[13%N] ++ lit "a b" ++ [10%N]], ret draw')
    /\ length groups = 4%nat.
Proof.
  destruct (proj1 (proj2 (@glitch_line_frames first_item checked_sleep
                            GlitchPrinterService.__init__ (lit "a b") 0.5%float 2 0
                            ltac:(discriminate)))
              2%float 0.25%float eq_refl eq_refl eq_refl)
    as (groups & draw' & E & Hall).
  exists groups, draw'. split; [exact E|].
  apply Forall2_length in Hall. now rewrite <- Hall.
Defined.

(** ** [ArtService.box] with a title *)

Section TitledBox.
Import ArtService.

Lemma visible_titled_top max_len title padding border_color title_color :
  title <> [] ->
  colour border_color -> colour title_color -> no_escape title ->
  Color.visible_len (top_border max_len title padding border_color title_color)
  = len g_top_left + len g_horizontal + 1 + len title + 1
    + len g_horizontal * Z.max 0 (max_len - len title + padding * 2)
    + len g_top_right.
Proof.
  intros Hne Hb Ht Hplain. unfold Color.visible_len, top_border.
  replace (truthy title) with true by now destruct title.
  rewrite <- !app_assoc.
  rewrite (strip_colors_colour _ _ Hb).
  rewrite (strip_colors_plain g_top_left) by (repeat constructor; discriminate).
  rewrite (strip_colors_plain g_horizontal) by (repeat constructor; discriminate).
  rewrite (strip_colors_plain (lit " ")) by (repeat constructor; discriminate).
  rewrite (strip_colors_colour _ _ Ht).
  rewrite (strip_colors_plain _ _ Hplain).
  rewrite (strip_colors_colour _ _ Hb).
  rewrite (strip_colors_plain (lit " ")) by (repeat constructor; discriminate).
  rewrite (strip_colors_plain (str_mul _ _))
    by (apply str_mul_plain; repeat constructor; discriminate).
  rewrite (plain_escape_free g_top_right) by (repeat constructor; discriminate).
  rewrite !len_app, len_str_mul.
  change (len (lit " ")) with 1. lia.
Qed.

End TitledBox.

(** X25: the top border of a box with a title.  For colour arguments and a
    title without escape character that is not empty, the top border
    shows the corner, one horizontal glyph, a blank, the title, a blank,
    [max_len - len(title) + 2 * padding] horizontal glyphs and the corner.
    When the title fits ([len(title) <= max_len + 2 * padding], padding
    not negative) its width differs from that of the bottom border by
    [len(title) + 2 - h * (len(title) + 1)] for horizontal glyphs of
    length [h]: with a title the two borders never have the same
    width. *)
Theorem box_title_border (text title : str) (padding : Z)
        (border_color title_color : str) :
  title <> [] ->
  colour border_color -> colour title_color -> no_escape title ->
  let max_len := ArtService.max_visible (ArtService.split_lines text) in
  let top := ArtService.top_border max_len title padding border_color title_color in
  let bottom := ArtService.bottom_border max_len padding border_color in
  In top (ArtService.box_lines text title padding border_color title_color)
  /\ Color.visible_len top
     = len ArtService.g_top_left + len ArtService.g_horizontal + 1 + len title + 1
       + len ArtService.g_horizontal * Z.max 0 (max_len - len title + padding * 2)
       + len ArtService.g_top_right
  /\ (0 <= padding -> len title <= max_len + padding * 2 ->
      Color.visible_len top - Color.visible_len bottom
      = len title + 2 - len ArtService.g_horizontal * (len title + 1)
      /\ Color.visible_len top <> Color.visible_len bottom).
Proof.
  intros Hne Hb Ht Hplain max_len top bottom.
  assert (Etop := visible_titled_top max_len title padding border_color title_color
                    Hne Hb Ht Hplain).
  assert (Ebottom := visible_bottom_border max_len padding border_color Hb).
  fold top in Etop. fold bottom in Ebottom.
  split; [unfold ArtService.box_lines; now left|].
  split; [exact Etop|].
  intros Hp Hfit.
  assert (0 <= max_len).
  { subst max_len. unfold ArtService.max_visible.
    destruct (ArtService.split_lines text) as [|l ls]; [lia|].
    etransitivity; [apply (visible_len_nonneg l)|].
    apply (max_visible_ge (l :: ls) l). now left. }
  assert (1 <= len title) by (destruct title; [contradiction|unfold len; cbn; lia]).
  rewrite Etop, Ebottom. rewrite !Z.max_r by lia.
  change (len ArtService.g_top_left) with 3.
  change (len ArtService.g_top_right) with 3.
  change (len ArtService.g_bottom_left) with 3.
  change (len ArtService.g_bottom_right) with 3.
  change (len ArtService.g_horizontal) with 3.
  split; lia.
Qed.

Lemma box_title_border_witness :
  Color.visible_len (ArtService.top_border 2 (lit "T") 1 Color.CYAN Color.BOLD)
  <> Color.visible_len (ArtService.bottom_border 2 1 Color.CYAN).
Proof.
  refine (proj2 (proj2 (proj2 (box_title_border (lit "hi") (lit "T") 1 Color.CYAN
                                 Color.BOLD _ _ _ _)) _ _)).
  - discriminate.
  - right. apply sgr_token. reflexivity.
  - right. apply sgr_token. reflexivity.
  - repeat constructor. discriminate.
  - lia.
  - vm_compute. discriminate.
Defined.

(** ** [TablePrinter.print]: the rule lines *)

(** X26: the rule lines of a table.  Take a table with headers that hold
    no escape character, an alignment for every header, a colour argument
    for the header colour, a border style other than ["plain"], a padding
    that is not negative and that [" " * n] accepts, and column widths by
    which the horizontal glyph can be repeated.  Then [print] prints the
    top rule first, the header line second and the separator third.  Each
    of the three rule lines shows its left glyph, for every column the
    horizontal glyph once for each character of the column's width, a
    joint between two columns, and its right glyph.  As the glyphs are
    held, a rule line is wider than the header line printed under it by
    twice the sum of the column widths. *)
Theorem table_rules_wider (self : TablePrinter.t) :
  let b := TablePrinter.border_of (TablePrinter.border_style self) in
  let widths := TablePrinter.col_widths self in
  0 <= TablePrinter.padding self ->
  repeats (lit " ") (TablePrinter.padding self) ->
  Forall (repeats (TablePrinter.horizontal b)) widths ->
  TablePrinter.headers self <> [] ->
  (length (TablePrinter.headers self)
   <= length (TablePrinter.column_align self))%nat ->
  Forall no_escape (TablePrinter.headers self) ->
  colour (TablePrinter.header_color self) ->
  b <> TablePrinter.plain ->
  exists top header_line middle bottom,
    TablePrinter.rule b (TablePrinter.top_left b) (TablePrinter.top_cross b)
      (TablePrinter.top_right b) widths = ret top
    /\ TablePrinter.header_line self b widths = ret header_line
    /\ TablePrinter.rule b (TablePrinter.left_cross b) (TablePrinter.cross b)
         (TablePrinter.right_cross b) widths = ret middle
    /\ TablePrinter.rule b (TablePrinter.bottom_left b) (TablePrinter.bottom_cross b)
         (TablePrinter.bottom_right b) widths = ret bottom
    /\ fst (TablePrinter.print self) !! 0%nat = Some top
    /\ fst (TablePrinter.print self) !! 1%nat = Some header_line
    /\ fst (TablePrinter.print self) !! 2%nat = Some middle
    /\ (snd (TablePrinter.print self) = ret tt ->
        List.last (fst (TablePrinter.print self)) [] = bottom)
    /\ Color.visible_len top
       = len (TablePrinter.top_left b)
         + len (TablePrinter.horizontal b) * total_width widths
         + len (TablePrinter.top_cross b) * (len widths - 1)
         + len (TablePrinter.top_right b)
    /\ Color.visible_len middle = Color.visible_len top
    /\ Color.visible_len bottom = Color.visible_len top
    /\ Color.visible_len header_line = line_width b widths
    /\ Color.visible_len top = Color.visible_len header_line + 2 * total_width widths.
Proof.
  intros b widths Hp Hrp Hsizes Hh Hla Hhs Hhc Hb.
  assert (Hne : widths <> []).
  { subst widths. intros E. apply (f_equal length) in E.
    rewrite col_widths_length in E. destruct (TablePrinter.headers self);
      [contradiction|discriminate]. }
  assert (Hpos : Forall (fun w => 0 <= w) widths) by now apply col_widths_nonneg.
  assert (Hstyle : b = TablePrinter.rounded \/ b = TablePrinter.double
                   \/ b = TablePrinter.simple).
  { subst b. unfold TablePrinter.border_of in *.
    repeat case_bool_decide; auto. contradiction. }
  assert (Htruthy : truthy (TablePrinter.top_left b) = true
                    /\ truthy (TablePrinter.left_cross b) = true
                    /\ truthy (TablePrinter.bottom_left b) = true).
  { destruct Hstyle as [E | [E | E]]; rewrite E; repeat split. }
  destruct Htruthy as (Tt & Tm & Tb).
  destruct (header_line_visible self Hp Hrp Hla Hhs Hhc) as (hl & Ehl & Hhl).
  fold b widths in Ehl, Hhl.
  destruct (TablePrinter.print_rows self b widths 0 (TablePrinter.rows self))
    as [lines r] eqn:Erows.
  destruct (print_lines self hl lines r (or_intror Hsizes) Ehl Erows)
    as (top & middle & bottom & Etop & Emid & Ebot & Eprint).
  fold b widths in Etop, Emid, Ebot, Eprint.
  specialize (Etop Tt). specialize (Emid Tm). specialize (Ebot Tb).
  rewrite Tt, Tm, Tb in Eprint.
  exists top, hl, middle, bottom.
  split; [exact Etop|]. split; [exact Ehl|]. split; [exact Emid|].
  split; [exact Ebot|].
  rewrite Eprint. cbn [fst snd app].
  split; [reflexivity|]. split; [reflexivity|]. split; [reflexivity|].
  split.
  { intros ->. cbn [ret].
    change (top :: hl :: middle :: lines ++ [bottom])
      with ([top; hl; middle] ++ lines ++ [bottom]).
    rewrite !app_assoc. apply last_last. }
  assert (Hglyphs :
    no_escape (TablePrinter.horizontal b)
    /\ no_escape (TablePrinter.top_left b) /\ no_escape (TablePrinter.top_cross b)
    /\ no_escape (TablePrinter.top_right b)
    /\ no_escape (TablePrinter.left_cross b) /\ no_escape (TablePrinter.cross b)
    /\ no_escape (TablePrinter.right_cross b)
    /\ no_escape (TablePrinter.bottom_left b) /\ no_escape (TablePrinter.bottom_cross b)
    /\ no_escape (TablePrinter.bottom_right b)).
  { destruct Hstyle as [E | [E | E]]; rewrite E;
      repeat split; repeat constructor; discriminate. }
  destruct Hglyphs as (Gh & G1 & G2 & G3 & G4 & G5 & G6 & G7 & G8 & G9).
  rewrite (rule_visible _ _ _ _ _ _ Etop), (rule_visible _ _ _ _ _ _ Emid),
    (rule_visible _ _ _ _ _ _ Ebot), Hhl, line_width_sum by assumption.
  clear Etop Emid Ebot Eprint Ehl Hhl Erows Hsizes.
  clearbody b widths.
  destruct Hstyle as [E | [E | E]]; rewrite E;
    cbn [TablePrinter.top_left TablePrinter.top_right
      TablePrinter.top_cross TablePrinter.horizontal TablePrinter.left_cross
      TablePrinter.cross TablePrinter.right_cross TablePrinter.bottom_left
      TablePrinter.bottom_cross TablePrinter.bottom_right TablePrinter.vertical
      TablePrinter.rounded TablePrinter.double TablePrinter.simple
      TablePrinter.line_start truthy];
    unfold len; cbn [length]; repeat split; lia.
Qed.

Lemma table_rules_wider_witness :
  exists top header_line,
    fst (TablePrinter.print full_row_table) !! 0%nat = Some top
    /\ fst (TablePrinter.print full_row_table) !! 1%nat = Some header_line
    /\ Color.visible_len top = Color.visible_len header_line + 2 * 11.
Proof.
  pose proof (table_rules_wider full_row_table) as H. cbv zeta in H.
  destruct H as (top & hl & middle & bottom & _ & _ & _ & _ & H0 & H1 & _ & _ & _
                 & _ & _ & _ & H).
  - cbn. lia.
  - repeat split; vm_compute; discriminate.
  - repeat constructor; vm_compute; discriminate.
  - discriminate.
  - cbn. lia.
  - repeat constructor; discriminate.
  - now left.
  - discriminate.
  - exists top, hl. split; [exact H0|]. split; [exact H1|exact H].
Defined.
